(** * Verification of the GPyTorch example notebooks

    The two notebooks under [examples/] are orchestration scripts over
    PyTorch, GPyTorch and KeOps.  This development embeds them as follows.

    - Python floats are IEEE binary64 numbers ([spec_float], module [PyFloat]);
      the only place where their rounding decides a discrete outcome is
      [n_train = int(0.8 * N)].
    - Tensor entries are real numbers extended with one non-finite value
      ([Torch.fnum]); rounding of float32 arithmetic is not modelled.  The
      statements about entries are about the expressions the code computes
      and about what is zero, positive or not finite, never about rounded
      values.
    - Calls into the libraries that have effects or opaque results are events
      of an interaction tree ([prog]); a run answers them with an oracle.  *)

From Stdlib Require Import ZArith List Lia Reals Lra String.
From Stdlib Require Import Floats.SpecFloat.
From stdpp Require Import base option list gmap strings.

Open Scope Z_scope.

(** ** Python exceptions and fallible pure code *)

Inductive exn : Type :=
| IndexError
| KeyError
| ValueError
| OverflowError
| RuntimeError
| FileNotFoundError
| URLError
| ImportError
| AttributeError
| Unsupported          (* outside the fragment of the libraries modelled here *)
| LibraryError (msg : string).

Inductive res (A : Type) : Type :=
| Ok (a : A)
| Err (e : exn).
Arguments Ok {A} a.
Arguments Err {A} e.

#[export] Instance res_ret : MRet res := fun A a => Ok a.
#[export] Instance res_bind : MBind res := fun A B k r =>
  match r with
  | Ok a => k a
  | Err e => Err e
  end.

(** ** Python floats: IEEE 754 binary64 *)

Module PyFloat.
Abbreviation prec := 53 (only parsing).
Abbreviation emax := 1024 (only parsing).

(** [float(n)] for an [int]: the nearest double (exact below 2^53). *)
Definition of_int (n : Z) : spec_float := binary_normalize prec emax n 0 false.

Definition mul : spec_float -> spec_float -> spec_float := SFmul prec emax.
Definition sub : spec_float -> spec_float -> spec_float := SFsub prec emax.
Definition div : spec_float -> spec_float -> spec_float := SFdiv prec emax.

(** [int(x)]: truncation toward zero; [OverflowError] on infinities and
    [ValueError] on nan. *)
Definition to_int (x : spec_float) : res Z :=
  match x with
  | S754_zero _ => Ok 0
  | S754_finite s m e =>
      Ok (cond_Zopp s (if 0 <=? e then Z.pos m * 2 ^ e else Z.pos m / 2 ^ (- e)))
  | S754_infinity _ => Err OverflowError
  | S754_nan => Err ValueError
  end.

(** The literal [0.8]: the double nearest to 8/10. *)
Definition lit_0_8 : spec_float := div (of_int 8) (of_int 10).
End PyFloat.

(** ** Tensors *)

Module Torch.

(** An entry: [Some r] is a finite number read as the real [r]; [None] is
    nan or an infinity. *)
Definition fnum : Type := option R.

Definition lift2 (f : R -> R -> R) (a b : fnum) : fnum :=
  match a, b with
  | Some x, Some y => Some (f x y)
  | _, _ => None
  end.
Definition fadd : fnum -> fnum -> fnum := lift2 Rplus.
Definition fsub : fnum -> fnum -> fnum := lift2 Rminus.
Definition fmul : fnum -> fnum -> fnum := lift2 Rmult.
Definition fdiv (a b : fnum) : fnum :=
  match a, b with
  | Some x, Some y => if Req_dec_T y 0 then None else Some (x / y)%R
  | _, _ => None
  end.
Definition fsqrt (a : fnum) : fnum :=
  match a with
  | Some x => if Rlt_dec x 0 then None else Some (sqrt x)
  | None => None
  end.
Definition fneg (a : fnum) : fnum := option_map Ropp a.
Definition fsin (a : fnum) : fnum := option_map sin a.
Definition fcos (a : fnum) : fnum := option_map cos a.
Definition of_nat (n : nat) : fnum := Some (INR n).

(** [torch.pow(x, 2)] *)
Definition fpow2 (a : fnum) : fnum := fmul a a.

(** A tensor: its shape and its entries in row-major order. *)
Record tensor : Type := Tensor { shape : list nat; data : list fnum }.

Definition numel (s : list nat) : nat := fold_right Nat.mul 1%nat s.
Definition wf (t : tensor) : Prop := length (data t) = numel (shape t).

Definition scalar (x : fnum) : tensor := Tensor [] [x].
Definition vector (l : list fnum) : tensor := Tensor [length l] l.
Definition of_rows (d : nat) (rows : list (list fnum)) : tensor :=
  Tensor [length rows; d] (concat rows).

(** The [n] consecutive blocks of [d] entries of a storage. *)
Fixpoint chunks {A} (d n : nat) (l : list A) : list (list A) :=
  match n with
  | O => []
  | S n' => firstn d l :: chunks d n' (skipn d l)
  end.

(** The rows of a 2-D tensor, with their width.  Tensors of more than two
    dimensions are outside the fragment ([Unsupported] is not an exception
    of Python). *)
Definition to_rows (t : tensor) : res (nat * list (list fnum)) :=
  match shape t with
  | [] | [_] => Err IndexError           (* too many indices for tensor *)
  | [n; d] => Ok (d, chunks d n (data t))
  | _ => Err Unsupported
  end.

(** [t.shape[0]] *)
Definition shape0 (t : tensor) : res Z :=
  match shape t with
  | [] => Err IndexError
  | n :: _ => Ok (Z.of_nat n)
  end.

(** *** Python slices and indices *)

(** A slice bound [k] on a sequence of length [len]: negative bounds count
    from the end, and the result is clamped to [0 .. len]. *)
Definition clamp (k : Z) (len : nat) : nat :=
  Z.to_nat (if k <? 0 then Z.max 0 (k + Z.of_nat len) else Z.min k (Z.of_nat len)).

(** [l[start:stop]] *)
Definition py_slice {A} (start stop : option Z) (l : list A) : list A :=
  let a := from_option (fun k => clamp k (length l)) 0%nat start in
  let b := from_option (fun k => clamp k (length l)) (length l) stop in
  firstn (b - a) (skipn a l).

(** The position an index [i] denotes in a dimension of size [len]. *)
Definition py_pos (i : Z) (len : nat) : res nat :=
  if (- Z.of_nat len <=? i) && (i <? Z.of_nat len)
  then Ok (Z.to_nat (if i <? 0 then i + Z.of_nat len else i))
  else Err IndexError.

Inductive sel : Type :=
| Slice (start stop : option Z)
| Index (i : Z).

(** [t[r, c]] on a 2-D tensor, [r] a slice. *)
Definition getitem2 (t : tensor) (start stop : option Z) (c : sel) : res tensor :=
  '(d, rows) ← to_rows t;
  let rows' := py_slice start stop rows in
  match c with
  | Slice cstart cstop =>
      Ok (of_rows (length (py_slice cstart cstop (seq 0 d)))
                  (map (py_slice cstart cstop) rows'))
  | Index j =>
      p ← py_pos j d;
      Ok (vector (map (fun r => nth p r None) rows'))
  end.

(** *** Reductions *)

Definition fsum (l : list fnum) : fnum := fold_right fadd (Some 0%R) l.

(** mean of the entries; nan on no entry *)
Definition mean_list (l : list fnum) : fnum := fdiv (fsum l) (of_nat (length l)).

(** sample standard deviation (Bessel's correction); nan on fewer than two
    entries *)
Definition std_list (l : list fnum) : fnum :=
  let mu := mean_list l in
  fsqrt (fdiv (fsum (map (fun x => fpow2 (fsub x mu)) l)) (of_nat (length l - 1))).

Definition column (j : nat) (rows : list (list fnum)) : list fnum :=
  map (fun r => nth j r None) rows.

(** [t.f(dim=-2, keepdim=True)] on a 2-D tensor *)
Definition reduce_rows (f : list fnum -> fnum) (t : tensor) : res tensor :=
  '(d, rows) ← to_rows t;
  Ok (Tensor [1%nat; d] (map (fun j => f (column j rows)) (seq 0 d))).

(** [t.f()] *)
Definition reduce_all (f : list fnum -> fnum) (t : tensor) : tensor :=
  scalar (f (data t)).

(** *** Elementwise operations *)

Definition map_tensor (f : fnum -> fnum) (t : tensor) : tensor :=
  Tensor (shape t) (map f (data t)).

(** [a op b] with broadcasting, for equal shapes, a 0-D operand, two 1-D
    operands, and a 2-D tensor against a single row. *)
Definition binop (f : fnum -> fnum -> fnum) (a b : tensor) : res tensor :=
  if decide (shape a = shape b) then
    Ok (Tensor (shape a) (zip_with f (data a) (data b)))
  else
    match shape a, shape b, data a, data b with
    | _, [], _, y :: nil => Ok (Tensor (shape a) (map (fun x => f x y) (data a)))
    | [], _, x :: nil, _ => Ok (Tensor (shape b) (map (fun y => f x y) (data b)))
    | [n], [m], _, _ =>
        (* lengths differ here: one of them must be 1 *)
        if decide (m = 1%nat) then
          match data b with
          | y :: nil => Ok (Tensor [n] (map (fun x => f x y) (data a)))
          | _ => Err Unsupported
          end
        else if decide (n = 1%nat) then
          match data a with
          | x :: nil => Ok (Tensor [m] (map (fun y => f x y) (data b)))
          | _ => Err Unsupported
          end
        else Err RuntimeError       (* sizes must match *)
    | [n; d], [1%nat; d'], _, _ =>
        if decide (d = d') then
          Ok (Tensor [n; d]
                (concat (map (fun r => zip_with f r (data b)) (chunks d n (data a)))))
        else if decide (d = 1%nat) then Err Unsupported
        else if decide (d' = 1%nat) then Err Unsupported
        else Err RuntimeError
    | _, _, _, _ => Err Unsupported
    end.

(** [t + c] for a Python number [c] *)
Definition add_scalar (t : tensor) (c : R) : tensor := map_tensor (fun x => fadd x (Some c)) t.
(** [c * t] *)
Definition scale (c : R) (t : tensor) : tensor := map_tensor (fun x => fmul (Some c) x) t.

End Torch.

(** ** Continuation of the tensor operations: shape surgery *)

Module TorchShape.
Import Torch.

(** [torch.linspace(lb, ub, steps)] *)
Definition linspace (lb ub : R) (steps : nat) : tensor :=
  vector (map (fun i => Some (lb + INR i * ((ub - lb) / INR (steps - 1)))%R) (seq 0 steps)).

(** [t.unsqueeze(-1)] *)
Definition unsqueeze_last (t : tensor) : tensor := Tensor (shape t ++ [1%nat]) (data t).

(** [torch.stack(ts, -1)]: tensors of one shape, joined along a new last
    dimension. *)
Definition stack_last (ts : list tensor) : res tensor :=
  match ts with
  | [] => Err RuntimeError
  | t0 :: _ =>
      if forallb (fun t => bool_decide (shape t = shape t0)) ts then
        Ok (Tensor (shape t0 ++ [length ts])
              (concat (map (fun i => map (fun t => nth i (data t) None) ts)
                         (seq 0 (numel (shape t0))))))
      else Err RuntimeError
  end.

(** [t.squeeze(dim)] for [0 <= dim]: drops dimension [dim] when its size is
    1. *)
Definition squeeze (dim : nat) (t : tensor) : res tensor :=
  match shape t !! dim with
  | None => Err IndexError
  | Some 1%nat => Ok (Tensor (firstn dim (shape t) ++ skipn (S dim) (shape t)) (data t))
  | Some _ => Ok t
  end.

(** [a += b]: the sum must have the shape of [a]. *)
Definition iadd (a b : tensor) : res tensor :=
  r ← binop fadd a b;
  if decide (shape r = shape a) then Ok r else Err RuntimeError.
End TorchShape.

(** ** The data cell of the KeOps notebook *)

Module KeOpsData.
Import Torch.

Record dataset : Type := Dataset {
  train_x : tensor; train_y : tensor; test_x : tensor; test_y : tensor }.

(** The features of a row: all columns but the last; its target: the last. *)
Definition features (r : list fnum) : list fnum := removelast r.
Definition target (r : list fnum) : fnum := List.last r None.

(** [n_train = int(0.8 * N)] *)
Definition n_train (N : Z) : res Z :=
  PyFloat.to_int (PyFloat.mul PyFloat.lit_0_8 (PyFloat.of_int N)).

(** [[
    N = data.shape[0]
    n_train = int(0.8 * N)
    train_x, train_y = data[:n_train, :-1], data[:n_train, -1]
    test_x, test_y = data[n_train:, :-1], data[n_train:, -1]
    ]] *)
Definition split (data : tensor) : res dataset :=
  N ← shape0 data;
  n_train ← n_train N;
  train_x ← getitem2 data None (Some n_train) (Slice None (Some (-1)));
  train_y ← getitem2 data None (Some n_train) (Index (-1));
  test_x ← getitem2 data (Some n_train) None (Slice None (Some (-1)));
  test_y ← getitem2 data (Some n_train) None (Index (-1));
  Ok (Dataset train_x train_y test_x test_y).

(** [[
    mean = train_x.mean(dim=-2, keepdim=True)
    std = train_x.std(dim=-2, keepdim=True) + 1e-6 # prevent dividing by 0
    ]] *)
Definition feature_stats (train_x : tensor) : res (tensor * tensor) :=
  mean ← reduce_rows mean_list train_x;
  std ← reduce_rows std_list train_x;
  Ok (mean, add_scalar std 1e-6%R).

(** [(x - mean) / std] *)
Definition standardize (x mean std : tensor) : res tensor :=
  centred ← binop fsub x mean;
  binop fdiv centred std.

(** [mean, std = train_y.mean(), train_y.std()] *)
Definition label_stats (train_y : tensor) : tensor * tensor :=
  (reduce_all mean_list train_y, reduce_all std_list train_y).

(** The whole cell up to [contiguous()], which leaves the values as they
    are. *)
Definition prepare (data : tensor) : res dataset :=
  s ← split data;
  '(mean, std) ← feature_stats (train_x s);
  train_x' ← standardize (train_x s) mean std;
  test_x' ← standardize (test_x s) mean std;
  let '(mean, std) := label_stats (train_y s) in
  train_y' ← standardize (train_y s) mean std;
  test_y' ← standardize (test_y s) mean std;
  Ok (Dataset train_x' train_y' test_x' test_y').

(** [torch.sqrt(torch.mean(torch.pow(observed_pred.mean - test_y, 2)))] *)
Definition rmse (pred_mean test_y : tensor) : res tensor :=
  diff ← binop fsub pred_mean test_y;
  Ok (map_tensor fsqrt (reduce_all mean_list (map_tensor fpow2 diff))).

(** The score in the words of the specification: the square root of the mean,
    over the test points [i], of the squared difference between the
    predictive mean and the target at [i]. *)
Definition rmse_spec (pred target : list fnum) : fnum :=
  let n := length target in
  fsqrt (fdiv (fsum (map (fun i => fpow2 (fsub (nth i pred None) (nth i target None)))
                       (seq 0 n)))
              (of_nat n)).
End KeOpsData.

(** ** The data cell of the derivative notebook *)

Module DerivData.
Import Torch TorchShape.

Definition lb : R := 0%R.
Definition ub : R := (5 * PI)%R.
Definition n : nat := 50.

(** [train_x = torch.linspace(lb, ub, n).unsqueeze(-1)] *)
Definition train_x : tensor := unsqueeze_last (linspace lb ub n).

(** [[
    train_y = torch.stack([
        torch.sin(2*train_x) + torch.cos(train_x),
        -torch.sin(train_x) + 2*torch.cos(2*train_x)
    ], -1).squeeze(1)
    train_y += 0.05 * noise
    ]]
    where [noise] is what [torch.randn(n, 2)] returned. *)
Definition train_y (noise : tensor) : res tensor :=
  value ← binop fadd (map_tensor fsin (scale 2 train_x)) (map_tensor fcos train_x);
  deriv ← binop fadd (map_tensor fneg (map_tensor fsin train_x))
                      (scale 2 (map_tensor fcos (scale 2 train_x)));
  stacked ← stack_last [value; deriv];
  train_y ← squeeze 1 stacked;
  iadd train_y (scale 0.05 noise).
End DerivData.

(** ** Statistics of finite data, in the reals *)

Module RealStats.
Import Torch.

Definition sum (l : list R) : R := fold_right Rplus 0%R l.
Definition mean (l : list R) : R := (sum l / INR (length l))%R.
(** sample standard deviation *)
Definition std (l : list R) : R :=
  sqrt (sum (map (fun x => (x - mean l) * (x - mean l))%R l) / INR (length l - 1)).

(** a table of finite numbers as tensor entries *)
Definition inject (rows : list (list R)) : list (list fnum) := map (map Some) rows.
End RealStats.

(** Row-wise form of the operations of [KeOpsData.prepare]. *)
Module RowForm.
Import Torch.

Definition col_means (d : nat) (rows : list (list fnum)) : list fnum :=
  map (fun j => mean_list (column j rows)) (seq 0 d).
Definition col_divisors (d : nat) (rows : list (list fnum)) : list fnum :=
  map (fun j => fadd (std_list (column j rows)) (Some 1e-6%R)) (seq 0 d).
Definition standardize_row (mu sd : list fnum) (r : list fnum) : list fnum :=
  zip_with fdiv (zip_with fsub r mu) sd.
Definition standardize_label (mu sd : fnum) (y : fnum) : fnum := fdiv (fsub y mu) sd.
End RowForm.

(** A small table used to exercise the statements: six rows, two features
    and a target. *)
Definition sample_table : list (list R) :=
  [[1; 2; 3]; [2; 0; 1]; [4; 1; 0]; [3; 5; 2]; [0; 1; 1]; [5; 2; 4]]%R.

(** ** Library calls as events *)

(** An opaque library object (a module, a distribution, an optimizer, a tensor
    that carries its autograd graph), or the negation [-v] of one. *)
Inductive val : Type :=
| Handle (id : positive)
| Neg (v : val).

#[export] Instance val_eq_dec : EqDecision val.
Proof. solve_decision. Defined.

(** Floating-point literals of the notebooks. *)
Definition lit_0_1 : spec_float := PyFloat.div (PyFloat.of_int 1) (PyFloat.of_int 10).
Definition lit_2_5 : spec_float := PyFloat.div (PyFloat.of_int 5) (PyFloat.of_int 2).
Definition lit_0_5 : spec_float := PyFloat.div (PyFloat.of_int 1) (PyFloat.of_int 2).

(** Constructors of library objects. *)
Inductive ctor : Type :=
| ConstantMean
| ConstantMeanGrad
| KeopsMaternKernel (nu : spec_float)
| PolynomialKernelGrad (power : Z)
| ScaleKernel (base_kernel : val)
| GaussianLikelihood
| MultitaskGaussianLikelihood (num_tasks : Z)
| MultivariateNormal (mean covar : val)
| MultitaskMultivariateNormal (mean covar : val)
| Adam (params : val) (lr : spec_float)
| ExactMarginalLogLikelihood (likelihood model : val)
| Device (name : string)
| Instance (class : string).   (* allocation of an instance of a notebook class *)

Inductive fmt_arg : Type :=
| ArgInt (z : Z)
| ArgFloat (x : spec_float).

(** What [print] is given. *)
Inductive line : Type :=
| Text (s : string)
| Format (fmt : string) (args : list fmt_arg)     (* fmt % args *)
| Repr (x : spec_float).

(** Context managers. *)
Inductive ctx : Type :=
| NoGrad
| FastPredVar
| MaxCgIterations (n : Z).

Inductive call : Type -> Type :=
| Import (stmt : string) : call unit
| Magic (stmt : string) : call unit
| Print (l : line) : call unit
| IsFile (path : string) : call bool                         (* os.path.isfile *)
| UrlRetrieve (url path : string) : call unit                (* urllib.request.urlretrieve *)
| LoadMat (path : string) : call (gmap string Torch.tensor)  (* scipy.io.loadmat *)
| TorchTensor (a : Torch.tensor) : call unit                 (* torch.Tensor(a) *)
| Randn (shape : list nat) : call Torch.tensor               (* torch.randn *)
| To (t : Torch.tensor) (device : val) : call unit           (* t.to(device) *)
| TimeTime : call spec_float                                 (* time.time() *)
| New (c : ctor) : call val
| ExactGPInit (self : val) (train_x train_y : Torch.tensor) (likelihood : val) : call unit
| Cuda (o : val) : call unit                                 (* o.cuda() *)
| Train (o : val) : call unit                                (* o.train() *)
| Eval (o : val) : call unit                                 (* o.eval() *)
| Parameters (o : val) : call val                            (* o.parameters() *)
| ZeroGrad (optimizer : val) : call unit
| Step (optimizer : val) : call unit
| Invoke (o : val) (x : Torch.tensor) : call val             (* o(x) *)
| Apply (o : val) (d : val) : call val                       (* o(d) *)
| InvokeMll (mll : val) (output : val) (target : Torch.tensor) : call val
| Backward (loss : val) : call unit                          (* loss.backward() *)
| Item (o : val) (path : list string) : call spec_float      (* o.path.item() *)
| DistMean (d : val) : call Torch.tensor                     (* d.mean *)
| ConfidenceRegion (d : val) : call (Torch.tensor * Torch.tensor)
| Subplots (nrows ncols : Z) (figsize : Z * Z) : call (val * (val * val))
| AxPlot (ax : val) (x y : Torch.tensor) (style : string) : call unit
| AxFillBetween (ax : val) (x lower upper : Torch.tensor) (alpha : spec_float) : call unit
| AxLegend (ax : val) (labels : list string) : call unit
| AxSetTitle (ax : val) (title : string) : call unit.

(** ** Cells as programs over library calls *)

Inductive prog (A : Type) : Type :=
| Ret (a : A)
| Throw (e : exn)
| Call {X} (c : call X) (k : X -> prog A)
| TryExcept {X} (body : prog X) (handler : exn -> prog X) (k : X -> prog A)
| With {X} (cm : ctx) (body : prog X) (k : X -> prog A).
Arguments Ret {A} a.
Arguments Throw {A} e.
Arguments Call {A X} c k.
Arguments TryExcept {A X} body handler k.
Arguments With {A X} cm body k.

Fixpoint bind {A B} (p : prog A) (f : A -> prog B) : prog B :=
  match p with
  | Ret a => f a
  | Throw e => Throw e
  | Call c k => Call c (fun x => bind (k x) f)
  | TryExcept body handler k => TryExcept body handler (fun x => bind (k x) f)
  | With cm body k => With cm body (fun x => bind (k x) f)
  end.

#[export] Instance prog_ret : MRet prog := @Ret.
#[export] Instance prog_bind : MBind prog := fun A B f p => bind p f.

Definition call_ {X} (c : call X) : prog X := Call c Ret.
Definition with_ {X} (cm : ctx) (body : prog X) : prog X := With cm body Ret.
Definition lift {A} (r : res A) : prog A :=
  match r with
  | Ok a => Ret a
  | Err e => Throw e
  end.

(** [for i in range(n): body i] *)
Fixpoint for_from (i : Z) (n : nat) (body : Z -> prog unit) : prog unit :=
  match n with
  | O => Ret tt
  | S n' => body i ;; for_from (i + 1) n' body
  end.
Definition for_range (n : Z) (body : Z -> prog unit) : prog unit :=
  for_from 0 (Z.to_nat n) body.

(** A program without [try] statement. *)
Inductive handler_free : forall {A}, prog A -> Prop :=
| hf_ret {A} (a : A) : handler_free (Ret a)
| hf_throw {A} e : handler_free (@Throw A e)
| hf_call {A X} (c : call X) (k : X -> prog A) :
    (forall x, handler_free (k x)) -> handler_free (Call c k)
| hf_with {A X} cm (body : prog X) (k : X -> prog A) :
    handler_free body -> (forall x, handler_free (k x)) -> handler_free (With cm body k).

(** *** Runs *)

Inductive event : Type :=
| Ev {X} (c : call X) (r : res X)      (* a call and what it returned or raised *)
| Enter (cm : ctx)
| Exit (cm : ctx).

(** The libraries and the world behind them: they answer each call from a
    state of their own. *)
Definition oracle (W : Type) : Type := forall X, call X -> W -> res X * W.

Fixpoint run {W A} (o : oracle W) (p : prog A) (w : W) : res A * list event * W :=
  match p with
  | Ret a => (Ok a, [], w)
  | Throw e => (Err e, [], w)
  | Call c k =>
      match o _ c w with
      | (Ok x, w') => let '(r, tr, w'') := run o (k x) w' in (r, Ev c (Ok x) :: tr, w'')
      | (Err e, w') => (Err e, [Ev c (Err e)], w')
      end
  | TryExcept body handler k =>
      let '(r, tr, w') := run o body w in
      match r with
      | Ok x => let '(r', tr', w'') := run o (k x) w' in (r', tr ++ tr', w'')
      | Err e =>
          let '(r1, tr1, w1) := run o (handler e) w' in
          match r1 with
          | Ok x => let '(r', tr', w'') := run o (k x) w1 in (r', tr ++ tr1 ++ tr', w'')
          | Err e' => (Err e', tr ++ tr1, w1)
          end
      end
  | With cm body k =>
      let '(r, tr, w') := run o body w in
      match r with
      | Ok x =>
          let '(r', tr', w'') := run o (k x) w' in
          (r', Enter cm :: tr ++ Exit cm :: tr', w'')
      | Err e => (Err e, Enter cm :: tr ++ [Exit cm], w')
      end
  end.

Definition outcome {W A} (x : res A * list event * W) : res A := x.1.1.
Definition trace {W A} (x : res A * list event * W) : list event := x.1.2.
Definition world {W A} (x : res A * list event * W) : W := x.2.

(** ** Instances of the classes the notebooks define *)

(** An instance: the object the library base class initialises, and the
    attributes the notebook's [__init__] assigns. *)
Record instance : Type := MkInstance { self_id : val; attrs : gmap string val }.

(** [self.name = v] *)
Definition setattr (self : instance) (name : string) (v : val) : instance :=
  MkInstance (self_id self) (<[name := v]> (attrs self)).

(** [self.name] *)
Definition getattr (self : instance) (name : string) : prog val :=
  match attrs self !! name with
  | Some v => Ret v
  | None => Throw AttributeError
  end.

(** ** The KeOps notebook *)

Module KeOps.
Import Torch KeOpsData.

Definition dataset_url : string := "https://www.dropbox.com/s/f6ow1i59oqx05pl/3droad.mat?dl=1".
Definition dataset_file : string := "3droad.mat".

Definition imports_cell : prog unit :=
  call_ (Import "import math");;
  call_ (Import "import torch");;
  call_ (Import "import gpytorch");;
  call_ (Import "from matplotlib import pyplot as plt");;
  call_ (Magic "%matplotlib inline");;
  call_ (Magic "%load_ext autoreload");;
  call_ (Magic "%autoreload 2").

(** [[
    if not os.path.isfile('3droad.mat'):
        print('Downloading \'3droad\' UCI dataset...')
        urllib.request.urlretrieve('https://...', '3droad.mat')
    data = torch.Tensor(loadmat('3droad.mat')['data'])
    ]] *)
Definition download_cell : prog tensor :=
  call_ (Import "import urllib.request");;
  call_ (Import "import os.path");;
  call_ (Import "from scipy.io import loadmat");;
  call_ (Import "from math import floor");;
  present ← call_ (IsFile dataset_file);
  (if negb present then
     call_ (Print (Text "Downloading '3droad' UCI dataset..."));;
     call_ (UrlRetrieve dataset_url dataset_file)
   else Ret tt);;
  mat ← call_ (LoadMat dataset_file);
  data ← lift (from_option Ok (Err KeyError) (mat !! "data"));
  call_ (TorchTensor data);;
  Ret data.

(** The split and normalisation cell: [KeOpsData.prepare], followed by the
    transfers to [torch.device('cuda:0')]. *)
Definition prepare_cell (data : tensor) : prog dataset :=
  call_ (Import "import numpy as np");;
  ds ← lift (prepare data);
  output_device ← call_ (New (Device "cuda:0"));
  call_ (To (train_x ds) output_device);;
  call_ (To (train_y ds) output_device);;
  call_ (To (test_x ds) output_device);;
  call_ (To (test_y ds) output_device);;
  Ret ds.

(** [[
    class ExactGPModel(gpytorch.models.ExactGP):
        def __init__(self, train_x, train_y, likelihood):
            super(ExactGPModel, self).__init__(train_x, train_y, likelihood)
            self.mean_module = gpytorch.means.ConstantMean()
            self.covar_module = gpytorch.kernels.ScaleKernel(
                gpytorch.kernels.keops.MaternKernel(nu=2.5))
    ]] *)
Definition ExactGPModel (train_x train_y : tensor) (likelihood : val) : prog instance :=
  self ← call_ (New (Instance "ExactGPModel"));
  call_ (ExactGPInit self train_x train_y likelihood);;
  let self := MkInstance self ∅ in
  mean_module ← call_ (New ConstantMean);
  let self := setattr self "mean_module" mean_module in
  base_kernel ← call_ (New (KeopsMaternKernel lit_2_5));
  covar_module ← call_ (New (ScaleKernel base_kernel));
  let self := setattr self "covar_module" covar_module in
  Ret self.

(** [[
        def forward(self, x):
            mean_x = self.mean_module(x)
            covar_x = self.covar_module(x)
            return gpytorch.distributions.MultivariateNormal(mean_x, covar_x)
    ]] *)
Definition forward (self : instance) (x : tensor) : prog val :=
  mean_module ← getattr self "mean_module";
  mean_x ← call_ (Invoke mean_module x);
  covar_module ← getattr self "covar_module";
  covar_x ← call_ (Invoke covar_module x);
  call_ (New (MultivariateNormal mean_x covar_x)).

(** [[
    likelihood = gpytorch.likelihoods.GaussianLikelihood().cuda()
    model = ExactGPModel(train_x, train_y, likelihood).cuda()
    ]] *)
Definition model_cell (ds : dataset) : prog (val * instance) :=
  likelihood ← call_ (New GaussianLikelihood);
  call_ (Cuda likelihood);;
  model ← ExactGPModel (train_x ds) (train_y ds) likelihood;
  call_ (Cuda (self_id model));;
  Ret (likelihood, model).

Definition training_iter : Z := 50.

Definition iter_fmt : string :=
  "Iter %d/%d - Loss: %.3f   lengthscale: %.3f   noise: %.3f".

(** One pass of the body of [for i in range(training_iter)]. *)
Definition training_step (ds : dataset) (model : instance) (optimizer mll : val)
    (i : Z) : prog unit :=
  start_time ← call_ TimeTime;
  call_ (ZeroGrad optimizer);;
  output ← call_ (Invoke (self_id model) (train_x ds));
  m ← call_ (InvokeMll mll output (train_y ds));
  let loss := Neg m in
  call_ (Backward loss);;
  loss_item ← call_ (Item loss []);
  covar_module ← getattr model "covar_module";
  lengthscale ← call_ (Item covar_module ["base_kernel"; "lengthscale"]);
  noise ← call_ (Item (self_id model) ["likelihood"; "noise"]);
  call_ (Print (Format iter_fmt
                  [ArgInt (i + 1); ArgInt training_iter; ArgFloat loss_item;
                   ArgFloat lengthscale; ArgFloat noise]));;
  call_ (Step optimizer);;
  now ← call_ TimeTime;
  call_ (Print (Repr (PyFloat.sub now start_time))).

Definition training_cell (ds : dataset) (likelihood : val) (model : instance) : prog unit :=
  call_ (Train (self_id model));;
  call_ (Train likelihood);;
  params ← call_ (Parameters (self_id model));
  optimizer ← call_ (New (Adam params lit_0_1));
  mll ← call_ (New (ExactMarginalLogLikelihood likelihood (self_id model)));
  call_ (Import "import time");;
  for_range training_iter (training_step ds model optimizer mll).

(** [observed_pred = likelihood(model(test_x))] *)
Definition predict (ds : dataset) (likelihood : val) (model : instance) : prog val :=
  f ← call_ (Invoke (self_id model) (test_x ds));
  call_ (Apply likelihood f).

Definition eval_cell (ds : dataset) (likelihood : val) (model : instance) : prog val :=
  call_ (Eval (self_id model));;
  call_ (Eval likelihood);;
  with_ NoGrad (with_ FastPredVar (predict ds likelihood model)).

Definition rmse_cell (ds : dataset) (observed_pred : val) : prog tensor :=
  mean ← call_ (DistMean observed_pred);
  lift (rmse mean (test_y ds)).

(** The cells in document order. *)
Definition notebook : prog tensor :=
  imports_cell;;
  data ← download_cell;
  ds ← prepare_cell data;
  '(likelihood, model) ← model_cell ds;
  training_cell ds likelihood model;;
  observed_pred ← eval_cell ds likelihood model;
  rmse_cell ds observed_pred.
End KeOps.

(** ** The notebook on derivative information *)

Module Deriv.
Import Torch TorchShape DerivData.

Definition imports_cell : prog unit :=
  call_ (Import "import torch");;
  call_ (Import "import gpytorch");;
  call_ (Import "import math");;
  call_ (Import "from matplotlib import pyplot as plt");;
  call_ (Import "import numpy as np");;
  call_ (Magic "%matplotlib inline");;
  call_ (Magic "%load_ext autoreload");;
  call_ (Magic "%autoreload 2").

Definition data_cell : prog (tensor * tensor) :=
  noise ← call_ (Randn [n; 2%nat]);
  train_y ← lift (train_y noise);
  Ret (train_x, train_y).

(** [[
    class GPModelWithDerivatives(gpytorch.models.ExactGP):
        def __init__(self, train_x, train_y, likelihood):
            super(GPModelWithDerivatives, self).__init__(train_x, train_y, likelihood)
            self.mean_module = gpytorch.means.ConstantMeanGrad()
            self.base_kernel = gpytorch.kernels.PolynomialKernelGrad(power=2)
            self.covar_module = gpytorch.kernels.ScaleKernel(self.base_kernel)
    ]] *)
Definition GPModelWithDerivatives (train_x train_y : tensor) (likelihood : val)
    : prog instance :=
  self ← call_ (New (Instance "GPModelWithDerivatives"));
  call_ (ExactGPInit self train_x train_y likelihood);;
  let self := MkInstance self ∅ in
  mean_module ← call_ (New ConstantMeanGrad);
  let self := setattr self "mean_module" mean_module in
  base_kernel ← call_ (New (PolynomialKernelGrad 2));
  let self := setattr self "base_kernel" base_kernel in
  base_kernel ← getattr self "base_kernel";
  covar_module ← call_ (New (ScaleKernel base_kernel));
  let self := setattr self "covar_module" covar_module in
  Ret self.

(** [[
        def forward(self, x):
            mean_x = self.mean_module(x)
            covar_x = self.covar_module(x)
            return gpytorch.distributions.MultitaskMultivariateNormal(mean_x, covar_x)
    ]] *)
Definition forward (self : instance) (x : tensor) : prog val :=
  mean_module ← getattr self "mean_module";
  mean_x ← call_ (Invoke mean_module x);
  covar_module ← getattr self "covar_module";
  covar_x ← call_ (Invoke covar_module x);
  call_ (New (MultitaskMultivariateNormal mean_x covar_x)).

(** [[
    likelihood = gpytorch.likelihoods.MultitaskGaussianLikelihood(num_tasks=2)
    model = GPModelWithDerivatives(train_x, train_y, likelihood)
    ]] *)
Definition model_cell (train_x train_y : tensor) : prog (val * instance) :=
  likelihood ← call_ (New (MultitaskGaussianLikelihood 2));
  model ← GPModelWithDerivatives train_x train_y likelihood;
  Ret (likelihood, model).

Definition n_iter : Z := 50.

Definition iter_fmt : string :=
  "Iter %d/%d - Loss: %.3f   offset: %.3f   noise: %.3f".

Definition training_step (train_x train_y : tensor) (model : instance)
    (optimizer mll : val) (i : Z) : prog unit :=
  call_ (ZeroGrad optimizer);;
  output ← call_ (Invoke (self_id model) train_x);
  m ← call_ (InvokeMll mll output train_y);
  let loss := Neg m in
  call_ (Backward loss);;
  loss_item ← call_ (Item loss []);
  covar_module ← getattr model "covar_module";
  offset ← call_ (Item covar_module ["base_kernel"; "offset"]);
  noise ← call_ (Item (self_id model) ["likelihood"; "noise"]);
  call_ (Print (Format iter_fmt
                  [ArgInt (i + 1); ArgInt n_iter; ArgFloat loss_item;
                   ArgFloat offset; ArgFloat noise]));;
  call_ (Step optimizer).

Definition training_cell (train_x train_y : tensor) (likelihood : val) (model : instance)
    : prog unit :=
  call_ (Train (self_id model));;
  call_ (Train likelihood);;
  params ← call_ (Parameters (self_id model));
  optimizer ← call_ (New (Adam params lit_0_1));
  mll ← call_ (New (ExactMarginalLogLikelihood likelihood (self_id model)));
  for_range n_iter (training_step train_x train_y model optimizer mll).

(** [test_x = torch.linspace(lb, ub, 500)] *)
Definition test_x : tensor := linspace lb ub 500.

(** [[
        predictions = likelihood(model(test_x))
        mean = predictions.mean
        lower, upper = predictions.confidence_region()
    ]] *)
Definition predict (likelihood : val) (model : instance)
    : prog (tensor * tensor * tensor) :=
  f ← call_ (Invoke (self_id model) test_x);
  predictions ← call_ (Apply likelihood f);
  mean ← call_ (DistMean predictions);
  '(lower, upper) ← call_ (ConfidenceRegion predictions);
  Ret (mean, lower, upper).

(** One panel of the figure: the training data, the predictive mean and
    the confidence band of task [task]. *)
Definition plot_panel (ax : val) (train_x train_y mean lower upper : tensor)
    (task : Z) (observed title : string) : prog unit :=
  y ← lift (getitem2 train_y None None (Index task));
  call_ (AxPlot ax train_x y "k*");;
  m ← lift (getitem2 mean None None (Index task));
  call_ (AxPlot ax test_x m "b");;
  lo ← lift (getitem2 lower None None (Index task));
  up ← lift (getitem2 upper None None (Index task));
  call_ (AxFillBetween ax test_x lo up lit_0_5);;
  call_ (AxLegend ax [observed; "Mean"; "Confidence"]);;
  call_ (AxSetTitle ax title).

Definition eval_cell (train_x train_y : tensor) (likelihood : val) (model : instance)
    : prog unit :=
  call_ (Train (self_id model));;
  call_ (Eval (self_id model));;
  call_ (Eval likelihood);;
  '(f, (y1_ax, y2_ax)) ← call_ (Subplots 1 2 (12, 6));
  '(mean, lower, upper) ←
    with_ NoGrad (with_ (MaxCgIterations 50) (predict likelihood model));
  plot_panel y1_ax train_x train_y mean lower upper 0 "Observed Values" "Function values";;
  plot_panel y2_ax train_x train_y mean lower upper 1 "Observed Derivatives" "Derivatives".

Definition notebook : prog unit :=
  imports_cell;;
  '(train_x, train_y) ← data_cell;
  '(likelihood, model) ← model_cell train_x train_y;
  training_cell train_x train_y likelihood model;;
  eval_cell train_x train_y likelihood model.
End Deriv.

(** ** Worlds *)

(** The contents of a [.mat] file: its variables by name. *)
Abbreviation matfile := (gmap string Torch.tensor).

(** A world with a file system, in front of libraries [lib] that answer the
    other calls.  [net] is what the network serves.  A download either stores
    the whole file or raises before anything is stored: a download that
    breaks off midway, and the files that libraries write on their own
    account, are outside this world.  It is used for runs of the download
    cell and to exhibit runs of the notebook; the statements about all runs
    are made for every oracle. *)
Definition os_oracle {L} (net : string -> res matfile) (lib : oracle L)
    : oracle (gmap string matfile * L) :=
  fun X c w =>
    match c in call X return res X * (gmap string matfile * L) with
    | IsFile path => (Ok (bool_decide (is_Some (w.1 !! path))), w)
    | UrlRetrieve url path =>
        match net url with
        | Ok f => (Ok tt, (<[path := f]> w.1, w.2))
        | Err e => (Err e, w)
        end
    | LoadMat path =>
        match w.1 !! path with
        | Some f => (Ok f, w)
        | None => (Err FileNotFoundError, w)
        end
    | c' => let '(r, l) := lib _ c' w.2 in (r, (w.1, l))
    end.

(** Libraries in which no call fails: objects get fresh handles, numbers and
    tensors are fixed; [pred_mean] is the mean of every distribution. *)
Definition calm_with (pred_mean : Torch.tensor) : oracle positive :=
  fun X c w =>
    match c in call X return res X * positive with
    | Import _ | Magic _ | Print _ | UrlRetrieve _ _ | TorchTensor _ | To _ _
    | ExactGPInit _ _ _ _ | Cuda _ | Train _ | Eval _ | ZeroGrad _ | Step _
    | Backward _ | AxPlot _ _ _ _ | AxFillBetween _ _ _ _ _ | AxLegend _ _
    | AxSetTitle _ _ => (Ok tt, w)
    | IsFile _ => (Ok false, w)
    | LoadMat _ => (Ok ∅, w)
    | Randn shape => (Ok (Torch.Tensor shape (repeat (Some 0%R) (Torch.numel shape))), w)
    | TimeTime | Item _ _ => (Ok (S754_zero false), w)
    | New _ | Parameters _ | Invoke _ _ | Apply _ _ | InvokeMll _ _ _ =>
        (Ok (Handle w), Pos.succ w)
    | DistMean _ => (Ok pred_mean, w)
    | ConfidenceRegion _ =>
        (Ok (Torch.Tensor [0%nat; 2%nat] [], Torch.Tensor [0%nat; 2%nat] []), w)
    | Subplots _ _ _ => (Ok (Handle w, (Handle (w + 1), Handle (w + 2))), (w + 3)%positive)
    end.

Definition calm : oracle positive := calm_with (Torch.Tensor [0%nat; 2%nat] []).

(** A [.mat] file that holds the sample table as its ['data']. *)
Definition sample_mat : matfile :=
  {["data" := Torch.of_rows 3 (RealStats.inject sample_table)]}.

(** A network that serves the sample file at every address. *)
Definition sample_net : string -> res matfile := fun _ => Ok sample_mat.

(** ** Observing traces *)

(** The exception a call raised. *)
Definition failed (ev : event) : option exn :=
  match ev with
  | Ev _ (Err e) => Some e
  | _ => None
  end.

(** [loss] when the event is [loss.backward()]. *)
Definition ev_backward (ev : event) : option val :=
  match ev with
  | Ev c _ => match c with Backward loss => Some loss | _ => None end
  | _ => None
  end.

(** [(o, d)] when the event is the application [o(d)] of a likelihood to a
    distribution. *)
Definition ev_apply (ev : event) : option (val * val) :=
  match ev with
  | Ev c _ => match c with Apply o d => Some (o, d) | _ => None end
  | _ => None
  end.

Inductive mode : Type := Training | Evaluation.

(** [(o, m)] when the event is [o.train()] or [o.eval()]. *)
Definition ev_mode (ev : event) : option (val * mode) :=
  match ev with
  | Ev c _ =>
      match c with
      | Train o => Some (o, Training)
      | Eval o => Some (o, Evaluation)
      | _ => None
      end
  | _ => None
  end.

(** The line when the event is a [print] of a formatted line. *)
Definition ev_diagnostic (ev : event) : option line :=
  match ev with
  | Ev c _ =>
      match c with
      | Print (Format fmt args) => Some (Format fmt args)
      | _ => None
      end
  | _ => None
  end.

(** The line of any [print]. *)
Definition ev_print (ev : event) : option line :=
  match ev with
  | Ev c _ => match c with Print l => Some l | _ => None end
  | _ => None
  end.

(** [(url, path)] when the event is a download to a file. *)
Definition ev_write (ev : event) : option (string * string) :=
  match ev with
  | Ev c _ => match c with UrlRetrieve url path => Some (url, path) | _ => None end
  | _ => None
  end.

(** The mode the most recent [train()]/[eval()] call on [o] asked for, in a
    history given latest event first. *)
Fixpoint last_mode_rev (o : val) (history : list event) : option mode :=
  match history with
  | [] => None
  | ev :: earlier =>
      match ev_mode ev with
      | Some (o', m) => if decide (o' = o) then Some m else last_mode_rev o earlier
      | None => last_mode_rev o earlier
      end
  end.
Definition last_mode (o : val) (pre : list event) : option mode :=
  last_mode_rev o (rev pre).

(** Going back in a history (latest event first), the first [torch.no_grad()]
    marker met is an entry. *)
Fixpoint no_grad_rev (history : list event) : bool :=
  match history with
  | [] => false
  | Enter NoGrad :: _ => true
  | Exit NoGrad :: _ => false
  | _ :: earlier => no_grad_rev earlier
  end.
Definition in_no_grad (pre : list event) : bool := no_grad_rev (rev pre).

(** [P pre ev] at every event [ev] of a trace, [pre] being the events before
    it. *)
Fixpoint at_every (P : list event -> event -> Prop) (pre tr : list event) : Prop :=
  match tr with
  | [] => True
  | ev :: tr' => P pre ev /\ at_every P (pre ++ [ev]) tr'
  end.

(** A property of an event and its past that extending the past keeps. *)
Definition stable (P : list event -> event -> Prop) : Prop :=
  forall pre0 pre ev, P pre ev -> P (pre0 ++ pre) ev.

(** Every run of [p], started after the events [pre], satisfies [P] at every
    event. *)
Definition always_after {A} (pre : list event) (P : list event -> event -> Prop)
    (p : prog A) : Prop :=
  forall W (o : oracle W) (w : W), at_every P pre (trace (run o p w)).
Definition always {A} (P : list event -> event -> Prop) (p : prog A) : Prop :=
  always_after [] P p.

(** At each [loss.backward()], the two calls before it were
    [output = model(train_x)] and [m = mll(output, train_y)], and
    [loss = -m]. *)
Definition loss_is_neg_mll (model mll : val) (train_x train_y : Torch.tensor)
    (pre : list event) (ev : event) : Prop :=
  forall loss, ev_backward ev = Some loss ->
    exists output m,
      rev pre !! 1%nat = Some (Ev (Invoke model train_x) (Ok output)) /\
      rev pre !! 0%nat = Some (Ev (InvokeMll mll output train_y) (Ok m)) /\
      loss = Neg m.

(** The same, with the criterion being the object that
    [ExactMarginalLogLikelihood(likelihood, model)] returned earlier. *)
Definition loss_is_neg_exact_mll (likelihood model : val) (train_x train_y : Torch.tensor)
    (pre : list event) (ev : event) : Prop :=
  forall loss, ev_backward ev = Some loss ->
    exists mll output m,
      In (Ev (New (ExactMarginalLogLikelihood likelihood model)) (Ok mll)) pre /\
      rev pre !! 1%nat = Some (Ev (Invoke model train_x) (Ok output)) /\
      rev pre !! 0%nat = Some (Ev (InvokeMll mll output train_y) (Ok m)) /\
      loss = Neg m.

(** At each application [likelihood(f)]: the call before it was
    [f = model(x)]; the latest mode call on the model and the latest on the
    likelihood were [eval()]; and the innermost [torch.no_grad()] marker is an
    entry. *)
Definition predicted_in_eval_mode (pre : list event) (ev : event) : Prop :=
  forall likelihood f, ev_apply ev = Some (likelihood, f) ->
    last_mode likelihood pre = Some Evaluation /\
    in_no_grad pre = true /\
    exists model x,
      rev pre !! 0%nat = Some (Ev (Invoke model x) (Ok f)) /\
      last_mode model pre = Some Evaluation.

(** The same, for a known model, likelihood and test input. *)
Definition predicted_by (model likelihood : val) (test_x : Torch.tensor)
    (pre : list event) (ev : event) : Prop :=
  forall o f, ev_apply ev = Some (o, f) ->
    o = likelihood /\
    rev pre !! 0%nat = Some (Ev (Invoke model test_x) (Ok f)) /\
    last_mode model pre = Some Evaluation /\
    last_mode likelihood pre = Some Evaluation /\
    in_no_grad pre = true.

Definition is_apply {X} (c : call X) : Prop :=
  match c with
  | Apply _ _ => True
  | _ => False
  end.

Definition not_apply (X : Type) (c : call X) : Prop := ~ is_apply c.

(** A program whose calls all satisfy [S]. *)
Inductive calls_only (S : forall X, call X -> Prop) : forall {A}, prog A -> Prop :=
| co_ret {A} (a : A) : calls_only S (Ret a)
| co_throw {A} e : calls_only S (@Throw A e)
| co_call {A X} (c : call X) (k : X -> prog A) :
    S X c -> (forall x, calls_only S (k x)) -> calls_only S (Call c k)
| co_try {A X} (body : prog X) handler (k : X -> prog A) :
    calls_only S body -> (forall e, calls_only S (handler e)) ->
    (forall x, calls_only S (k x)) -> calls_only S (TryExcept body handler k)
| co_with {A X} cm (body : prog X) (k : X -> prog A) :
    calls_only S body -> (forall x, calls_only S (k x)) -> calls_only S (With cm body k).

(** The call of an event satisfies [S]. *)
Definition ev_satisfies (S : forall X, call X -> Prop) (ev : event) : Prop :=
  match ev with
  | Ev c _ => S _ c
  | _ => True
  end.

Definition is_write {X} (c : call X) : Prop :=
  match c with
  | UrlRetrieve _ _ => True
  | _ => False
  end.
Definition not_write (X : Type) (c : call X) : Prop := ~ is_write c.

(** ** The shape of a completed training step *)

(** What the libraries returned during one step. *)
Record step_answers : Type := StepAnswers {
  a_start : spec_float;      (* time.time() before the step; unused in the derivative notebook *)
  a_output : val;            (* model(train_x) *)
  a_mll : val;               (* mll(output, train_y) *)
  a_loss : spec_float;       (* loss.item() *)
  a_hyper : spec_float;      (* the kernel hyperparameter printed *)
  a_noise : spec_float;      (* model.likelihood.noise.item() *)
  a_now : spec_float }.      (* time.time() after the step *)

Module KeOpsTrace.
Import KeOpsData KeOps.

Definition diagnostic (i : Z) (a : step_answers) : line :=
Format iter_fmt [ArgInt (i + 1); ArgInt 50; ArgFloat (a_loss a);
                 ArgFloat (a_hyper a); ArgFloat (a_noise a)].

Definition step_trace (ds : dataset) (model covar_module optimizer mll : val)
  (i : Z) (a : step_answers) : list event :=
[Ev TimeTime (Ok (a_start a));
 Ev (ZeroGrad optimizer) (Ok tt);
 Ev (Invoke model (train_x ds)) (Ok (a_output a));
 Ev (InvokeMll mll (a_output a) (train_y ds)) (Ok (a_mll a));
 Ev (Backward (Neg (a_mll a))) (Ok tt);
 Ev (Item (Neg (a_mll a)) []) (Ok (a_loss a));
 Ev (Item covar_module ["base_kernel"; "lengthscale"]) (Ok (a_hyper a));
 Ev (Item model ["likelihood"; "noise"]) (Ok (a_noise a));
 Ev (Print (diagnostic i a)) (Ok tt);
 Ev (Step optimizer) (Ok tt);
 Ev TimeTime (Ok (a_now a));
 Ev (Print (Repr (PyFloat.sub (a_now a) (a_start a)))) (Ok tt)].
End KeOpsTrace.

Module DerivTrace.
Import Torch Deriv.

Definition diagnostic (i : Z) (a : step_answers) : line :=
Format iter_fmt [ArgInt (i + 1); ArgInt 50; ArgFloat (a_loss a);
                 ArgFloat (a_hyper a); ArgFloat (a_noise a)].

Definition step_trace (train_x train_y : tensor) (model covar_module optimizer mll : val)
  (i : Z) (a : step_answers) : list event :=
[Ev (ZeroGrad optimizer) (Ok tt);
 Ev (Invoke model train_x) (Ok (a_output a));
 Ev (InvokeMll mll (a_output a) train_y) (Ok (a_mll a));
 Ev (Backward (Neg (a_mll a))) (Ok tt);
 Ev (Item (Neg (a_mll a)) []) (Ok (a_loss a));
 Ev (Item covar_module ["base_kernel"; "offset"]) (Ok (a_hyper a));
 Ev (Item model ["likelihood"; "noise"]) (Ok (a_noise a));
 Ev (Print (diagnostic i a)) (Ok tt);
 Ev (Step optimizer) (Ok tt)].
End DerivTrace.

(** The traces of the steps [i], [i + 1], ... with the given answers. *)
Fixpoint steps_from (step : Z -> step_answers -> list event) (i : Z)
    (answers : list step_answers) : list event :=
  match answers with
  | [] => []
  | a :: rest => step i a ++ steps_from step (i + 1) rest
  end.

(** The diagnostic lines of the steps [i], [i + 1], ... *)
Fixpoint diagnostics_from (diagnostic : Z -> step_answers -> line) (i : Z)
    (answers : list step_answers) : list line :=
  match answers with
  | [] => []
  | a :: rest => diagnostic i a :: diagnostics_from diagnostic (i + 1) rest
  end.

(** ** The cells of the two notebooks *)

Inductive notebook_cell : forall {A}, prog A -> Prop :=
| keops_imports : notebook_cell KeOps.imports_cell
| keops_download : notebook_cell KeOps.download_cell
| keops_prepare data : notebook_cell (KeOps.prepare_cell data)
| keops_model ds : notebook_cell (KeOps.model_cell ds)
| keops_training ds likelihood model : notebook_cell (KeOps.training_cell ds likelihood model)
| keops_eval ds likelihood model : notebook_cell (KeOps.eval_cell ds likelihood model)
| keops_rmse ds observed_pred : notebook_cell (KeOps.rmse_cell ds observed_pred)
| deriv_imports : notebook_cell Deriv.imports_cell
| deriv_data : notebook_cell Deriv.data_cell
| deriv_model train_x train_y : notebook_cell (Deriv.model_cell train_x train_y)
| deriv_training train_x train_y likelihood model :
    notebook_cell (Deriv.training_cell train_x train_y likelihood model)
| deriv_eval train_x train_y likelihood model :
    notebook_cell (Deriv.eval_cell train_x train_y likelihood model)
(* the methods the library calls back *)
| keops_forward self x : notebook_cell (KeOps.forward self x)
| deriv_forward self x : notebook_cell (Deriv.forward self x).


(** Small inputs used to exercise the statements about runs. *)
Definition toy_dataset : KeOpsData.dataset :=
  KeOpsData.Dataset (Torch.Tensor [0%nat; 2%nat] []) (Torch.Tensor [0%nat] [])
                    (Torch.Tensor [0%nat; 2%nat] []) (Torch.Tensor [0%nat] []).
Definition toy_model : instance :=
  MkInstance (Handle 1) (<["covar_module" := Handle 3]> (<["mean_module" := Handle 2]> ∅)).
Definition toy_likelihood : val := Handle 4.

(** The model and the likelihood that the model cell of the derivative
    notebook builds when the library hands out the handles 1, 2, ... *)
Definition toy_derivative_model : instance :=
  MkInstance (Handle 2)
    (<["covar_module" := Handle 5]>
       (<["base_kernel" := Handle 4]> (<["mean_module" := Handle 3]> ∅))).

(** ** Files *)

(** A network on which every download fails. *)
Definition failing_net : string -> res matfile := fun _ => Err URLError.

(** Libraries as in [calm], with a predictive mean that fits the two test
    rows of the sample table. *)
Definition sample_lib : oracle positive :=
  calm_with (Torch.vector [Some 0%R; Some 0%R]).

(** Started on the files [fs], a program downloads nothing and ends on the
    files [fs]. *)
Definition leaves_files {L A} (net : string -> res matfile) (lib : oracle L)
    (fs : gmap string matfile) (p : prog A) : Prop :=
  forall l,
    (world (run (os_oracle net lib) p (fs, l))).1 = fs /\
    omap ev_write (trace (run (os_oracle net lib) p (fs, l))) = [].

(** ** Further observations of traces *)

(** The calls of one panel of the figure of the derivative notebook. *)
Definition panel_trace (ax : val) (train_x y m lo up : Torch.tensor)
    (observed title : string) : list event :=
  [Ev (AxPlot ax train_x y "k*") (Ok tt);
   Ev (AxPlot ax Deriv.test_x m "b") (Ok tt);
   Ev (AxFillBetween ax Deriv.test_x lo up lit_0_5) (Ok tt);
   Ev (AxLegend ax [observed; "Mean"; "Confidence"]) (Ok tt);
   Ev (AxSetTitle ax title) (Ok tt)].

(** What an event does to the optimisation: the parameters are read, the
    optimizer is created, gradients are cleared, computed, applied. *)
Inductive optim_call : Type :=
| GetParameters (model params : val)
| MakeAdam (params : val) (lr : spec_float) (optimizer : val)
| DoZeroGrad (optimizer : val)
| DoBackward (loss : val)
| DoStep (optimizer : val).

Definition ev_optim (ev : event) : option optim_call :=
  match ev with
  | Ev c r =>
      match c in call X return res X -> option optim_call with
      | Parameters m =>
          fun r => match r with Ok p => Some (GetParameters m p) | Err _ => None end
      | New (Adam params lr) =>
          fun r => match r with Ok o => Some (MakeAdam params lr o) | Err _ => None end
      | ZeroGrad o => fun _ => Some (DoZeroGrad o)
      | Backward loss => fun _ => Some (DoBackward loss)
      | Step o => fun _ => Some (DoStep o)
      | _ => fun _ => None
      end r
  | _ => None
  end.

(** The optimizer calls of one training step. *)
Definition step_optim (optimizer : val) (a : step_answers) : list optim_call :=
  [DoZeroGrad optimizer; DoBackward (Neg (a_mll a)); DoStep optimizer].

(** Calls that are not [train()] or [eval()]. *)
Definition not_mode_call (X : Type) (c : call X) : Prop :=
  match c with
  | Train _ | Eval _ => False
  | _ => True
  end.

(** Calls that are not [eval()]. *)
Definition not_eval_call (X : Type) (c : call X) : Prop :=
  match c with
  | Eval _ => False
  | _ => True
  end.

(** Calls that take no part in the optimisation. *)
Definition not_optim_call (X : Type) (c : call X) : Prop :=
  match c with
  | Parameters _ | New (Adam _ _) | ZeroGrad _ | Backward _ | Step _ => False
  | _ => True
  end.

(** A program in two phases: calls that satisfy [S1], and from some point on
    calls that satisfy [S2]. *)
Inductive two_phase (S1 S2 : forall X, call X -> Prop) : forall {A}, prog A -> Prop :=
| tp_second {A} (p : prog A) : calls_only S2 p -> two_phase S1 S2 p
| tp_call {A X} (c : call X) (k : X -> prog A) :
    S1 X c -> (forall x, two_phase S1 S2 (k x)) -> two_phase S1 S2 (Call c k)
| tp_try {A X} (body : prog X) handler (k : X -> prog A) :
    calls_only S1 body -> (forall e, calls_only S1 (handler e)) ->
    (forall x, two_phase S1 S2 (k x)) -> two_phase S1 S2 (TryExcept body handler k)
| tp_with {A X} cm (body : prog X) (k : X -> prog A) :
    calls_only S1 body -> (forall x, two_phase S1 S2 (k x)) ->
    two_phase S1 S2 (With cm body k).

(** At every call that takes part in the optimisation, the model and the
    likelihood are in training mode. *)
Definition optimised_in_train_mode (model likelihood : val)
    (pre : list event) (ev : event) : Prop :=
  forall oc, ev_optim ev = Some oc ->
    last_mode model pre = Some Training /\ last_mode likelihood pre = Some Training.

(** At every call that takes part in the optimisation, no [eval()] has been
    called yet. *)
Definition no_eval_before_optim (pre : list event) (ev : event) : Prop :=
  forall oc, ev_optim ev = Some oc ->
    forall e o, In e pre -> ev_mode e <> Some (o, Evaluation).

(** ** The training data of the derivative notebook, in the reals *)

(** The two expressions stacked into [train_y], on an entry [x] of
    [train_x]: [torch.sin(2*x) + torch.cos(x)] and
    [-torch.sin(x) + 2*torch.cos(2*x)]. *)
Definition value_entry (x : Torch.fnum) : Torch.fnum :=
  Torch.fadd (Torch.fsin (Torch.fmul (Some 2%R) x)) (Torch.fcos x).
Definition slope_entry (x : Torch.fnum) : Torch.fnum :=
  Torch.fadd (Torch.fneg (Torch.fsin x))
             (Torch.fmul (Some 2%R) (Torch.fcos (Torch.fmul (Some 2%R) x))).

(** The same two expressions as functions on the reals. *)
Definition observed_value (x : R) : R := (sin (2 * x) + cos x)%R.
Definition observed_slope (x : R) : R := (- sin x + 2 * cos (2 * x))%R.

(** ** The disk, as the notebooks use it *)

(** The calls of the download cell that concern the disk or announce a
    download, with what they returned. *)
Inductive disk_call : Type :=
| Checked (path : string) (present : res bool)      (* os.path.isfile(path) *)
| Announced (ln : line) (r : res unit)              (* print(ln) *)
| Downloaded (url path : string) (r : res unit)     (* urlretrieve(url, path) *)
| Loaded (path : string) (r : res matfile).         (* loadmat(path) *)

Definition ev_disk (ev : event) : option disk_call :=
  match ev with
  | Ev c r =>
      match c in call X return res X -> option disk_call with
      | IsFile p => fun r => Some (Checked p r)
      | Print ln => fun r => Some (Announced ln r)
      | UrlRetrieve u p => fun r => Some (Downloaded u p r)
      | LoadMat p => fun r => Some (Loaded p r)
      | _ => fun _ => None
      end r
  | _ => None
  end.




(** The message of the download cell. *)
Definition downloading : line := Text "Downloading '3droad' UCI dataset...".

(** ** The calls of a training step *)

(** What an event of a training step does: gradients are cleared, the model
    is called, the criterion is called, the loss is backpropagated, the
    optimizer steps. *)
Inductive step_call : Type :=
| SZeroGrad (optimizer : val)
| SForward (model : val) (x : Torch.tensor) (output : val)   (* output = model(x) *)
| SLoss (mll output : val) (y : Torch.tensor) (m : val)      (* m = mll(output, y) *)
| SBackward (loss : val)
| SStep (optimizer : val).

Definition ev_step (ev : event) : option step_call :=
  match ev with
  | Ev c r =>
      match c in call X return res X -> option step_call with
      | ZeroGrad o => fun _ => Some (SZeroGrad o)
      | Invoke m x =>
          fun r => match r with Ok out => Some (SForward m x out) | Err _ => None end
      | InvokeMll mll out y =>
          fun r => match r with Ok m => Some (SLoss mll out y m) | Err _ => None end
      | Backward loss => fun _ => Some (SBackward loss)
      | Step o => fun _ => Some (SStep o)
      | _ => fun _ => None
      end r
  | _ => None
  end.

(** The calls of one completed training step: [output = model(train_x)],
    [m = mll(output, train_y)], and [backward()] on [-m]. *)
Definition step_calls (model : val) (train_x train_y : Torch.tensor) (optimizer mll : val)
    (a : step_answers) : list step_call :=
  [SZeroGrad optimizer;
   SForward model train_x (a_output a);
   SLoss mll (a_output a) train_y (a_mll a);
   SBackward (Neg (a_mll a));
   SStep optimizer].

(** * Part II: properties *)

(** ** Rounding and truncation of binary64 products *)

Section PyFloatFacts.

Lemma iter_pos_nat {A} (f : A -> A) p x :
  SpecFloat.iter_pos f p x = Nat.iter (Pos.to_nat p) f x.
Proof.
  revert x; induction p as [p IH|p IH|]; intros x; cbn [SpecFloat.iter_pos].
  - rewrite !IH, <- Nat.iter_succ_r, <- Nat.iter_add. f_equal. lia.
  - rewrite !IH, <- Nat.iter_add. f_equal. lia.
  - reflexivity.
Qed.

Lemma shr_1_m mrs : 0 <= shr_m mrs -> shr_m (shr_1 mrs) = shr_m mrs / 2.
Proof.
  destruct mrs as [m r s]; cbn [shr_m shr_1]. intros Hm.
  destruct m as [|p|p]; [reflexivity| |lia].
  destruct p as [p|p|]; cbn [shr_m].
  - rewrite Pos2Z.inj_xI. apply Z.div_unique with 1; lia.
  - rewrite Pos2Z.inj_xO. apply Z.div_unique with 0; lia.
  - reflexivity.
Qed.

Lemma iter_shr_1_m n mrs :
  0 <= shr_m mrs -> shr_m (Nat.iter n shr_1 mrs) = shr_m mrs / 2 ^ Z.of_nat n.
Proof.
  intros Hm. induction n as [|n IH].
  - cbn. now rewrite Z.div_1_r.
  - rewrite Nat.iter_succ, shr_1_m.
    + rewrite IH, Nat2Z.inj_succ, Z.pow_succ_r by lia.
      rewrite Z.div_div by lia. f_equal. lia.
    + rewrite IH. apply Z.div_pos; lia.
Qed.

Lemma shr_spec mrs e n :
  0 <= shr_m mrs ->
  shr_m (fst (shr mrs e n)) = shr_m mrs / 2 ^ Z.max 0 n /\
  snd (shr mrs e n) = e + Z.max 0 n.
Proof.
  intros Hm. destruct n as [|p|p]; cbn [shr fst snd].
  - rewrite Z.div_1_r. lia.
  - rewrite iter_pos_nat, iter_shr_1_m by assumption.
    rewrite positive_nat_Z. split; [reflexivity|lia].
  - replace (Z.max 0 (Z.neg p)) with 0 by lia. rewrite Z.div_1_r. lia.
Qed.

Lemma shr_m_of_loc m l : shr_m (shr_record_of_loc m l) = m.
Proof. destruct l as [|[]]; reflexivity. Qed.

Lemma round_nearest_even_bounds m l :
  m <= round_nearest_even m l <= m + 1.
Proof. destruct l as [|[]]; cbn; try lia. destruct (Z.even m); lia. Qed.

Lemma digits2_pos_bounds p :
  2 ^ (Z.pos (digits2_pos p) - 1) <= Z.pos p < 2 ^ Z.pos (digits2_pos p).
Proof.
  induction p as [p IH|p IH|]; cbn [digits2_pos].
  - rewrite Pos2Z.inj_succ. set (k := Z.pos (digits2_pos p)) in *.
    replace (Z.succ k - 1) with (Z.succ (k - 1)) by lia.
    rewrite !Z.pow_succ_r by lia. lia.
  - rewrite Pos2Z.inj_succ. set (k := Z.pos (digits2_pos p)) in *.
    replace (Z.succ k - 1) with (Z.succ (k - 1)) by lia.
    rewrite !Z.pow_succ_r by lia. lia.
  - cbn. lia.
Qed.

Lemma Zdigits2_unique m d :
  0 < d -> 2 ^ (d - 1) <= m < 2 ^ d -> Zdigits2 m = d.
Proof.
  intros Hd [Hlo Hhi].
  assert (0 < m) by (pose proof (Z.pow_pos_nonneg 2 (d - 1)); lia).
  destruct m as [|p|p]; try lia. cbn [Zdigits2].
  pose proof (digits2_pos_bounds p) as [Hl Hh].
  set (k := Z.pos (digits2_pos p)) in *.
  assert (0 < k) by (subst k; lia).
  destruct (Z.lt_trichotomy k d) as [Hlt|[Heq|Hgt]]; [|assumption|].
  - assert (2 ^ k <= 2 ^ (d - 1)) by (apply Z.pow_le_mono_r; lia). lia.
  - assert (2 ^ d <= 2 ^ (k - 1)) by (apply Z.pow_le_mono_r; lia). lia.
Qed.

Lemma Zdigits2_le m k : 0 <= k -> 0 <= m < 2 ^ k -> Zdigits2 m <= k.
Proof.
  intros Hk [Hm0 Hm]. destruct m as [|p|p]; cbn [Zdigits2]; try lia.
  pose proof (digits2_pos_bounds p) as [Hl _].
  destruct (Z_le_gt_dec (Z.pos (digits2_pos p)) k) as [|Hgt]; [assumption|].
  assert (2 ^ k <= 2 ^ (Z.pos (digits2_pos p) - 1)) by (apply Z.pow_le_mono_r; lia). lia.
Qed.

Lemma pos_iter_xO p n : Z.pos (Pos.iter xO p n) = Z.pos p * 2 ^ Z.pos n.
Proof.
  induction n as [|n IH] using Pos.peano_ind.
  - cbn [Pos.iter]. lia.
  - rewrite Pos.iter_succ, Pos2Z.inj_xO, IH, Pos2Z.inj_succ, Z.pow_succ_r by lia. lia.
Qed.

Lemma shr_fexp_spec m e l :
  0 <= m ->
  let n := Z.max 0 (fexp 53 1024 (Zdigits2 m + e) - e) in
  shr_m (fst (shr_fexp 53 1024 m e l)) = m / 2 ^ n /\
  snd (shr_fexp 53 1024 m e l) = e + n.
Proof.
  intros Hm n. unfold shr_fexp.
  pose proof (shr_spec (shr_record_of_loc m l) e
                (fexp 53 1024 (Zdigits2 m + e) - e)) as Hs.
  rewrite shr_m_of_loc in Hs. apply Hs, Hm.
Qed.

(** Truncating a rounded positive number whose exponent is negative: the
    integer part is that of one of the two neighbouring mantissas. *)
Lemma binary_round_aux_to_int m e l n1 :
  0 < m ->
  n1 = Z.max 0 (fexp 53 1024 (Zdigits2 m + e) - e) ->
  e + n1 < 0 -> m / 2 ^ n1 + 1 < 2 ^ (53 - (e + n1)) ->
  exists m', m / 2 ^ n1 <= m' <= m / 2 ^ n1 + 1 /\
    PyFloat.to_int (binary_round_aux 53 1024 false m e l) = Ok (m' / 2 ^ (- (e + n1))).
Proof.
  intros Hm Hn1. set (m1 := m / 2 ^ n1). set (e1 := e + n1). intros He1 Hm1.
  unfold binary_round_aux.
  pose proof (shr_fexp_spec m e l ltac:(lia)) as [Hs1 Hs2].
  destruct (shr_fexp 53 1024 m e l) as [mrs' e'].
  cbn [fst snd] in Hs1, Hs2. rewrite <- Hn1 in Hs1, Hs2.
  fold m1 in Hs1. fold e1 in Hs2. subst e'.
  pose proof (round_nearest_even_bounds (shr_m mrs') (loc_of_shr_record mrs')) as Hr.
  set (m' := round_nearest_even (shr_m mrs') (loc_of_shr_record mrs')) in *.
  rewrite Hs1 in Hr.
  assert (0 <= m1) by (apply Z.div_pos; [lia|apply Z.pow_pos_nonneg; lia]).
  pose proof (shr_fexp_spec m' e1 loc_Exact ltac:(lia)) as [Ht1 Ht2].
  destruct (shr_fexp 53 1024 m' e1 loc_Exact) as [mrs'' e''].
  cbn [fst snd] in Ht1, Ht2.
  set (n2 := Z.max 0 (fexp 53 1024 (Zdigits2 m' + e1) - e1)) in *.
  assert (Hn2 : 0 <= n2 <= - e1).
  { subst n2. unfold fexp, emin.
    pose proof (Zdigits2_le m' (53 - e1) ltac:(lia) ltac:(lia)). lia. }
  exists m'. split; [assumption|].
  assert (Hdiv : shr_m mrs'' / 2 ^ (- e'') = m' / 2 ^ (- e1)).
  { rewrite Ht1, Ht2, Z.div_div by (try apply Z.pow_pos_nonneg; lia).
    rewrite <- Z.pow_add_r by lia. do 2 f_equal. lia. }
  assert (0 <= shr_m mrs'')
    by (rewrite Ht1; apply Z.div_pos; [lia|apply Z.pow_pos_nonneg; lia]).
  destruct (shr_m mrs'') as [|p|p] eqn:Hp; try lia.
  - cbn [PyFloat.to_int]. rewrite <- Hdiv. rewrite Z.div_0_l; [reflexivity|].
    apply Z.pow_nonzero; lia.
  - replace (e'' <=? 1024 - 53) with true by (symmetry; apply Z.leb_le; lia).
    cbn [PyFloat.to_int cond_Zopp]. rewrite <- Hdiv.
    destruct (Z.leb_spec 0 e'') as [Hge|Hlt]; [|reflexivity].
    assert (He0 : e'' = 0) by lia. rewrite He0. change (- 0) with 0.
    rewrite Z.pow_0_r, Z.div_1_r. f_equal. lia.
Qed.

Lemma lit_0_8_eq : PyFloat.lit_0_8 = S754_finite false 7205759403792794 (-53).
Proof. vm_compute. reflexivity. Qed.

Lemma shr_fexp_canonical p e l :
  Z.pos (digits2_pos p) = 53 -> -1074 <= e ->
  shr_fexp 53 1024 (Z.pos p) e l = (shr_record_of_loc (Z.pos p) l, e).
Proof.
  intros Hd He. unfold shr_fexp. cbn [Zdigits2]. rewrite Hd.
  unfold fexp, emin.
  replace (Z.max (53 + e - 53) (3 - 1024 - 53) - e) with 0 by lia.
  reflexivity.
Qed.

Lemma binary_round_aux_canonical p e :
  Z.pos (digits2_pos p) = 53 -> -1074 <= e <= 971 ->
  binary_round_aux 53 1024 false (Z.pos p) e loc_Exact = S754_finite false p e.
Proof.
  intros Hd He. unfold binary_round_aux.
  rewrite shr_fexp_canonical by lia.
  cbn [shr_record_of_loc shr_m loc_of_shr_record round_nearest_even].
  rewrite shr_fexp_canonical by lia. cbn [shr_record_of_loc shr_m].
  replace (e <=? 1024 - 53) with true; [reflexivity|].
  symmetry. apply Z.leb_le. lia.
Qed.

(** [float(N)] is exact for a positive [N] of at most 53 bits. *)
Lemma of_int_exact N d :
  0 < d <= 53 -> 2 ^ (d - 1) <= N < 2 ^ d ->
  exists m, PyFloat.of_int N = S754_finite false m (d - 53) /\
            Z.pos m = N * 2 ^ (53 - d) /\ Z.pos (digits2_pos m) = 53.
Proof.
  intros Hd HN.
  assert (0 < N) by (pose proof (Z.pow_pos_nonneg 2 (d - 1)); lia).
  destruct N as [|p|p]; try lia.
  unfold PyFloat.of_int, binary_normalize, binary_round.
  pose proof (Zdigits2_unique (Z.pos p) d ltac:(lia) HN) as Hdig. cbn [Zdigits2] in Hdig.
  rewrite Hdig, Z.add_0_r.
  unfold fexp, emin.
  replace (Z.max (d - 53) (3 - 1024 - 53)) with (d - 53) by lia.
  unfold shl_align.
  destruct (d - 53 - 0) as [|k|k] eqn:Hk; try lia.
  - exists p. replace (d - 53) with 0 by lia. replace (53 - d) with 0 by lia.
    rewrite (binary_round_aux_canonical p 0) by lia.
    split; [reflexivity|]. split; lia.
  - exists (Pos.iter xO p k).
    assert (Hv : Z.pos (Pos.iter xO p k) = Z.pos p * 2 ^ (53 - d)).
    { rewrite pos_iter_xO. do 2 f_equal. lia. }
    assert (Hd53 : Z.pos (digits2_pos (Pos.iter xO p k)) = 53).
    { apply (Zdigits2_unique (Z.pos (Pos.iter xO p k)) 53); [lia|].
      rewrite Hv.
      replace 53 with ((d - 1) + (53 - d) + 1) at 1 by lia.
      replace (2 ^ 53) with (2 ^ d * 2 ^ (53 - d))
        by (rewrite <- Z.pow_add_r by lia; f_equal; lia).
      replace (d - 1 + (53 - d) + 1 - 1) with ((d - 1) + (53 - d)) by lia.
      rewrite Z.pow_add_r by lia.
      assert (0 < 2 ^ (53 - d)) by (apply Z.pow_pos_nonneg; lia). nia. }
    rewrite (binary_round_aux_canonical _ (d - 53)) by lia.
    repeat split; assumption.
Qed.

(** [int(0.8 * N)] is the floor of four fifths of [N]: the rounding of the
    literal and of the product never reaches the next integer. *)
Lemma n_train_floor N :
  0 <= N < 2 ^ 49 -> KeOpsData.n_train N = Ok (4 * N / 5).
Proof.
  intros [HN0 HN].
  destruct (Z.eq_dec N 0) as [->|Hnz]; [vm_compute; reflexivity|].
  set (d := Z.log2 N + 1).
  assert (Hd : 2 ^ (d - 1) <= N < 2 ^ d).
  { subst d. replace (Z.log2 N + 1 - 1) with (Z.log2 N) by lia.
    rewrite Z.add_1_r. apply Z.log2_spec. lia. }
  assert (Hd0 : 0 < d) by (subst d; pose proof (Z.log2_nonneg N); lia).
  assert (Hd49 : d <= 49).
  { destruct (Z_le_gt_dec d 49) as [|Hgt]; [assumption|].
    assert (2 ^ 49 <= 2 ^ (d - 1)) by (apply Z.pow_le_mono_r; lia). lia. }
  destruct (of_int_exact N d ltac:(lia) Hd) as (mN & HmN & HvN & _).
  unfold KeOpsData.n_train, PyFloat.mul. rewrite lit_0_8_eq, HmN. cbn [SFmul xorb].
  set (c := 7205759403792794%positive).
  set (K := 2 ^ (53 - d)) in *.
  assert (HK : 0 < K) by (apply Z.pow_pos_nonneg; lia).
  set (m := Z.pos (c * mN)).
  assert (Hm : m = Z.pos c * N * K) by (subst m; rewrite Pos2Z.inj_mul, HvN; ring).
  assert (Hmpos : 0 < m) by (subst m; lia).
  set (D := Zdigits2 m).
  assert (HD : 2 ^ (D - 1) <= m < 2 ^ D).
  { subst D m. cbn [Zdigits2]. apply digits2_pos_bounds. }
  assert (HKd : K * 2 ^ (d - 1) = 2 ^ 52).
  { subst K. rewrite <- Z.pow_add_r by lia. f_equal. lia. }
  (* the product of two 53-bit mantissas has 105 or 106 bits *)
  assert (HD' : 105 <= D <= 106).
  { assert (Hlo : 2 ^ 104 <= m).
    { rewrite Hm. change (2 ^ 104) with (2 ^ 52 * 2 ^ 52). rewrite <- HKd.
      subst c. nia. }
    assert (Hhi : m < 2 ^ 106).
    { rewrite Hm. change (2 ^ 106) with (2 ^ 53 * (2 * 2 ^ 52)). rewrite <- HKd.
      assert (N < 2 * 2 ^ (d - 1)).
      { replace (2 * 2 ^ (d - 1)) with (2 ^ d); [lia|].
        replace d with (Z.succ (d - 1)) at 1 by lia.
        rewrite Z.pow_succ_r by lia. reflexivity. }
      subst c. nia. }
    split.
    - destruct (Z_le_gt_dec 105 D) as [|Hgt]; [assumption|].
      assert (2 ^ D <= 2 ^ 104) by (apply Z.pow_le_mono_r; [lia|]; subst D; lia). lia.
    - destruct (Z_le_gt_dec D 106) as [|Hgt]; [assumption|].
      assert (2 ^ 106 <= 2 ^ (D - 1)) by (apply Z.pow_le_mono_r; lia). lia. }
  destruct (binary_round_aux_to_int m (-53 + (d - 53)) loc_Exact (D - 53) Hmpos)
    as (m' & Hm' & Hres).
  - fold D. unfold fexp, emin. lia.
  - lia.
  - assert (m / 2 ^ (D - 53) < 2 ^ 53).
    { apply Z.div_lt_upper_bound; [apply Z.pow_pos_nonneg; lia|].
      rewrite <- Z.pow_add_r by lia. replace (D - 53 + 53) with D by lia. lia. }
    assert (2 ^ 53 < 2 ^ (53 - (-53 + (d - 53) + (D - 53))))
      by (apply Z.pow_lt_mono_r; lia).
    lia.
  - rewrite Hres. f_equal. clear Hres.
    replace (- (-53 + (d - 53) + (D - 53))) with (159 - d - D) by lia.
    set (A := 2 ^ (D - 53)) in *. set (T := 2 ^ (159 - d - D)).
    assert (HA : 0 < A) by (apply Z.pow_pos_nonneg; lia).
    assert (HT : 0 < T) by (apply Z.pow_pos_nonneg; lia).
    assert (HTA : T * A = 2 ^ 53 * K).
    { subst T A K. rewrite <- !Z.pow_add_r by lia. f_equal. lia. }
    assert (HA53 : A * 2 ^ 53 <= 2 * m).
    { subst A. rewrite <- Z.pow_add_r by lia.
      replace (D - 53 + 53) with (Z.succ (D - 1)) by lia.
      rewrite Z.pow_succ_r by lia. lia. }
    pose proof (Z.mul_div_le m A HA) as Hm1lo.
    pose proof (Z.mul_succ_div_gt m A HA) as Hm1hi.
    set (m1 := m / A) in *.
    set (q := 4 * N / 5).
    pose proof (Z.mul_div_le (4 * N) 5 ltac:(lia)) as Hq1.
    pose proof (Z.mul_succ_div_gt (4 * N) 5 ltac:(lia)) as Hq2.
    fold q in Hq1, Hq2.
    symmetry. apply Z.div_unique with (m' - q * T).
    + left. split.
      * assert (q * T <= m1); [|lia].
        assert (q * T * A <= m1 * A + A - 1); [|nia].
        assert (q * T * A <= m); [|nia].
        rewrite <- Z.mul_assoc, HTA, Hm.
        replace (q * (2 ^ 53 * K)) with (K * (q * 2 ^ 53)) by ring.
        replace (Z.pos c * N * K) with (K * (Z.pos c * N)) by ring.
        apply Z.mul_le_mono_nonneg_l; [lia|].
        change (2 ^ 53) with 9007199254740992. subst c q. lia.
      * assert (m1 + 1 < (q + 1) * T); [|lia].
        destruct (Z_lt_ge_dec (m1 + 1) ((q + 1) * T)) as [|Hge]; [assumption|exfalso].
        assert (H1 : (q + 1) * (T * A) <= (m1 + 1) * A) by nia.
        rewrite HTA in H1.
        assert (H2 : (q + 1) * (2 ^ 53 * K) * 2 ^ 53 <= (2 ^ 53 + 2) * m) by nia.
        rewrite Hm in H2.
        assert (H3 : K * ((q + 1) * 2 ^ 53 * 2 ^ 53) <= K * ((2 ^ 53 + 2) * Z.pos c * N))
          by (etransitivity; [|etransitivity; [exact H2|]]; apply Z.eq_le_incl; ring).
        apply Z.mul_le_mono_pos_l in H3; [|assumption].
        change (2 ^ 53) with 9007199254740992 in H3.
        change (2 ^ 49) with 562949953421312 in HN. subst c q. lia.
    + ring.
Qed.

End PyFloatFacts.

(** ** Fallible pure code *)

Lemma bind_Ok {A B} (a : A) (k : A -> res B) : Ok a ≫= k = k a.
Proof. reflexivity. Qed.

Lemma bind_Err {A B} e (k : A -> res B) : Err e ≫= k = Err e.
Proof. reflexivity. Qed.

(** ** Rows, slices and indices *)

Section TensorFacts.
Import Torch.

Lemma chunks_concat {A} d (rows : list (list A)) :
  Forall (fun r => length r = d) rows ->
  chunks d (length rows) (concat rows) = rows.
Proof.
  induction 1 as [|r rows Hr _ IH]; [reflexivity|].
  cbn [length chunks concat].
  rewrite firstn_app, <- Hr, firstn_all, Nat.sub_diag, firstn_O, app_nil_r.
  rewrite skipn_app, skipn_all, Nat.sub_diag, skipn_O. cbn [app].
  rewrite Hr. f_equal. exact IH.
Qed.

Lemma to_rows_of_rows d rows :
  Forall (fun r => length r = d) rows -> to_rows (of_rows d rows) = Ok (d, rows).
Proof. intros H. unfold to_rows, of_rows; cbn. now rewrite chunks_concat. Qed.

Lemma length_chunks {A} d n (l : list A) : length (chunks d n l) = n.
Proof. revert l; induction n as [|n IH]; intros l; cbn; [|rewrite IH]; reflexivity. Qed.

Lemma clamp_nonneg k len : 0 <= k -> clamp k len = Nat.min (Z.to_nat k) len.
Proof.
  intros Hk. unfold clamp. destruct (Z.ltb_spec k 0); lia.
Qed.

Lemma py_slice_to {A} n (l : list A) :
  0 <= n -> py_slice None (Some n) l = firstn (Z.to_nat n) l.
Proof.
  intros Hn. unfold py_slice; cbn [from_option].
  rewrite clamp_nonneg by assumption. rewrite Nat.sub_0_r, skipn_O.
  destruct (Nat.le_ge_cases (Z.to_nat n) (length l)) as [Hle|Hge].
  - now rewrite Nat.min_l.
  - rewrite Nat.min_r by assumption. now rewrite !firstn_all2 by lia.
Qed.

Lemma py_slice_from {A} n (l : list A) :
  0 <= n -> py_slice (Some n) None l = skipn (Z.to_nat n) l.
Proof.
  intros Hn. unfold py_slice; cbn [from_option].
  rewrite clamp_nonneg by assumption.
  destruct (Nat.le_ge_cases (Z.to_nat n) (length l)) as [Hle|Hge].
  - rewrite Nat.min_l by assumption. apply firstn_all2. rewrite length_skipn. lia.
  - rewrite Nat.min_r by assumption. rewrite Nat.sub_diag, firstn_O.
    symmetry. apply skipn_all2. lia.
Qed.

Lemma py_slice_all {A} (l : list A) : py_slice None None l = l.
Proof. unfold py_slice; cbn. rewrite Nat.sub_0_r. apply firstn_all. Qed.

Lemma py_slice_but_last {A} (l : list A) :
  py_slice None (Some (-1)) l = removelast l.
Proof.
  unfold py_slice; cbn [from_option]. rewrite Nat.sub_0_r, skipn_O.
  rewrite removelast_firstn_len. f_equal.
  unfold clamp. cbn. lia.
Qed.

Lemma py_pos_last d : py_pos (-1) (S d) = Ok d.
Proof.
  unfold py_pos.
  replace (- Z.of_nat (S d) <=? -1) with true by (symmetry; apply Z.leb_le; lia).
  replace (-1 <? Z.of_nat (S d)) with true by (symmetry; apply Z.ltb_lt; lia).
  cbn [andb]. replace (-1 <? 0) with true by reflexivity. f_equal. lia.
Qed.

Lemma py_pos_empty i : py_pos i 0 = Err IndexError.
Proof.
  unfold py_pos.
  destruct ((- Z.of_nat 0 <=? i) && (i <? Z.of_nat 0)) eqn:E; [|reflexivity].
  apply andb_true_iff in E. destruct E as [E1%Z.leb_le E2%Z.ltb_lt]. cbn in *. lia.
Qed.

Lemma nth_last_row {A} d (r : list A) x :
  length r = S d -> nth d r x = List.last r x.
Proof.
  intros Hr. destruct (exists_last (l := r)) as (r' & a & ->).
  { intros ->. discriminate. }
  rewrite length_app in Hr; cbn in Hr.
  rewrite last_last, app_nth2 by lia.
  replace (d - length r')%nat with 0%nat by lia. reflexivity.
Qed.

Lemma length_removelast_seq d : length (removelast (seq 0 (S d))) = d.
Proof. rewrite removelast_firstn_len, length_firstn, length_seq. lia. Qed.

End TensorFacts.

(** ** The train/test split *)

Section KeOpsSplit.
Import Torch KeOpsData.

Lemma getitem2_features d rows start stop :
  Forall (fun r => length r = S d) rows ->
  getitem2 (of_rows (S d) rows) start stop (Slice None (Some (-1)))
  = Ok (of_rows d (map features (py_slice start stop rows))).
Proof.
  intros Hwf. unfold getitem2. rewrite to_rows_of_rows by assumption.
  rewrite bind_Ok. f_equal.
  rewrite py_slice_but_last, length_removelast_seq. f_equal.
  apply map_ext. intros r. apply py_slice_but_last.
Qed.

Lemma Forall_py_slice {A} (P : A -> Prop) start stop (l : list A) :
  Forall P l -> Forall P (py_slice start stop l).
Proof. intros H. unfold py_slice. apply Forall_take, Forall_drop, H. Qed.

Lemma getitem2_target d rows start stop :
  Forall (fun r => length r = S d) rows ->
  getitem2 (of_rows (S d) rows) start stop (Index (-1))
  = Ok (vector (map target (py_slice start stop rows))).
Proof.
  intros Hwf. unfold getitem2. rewrite to_rows_of_rows by assumption.
  rewrite bind_Ok, py_pos_last, bind_Ok. do 2 f_equal.
  apply map_ext_Forall. eapply Forall_impl; [apply Forall_py_slice, Hwf|].
  intros r Hr. cbn beta in *. now apply nth_last_row.
Qed.

Lemma split_rows d rows :
  Forall (fun r => length r = S d) rows ->
  Z.of_nat (length rows) < 2 ^ 49 ->
  let n := Z.to_nat (4 * Z.of_nat (length rows) / 5) in
  split (of_rows (S d) rows)
  = Ok (Dataset (of_rows d (map features (firstn n rows)))
                (vector (map target (firstn n rows)))
                (of_rows d (map features (skipn n rows)))
                (vector (map target (skipn n rows)))).
Proof.
  intros Hwf HN n. unfold split.
  change (shape0 (of_rows (S d) rows)) with (Ok (Z.of_nat (length rows))).
  rewrite bind_Ok, n_train_floor, bind_Ok by lia.
  assert (0 <= 4 * Z.of_nat (length rows) / 5) by (apply Z.div_pos; lia).
  rewrite !getitem2_features, !getitem2_target by assumption.
  repeat (rewrite bind_Ok; cbv beta).
  rewrite py_slice_to, py_slice_from by assumption.
  reflexivity.
Qed.

End KeOpsSplit.

(** ** The normalisation *)

Section KeOpsPrepare.
Import Torch KeOpsData.

Lemma length_features d r : length r = S d -> length (features r) = d.
Proof.
  intros Hr. unfold features. rewrite removelast_firstn_len, length_firstn, Hr.
  cbn [Init.Nat.pred]. lia.
Qed.

Lemma Forall_length_features d rows :
  Forall (fun r => length r = S d) rows ->
  Forall (fun r => length r = d) (map features rows).
Proof.
  intros H. apply Forall_map. eapply Forall_impl; [exact H|].
  intros r Hr. now apply length_features.
Qed.

Lemma feature_stats_rows d X :
  Forall (fun r => length r = d) X ->
  feature_stats (of_rows d X)
  = Ok (Tensor [1%nat; d] (RowForm.col_means d X),
        Tensor [1%nat; d] (RowForm.col_divisors d X)).
Proof.
  intros Hwf. unfold feature_stats, reduce_rows.
  rewrite to_rows_of_rows by assumption.
  repeat (rewrite bind_Ok; cbv beta). do 2 f_equal.
  unfold add_scalar, map_tensor, RowForm.col_divisors; cbn [shape data].
  now rewrite map_map.
Qed.

Lemma concat_singleton {A} (l : list A) : concat [l] = l.
Proof. cbn. apply app_nil_r. Qed.

(** A table against a single row of the same width. *)
Lemma binop_row f d X v :
  Forall (fun r => length r = d) X ->
  binop f (of_rows d X) (Tensor [1%nat; d] v)
  = Ok (of_rows d (map (fun r => zip_with f r v) X)).
Proof.
  intros Hwf. unfold binop, of_rows; cbn [shape data].
  destruct (decide ([length X; d] = [1%nat; d])) as [Heq|Hne].
  - injection Heq as Hlen.
    destruct X as [|r [|? ?]]; try discriminate.
    cbn [map length]. now rewrite !concat_singleton.
  - destruct (length X) as [|[|k]] eqn:Hlen.
    + destruct X; [|discriminate]. cbn. now rewrite decide_True.
    + congruence.
    + rewrite decide_True by reflexivity.
      rewrite <- Hlen, chunks_concat by assumption.
      now rewrite length_map.
Qed.

Lemma Forall_length_zip_with {A B C} (f : A -> B -> C) d X v :
  length v = d ->
  Forall (fun r => length r = d) X ->
  Forall (fun r => length r = d) (map (fun r => zip_with f r v) X).
Proof.
  intros Hv H. apply Forall_map. eapply Forall_impl; [exact H|].
  intros r Hr. cbn beta in *. rewrite length_zip_with. lia.
Qed.

Lemma standardize_rows d X mu sd :
  length mu = d ->
  Forall (fun r => length r = d) X ->
  standardize (of_rows d X) (Tensor [1%nat; d] mu) (Tensor [1%nat; d] sd)
  = Ok (of_rows d (map (RowForm.standardize_row mu sd) X)).
Proof.
  intros Hmu Hwf. unfold standardize.
  rewrite binop_row, bind_Ok by assumption.
  rewrite binop_row by (now apply Forall_length_zip_with).
  now rewrite map_map.
Qed.

Lemma standardize_vector v mu sd :
  standardize (vector v) (scalar mu) (scalar sd)
  = Ok (vector (map (RowForm.standardize_label mu sd) v)).
Proof.
  unfold standardize.
  assert (Hb : forall f (u : list fnum) y,
             binop f (vector u) (scalar y) = Ok (vector (map (fun x => f x y) u))).
  { intros f u y. unfold binop, vector, scalar; cbn [shape data].
    rewrite decide_False by discriminate. now rewrite length_map. }
  rewrite Hb, bind_Ok, Hb. now rewrite map_map.
Qed.

Lemma length_col_means d X : length (RowForm.col_means d X) = d.
Proof. unfold RowForm.col_means. now rewrite length_map, length_seq. Qed.

Lemma length_col_divisors d X : length (RowForm.col_divisors d X) = d.
Proof. unfold RowForm.col_divisors. now rewrite length_map, length_seq. Qed.

(** The cell, row by row. *)
Lemma prepare_rows d rows :
  Forall (fun r => length r = S d) rows ->
  Z.of_nat (length rows) < 2 ^ 49 ->
  let n := Z.to_nat (4 * Z.of_nat (length rows) / 5) in
  let X := map features (firstn n rows) in
  let y := map target (firstn n rows) in
  let mu := RowForm.col_means d X in
  let sd := RowForm.col_divisors d X in
  prepare (of_rows (S d) rows)
  = Ok (Dataset
          (of_rows d (map (RowForm.standardize_row mu sd) X))
          (vector (map (RowForm.standardize_label (mean_list y) (std_list y)) y))
          (of_rows d (map (RowForm.standardize_row mu sd) (map features (skipn n rows))))
          (vector (map (RowForm.standardize_label (mean_list y) (std_list y))
                     (map target (skipn n rows))))).
Proof.
  intros Hwf HN n X y mu sd. unfold prepare.
  rewrite split_rows, bind_Ok by assumption. cbn [train_x train_y test_x test_y].
  fold n. fold X. fold y.
  assert (HX : Forall (fun r => length r = d) X)
    by (apply Forall_length_features, Forall_take, Hwf).
  assert (HT : Forall (fun r => length r = d) (map features (skipn n rows)))
    by (apply Forall_length_features, Forall_drop, Hwf).
  rewrite feature_stats_rows, bind_Ok by assumption. fold mu sd.
  rewrite !standardize_rows by (try assumption; apply length_col_means).
  repeat (rewrite bind_Ok; cbv beta).
  unfold label_stats, reduce_all. cbn [vector data].
  rewrite !standardize_vector. repeat (rewrite bind_Ok; cbv beta).
  reflexivity.
Qed.

End KeOpsPrepare.

(** ** Finite data: the tensor statistics are the real ones *)

Section FiniteData.
Import Torch.
Open Scope R_scope.

Lemma fsum_finite l : fsum (map Some l) = Some (RealStats.sum l).
Proof.
  induction l as [|x l IH]; [reflexivity|].
  cbn [map fsum fold_right] in *. unfold fsum in IH. now rewrite IH.
Qed.

Lemma fdiv_finite x y : y <> 0 -> fdiv (Some x) (Some y) = Some (x / y).
Proof. intros Hy. unfold fdiv. now destruct (Req_dec_T y 0). Qed.

Lemma fdiv_by_zero a : fdiv a (Some 0) = None.
Proof. destruct a; cbn; [|reflexivity]. now destruct (Req_dec_T 0 0). Qed.

Lemma fsqrt_finite x : 0 <= x -> fsqrt (Some x) = Some (sqrt x).
Proof. intros Hx. unfold fsqrt. destruct (Rlt_dec x 0); [lra|reflexivity]. Qed.

Lemma mean_list_finite l :
  l <> [] -> mean_list (map Some l) = Some (RealStats.mean l).
Proof.
  intros Hl. unfold mean_list, of_nat. rewrite fsum_finite, length_map.
  apply fdiv_finite. apply not_0_INR. destruct l; [congruence|discriminate].
Qed.

Lemma sum_squares_nonneg {A} (f : A -> R) (l : list A) :
  0 <= RealStats.sum (map (fun x => f x * f x) l).
Proof.
  unfold RealStats.sum. induction l as [|x l IH]; cbn [map fold_right]; [lra|].
  pose proof (Rle_0_sqr (f x)) as Hs. unfold Rsqr in Hs. lra.
Qed.

Lemma std_list_finite l :
  (2 <= length l)%nat -> std_list (map Some l) = Some (RealStats.std l).
Proof.
  intros Hl. unfold std_list.
  rewrite mean_list_finite by (intros ->; cbn in Hl; lia).
  rewrite map_map. cbn [fsub lift2 fpow2 fmul].
  change (map (fun x => Some ((x - RealStats.mean l) * (x - RealStats.mean l))) l)
    with (map (fun x => Some ((fun x => (x - RealStats.mean l) * (x - RealStats.mean l)) x)) l).
  rewrite <- (map_map (fun x => (x - RealStats.mean l) * (x - RealStats.mean l)) Some).
  rewrite fsum_finite, length_map. unfold of_nat.
  assert (Hn : 0 < INR (length l - 1)) by (apply lt_0_INR; lia).
  rewrite fdiv_finite by lra.
  apply fsqrt_finite. apply Rmult_le_pos.
  - apply (sum_squares_nonneg (fun x => x - RealStats.mean l)).
  - left. now apply Rinv_0_lt_compat.
Qed.

End FiniteData.

(** ** Claims about the data cells *)

Section DataClaims.
Import Torch KeOpsData.

Lemma floor_four_fifths (N : nat) :
  let n := Z.to_nat (4 * Z.of_nat N / 5) in
  (INR n <= 0.8 * INR N < INR n + 1)%R.
Proof.
  intros n.
  assert (Hq : 0 <= 4 * Z.of_nat N / 5) by (apply Z.div_pos; lia).
  pose proof (Z.mul_div_le (4 * Z.of_nat N) 5 ltac:(lia)) as Hlo.
  pose proof (Z.mul_succ_div_gt (4 * Z.of_nat N) 5 ltac:(lia)) as Hhi.
  assert (Hn : INR n = IZR (4 * Z.of_nat N / 5)).
  { subst n. rewrite INR_IZR_INZ, Z2Nat.id by assumption. reflexivity. }
  rewrite Hn, (INR_IZR_INZ N).
  set (q := 4 * Z.of_nat N / 5) in *.
  apply IZR_le in Hlo. apply IZR_lt in Hhi.
  rewrite !mult_IZR in Hlo, Hhi. rewrite succ_IZR in Hhi.
  split; lra.
Qed.

Lemma row_features_target d (r : list fnum) :
  length r = S d -> r = features r ++ [target r].
Proof.
  intros Hr. apply app_removelast_last. intros ->. discriminate.
Qed.

(** C3: the KeOps notebook takes the first [floor(0.8 * N)] rows of the data
    as training set and the remaining rows as test set; the two sets
    partition the rows; the last column is the target and the columns before
    it are the features. *)
Theorem keops_split_partition d (rows : list (list fnum)) :
  Forall (fun r => length r = S d) rows ->
  Z.of_nat (length rows) < 2 ^ 49 ->
  exists (n : nat) (s : dataset),
    n_train (Z.of_nat (length rows)) = Ok (Z.of_nat n) /\
    (INR n <= 0.8 * INR (length rows) < INR n + 1)%R /\
    split (of_rows (S d) rows) = Ok s /\
    train_x s = of_rows d (map features (firstn n rows)) /\
    train_y s = vector (map target (firstn n rows)) /\
    test_x s = of_rows d (map features (skipn n rows)) /\
    test_y s = vector (map target (skipn n rows)) /\
    firstn n rows ++ skipn n rows = rows /\
    length (firstn n rows) = n /\
    forall (i : nat) r, rows !! i = Some r ->
      r = features r ++ [target r] /\
      ((i < n)%nat -> firstn n rows !! i = Some r) /\
      ((n <= i)%nat -> skipn n rows !! (i - n)%nat = Some r).
Proof.
  intros Hwf HN.
  set (n := Z.to_nat (4 * Z.of_nat (length rows) / 5)).
  assert (Hq : 0 <= 4 * Z.of_nat (length rows) / 5) by (apply Z.div_pos; lia).
  assert (Hle : (n <= length rows)%nat).
  { subst n. pose proof (Z.mul_div_le (4 * Z.of_nat (length rows)) 5 ltac:(lia)). lia. }
  exists n, (Dataset (of_rows d (map features (firstn n rows)))
               (vector (map target (firstn n rows)))
               (of_rows d (map features (skipn n rows)))
               (vector (map target (skipn n rows)))).
  split; [|split; [|split; [|repeat split]]].
  - rewrite n_train_floor by lia. subst n. now rewrite Z2Nat.id.
  - apply floor_four_fifths.
  - now apply split_rows.
  - apply firstn_skipn.
  - rewrite length_firstn. lia.
  - apply (row_features_target d). exact (Forall_lookup_1 _ _ _ _ Hwf H).
  - intros Hi. now rewrite lookup_take_lt.
  - intros Hi. rewrite lookup_drop. rewrite <- H. f_equal. lia.
Qed.

Lemma sample_table_wf :
  Forall (fun r : list fnum => length r = 3%nat) (RealStats.inject sample_table).
Proof. repeat constructor. Qed.

Lemma keops_split_partition_witness :
  exists (n : nat) (s : dataset),
    n_train 6 = Ok (Z.of_nat n) /\
    (INR n <= 0.8 * INR 6 < INR n + 1)%R /\
    split (of_rows 3 (RealStats.inject sample_table)) = Ok s /\
    train_x s = of_rows 2 (map features (firstn n (RealStats.inject sample_table))) /\
    train_y s = vector (map target (firstn n (RealStats.inject sample_table))) /\
    test_x s = of_rows 2 (map features (skipn n (RealStats.inject sample_table))) /\
    test_y s = vector (map target (skipn n (RealStats.inject sample_table))) /\
    firstn n (RealStats.inject sample_table) ++ skipn n (RealStats.inject sample_table)
      = RealStats.inject sample_table /\
    length (firstn n (RealStats.inject sample_table)) = n /\
    forall (i : nat) r, RealStats.inject sample_table !! i = Some r ->
      r = features r ++ [target r] /\
      ((i < n)%nat -> firstn n (RealStats.inject sample_table) !! i = Some r) /\
      ((n <= i)%nat -> skipn n (RealStats.inject sample_table) !! (i - n)%nat = Some r).
Proof.
  apply (keops_split_partition 2 (RealStats.inject sample_table)).
  - repeat constructor.
  - reflexivity.
Defined.

End DataClaims.

Section MoreDataClaims.
Import Torch TorchShape KeOpsData.

Lemma binop_same_shape f a b :
  shape a = shape b -> binop f a b = Ok (Tensor (shape a) (zip_with f (data a) (data b))).
Proof. intros H. unfold binop. now rewrite decide_True. Qed.

Lemma stack_last_pair a b :
  shape a = shape b ->
  exists l, stack_last [a; b] = Ok (Tensor (shape a ++ [2%nat]) l).
Proof.
  intros H. unfold stack_last. cbn [forallb].
  rewrite bool_decide_eq_true_2 by reflexivity.
  rewrite bool_decide_eq_true_2 by (now symmetry).
  cbn [andb length]. eexists. reflexivity.
Qed.

Lemma squeeze_middle n k l :
  squeeze 1 (Tensor [n; 1%nat; k] l) = Ok (Tensor [n; k] l).
Proof. reflexivity. Qed.

Lemma derivative_train_y_shape noise :
  shape noise = [DerivData.n; 2%nat] ->
  exists ty, DerivData.train_y noise = Ok ty /\ shape ty = [DerivData.n; 2%nat].
Proof.
  intros Hnoise. unfold DerivData.train_y.
  rewrite !binop_same_shape by reflexivity.
  repeat (rewrite bind_Ok; cbv beta).
  match goal with
  | |- context [stack_last [?a; ?b]] =>
      destruct (stack_last_pair a b eq_refl) as (l & Hl); rewrite Hl
  end.
  rewrite bind_Ok.
  change (shape _ ++ [2%nat]) with [DerivData.n; 1%nat; 2%nat].
  rewrite squeeze_middle, bind_Ok.
  unfold iadd.
  rewrite binop_same_shape by (cbn [shape scale map_tensor]; now rewrite Hnoise).
  rewrite bind_Ok. cbn [shape]. rewrite decide_True by reflexivity.
  eexists. split; reflexivity.
Qed.

(** C4: in both notebooks the feature array and the target array of the
    training set have the same number of rows.  In the KeOps notebook both are
    cut from the same first [n_train] rows, and the normalisation keeps the
    shapes; in the derivative notebook [train_x] is 50 by 1 and [train_y] is
    50 by 2. *)
Theorem training_row_counts :
  (forall d (rows : list (list fnum)),
     Forall (fun r => length r = S d) rows ->
     Z.of_nat (length rows) < 2 ^ 49 ->
     exists (n : nat) (s ds : dataset),
       n_train (Z.of_nat (length rows)) = Ok (Z.of_nat n) /\
       split (of_rows (S d) rows) = Ok s /\
       train_x s = of_rows d (map features (firstn n rows)) /\
       train_y s = vector (map target (firstn n rows)) /\
       shape (train_x s) = [n; d] /\ shape (train_y s) = [n] /\
       prepare (of_rows (S d) rows) = Ok ds /\
       shape (train_x ds) = [n; d] /\ shape (train_y ds) = [n] /\
       shape0 (train_x ds) = shape0 (train_y ds)) /\
  (forall noise,
     shape noise = [DerivData.n; 2%nat] ->
     exists ty,
       DerivData.train_y noise = Ok ty /\
       DerivData.n = 50%nat /\
       shape DerivData.train_x = [50%nat; 1%nat] /\
       shape ty = [50%nat; 2%nat] /\
       shape0 DerivData.train_x = shape0 ty).
Proof.
  split.
  - intros d rows Hwf HN.
    set (n := Z.to_nat (4 * Z.of_nat (length rows) / 5)).
    assert (Hq : 0 <= 4 * Z.of_nat (length rows) / 5) by (apply Z.div_pos; lia).
    assert (Hle : (n <= length rows)%nat).
    { subst n. pose proof (Z.mul_div_le (4 * Z.of_nat (length rows)) 5 ltac:(lia)). lia. }
    assert (Hlen : length (firstn n rows) = n) by (rewrite length_firstn; lia).
    pose proof (split_rows d rows Hwf HN) as Hs. cbv zeta in Hs. fold n in Hs.
    pose proof (prepare_rows d rows Hwf HN) as Hp. cbv zeta in Hp. fold n in Hp.
    exists n. eexists. eexists.
    split; [rewrite n_train_floor by lia; subst n; now rewrite Z2Nat.id|].
    split; [exact Hs|].
    split; [reflexivity|]. split; [reflexivity|].
    split; [cbn [train_x of_rows shape]; now rewrite length_map, Hlen|].
    split; [cbn [train_y vector shape]; now rewrite length_map, Hlen|].
    split; [exact Hp|].
    cbn [train_x train_y of_rows vector shape shape0].
    rewrite !length_map, Hlen. repeat split; reflexivity.
  - intros noise Hnoise.
    destruct (derivative_train_y_shape noise Hnoise) as (ty & Hty & Hshape).
    exists ty. split; [exact Hty|]. split; [reflexivity|].
    split; [reflexivity|]. split; [exact Hshape|].
    unfold shape0. rewrite Hshape. reflexivity.
Qed.

Lemma training_row_counts_witness :
  (exists (n : nat) (s ds : dataset),
     n_train 6 = Ok (Z.of_nat n) /\
     split (of_rows 3 (RealStats.inject sample_table)) = Ok s /\
     shape (train_x s) = [n; 2%nat] /\ shape (train_y s) = [n] /\
     prepare (of_rows 3 (RealStats.inject sample_table)) = Ok ds /\
     shape (train_x ds) = [n; 2%nat] /\ shape (train_y ds) = [n]) /\
  (exists ty,
     DerivData.train_y (Tensor [50%nat; 2%nat] (repeat (Some 0%R) 100)) = Ok ty /\
     shape ty = [50%nat; 2%nat]).
Proof.
  destruct training_row_counts as [Hk Hd]. split.
  - destruct (Hk 2%nat (RealStats.inject sample_table)) as (n & s & ds & H).
    + repeat constructor.
    + reflexivity.
    + exists n, s, ds. tauto.
  - destruct (Hd (Tensor [50%nat; 2%nat] (repeat (Some 0%R) 100))) as (ty & H).
    + reflexivity.
    + exists ty. tauto.
Defined.

End MoreDataClaims.

Section NormalisationClaims.
Import Torch KeOpsData.

Lemma std_list_nonneg l :
  match std_list l with Some s => (0 <= s)%R | None => True end.
Proof.
  unfold std_list. cbv zeta.
  destruct (fdiv _ _) as [x|]; cbn [fsqrt]; [|exact I].
  destruct (Rlt_dec x 0); [exact I|apply sqrt_pos].
Qed.

Lemma divisor_never_zero l :
  match fadd (std_list l) (Some 1e-6%R) with Some v => (0 < v)%R | None => True end.
Proof.
  pose proof (std_list_nonneg l) as H.
  destruct (std_list l) as [s|]; cbn [fadd lift2]; [lra|exact I].
Qed.

Lemma nth_col_divisors d X j :
  (j < d)%nat ->
  nth j (RowForm.col_divisors d X) None = fadd (std_list (column j X)) (Some 1e-6%R).
Proof.
  intros Hj. unfold RowForm.col_divisors.
  rewrite (nth_indep _ None ((fun j => fadd (std_list (column j X)) (Some 1e-6%R)) 0%nat))
    by (rewrite length_map, length_seq; lia).
  rewrite (map_nth (fun j => fadd (std_list (column j X)) (Some 1e-6%R))), seq_nth by lia.
  reflexivity.
Qed.

(** C10, amended: the divisor of the feature normalisation is, column by
    column, the sample standard deviation of the training features plus
    1e-6.  For every table, each of its entries is either a number that is
    strictly positive or not a finite number (as with fewer than two
    training rows): it is never zero, so the normalisation never divides by
    zero, also when a feature column is constant.  The training and the test
    features are both normalised with the mean and the divisor of the
    training features. *)
Theorem feature_divisor_positive d (rows : list (list fnum)) :
  Forall (fun r => length r = S d) rows ->
  Z.of_nat (length rows) < 2 ^ 49 ->
  let n := Z.to_nat (4 * Z.of_nat (length rows) / 5) in
  let X := map features (firstn n rows) in
  let T := map features (skipn n rows) in
  exists s mean std ds,
    split (of_rows (S d) rows) = Ok s /\
    train_x s = of_rows d X /\ test_x s = of_rows d T /\
    feature_stats (train_x s) = Ok (mean, std) /\
    shape std = [1%nat; d] /\ length (data std) = d /\
    (forall j, (j < d)%nat ->
       nth j (data std) None = fadd (std_list (column j X)) (Some 1e-6%R)) /\
    Forall (fun e => match e with Some v => (0 < v)%R | None => True end) (data std) /\
    prepare (of_rows (S d) rows) = Ok ds /\
    standardize (train_x s) mean std = Ok (train_x ds) /\
    standardize (test_x s) mean std = Ok (test_x ds).
Proof.
  intros Hwf HN n X T.
  pose proof (split_rows d rows Hwf HN) as Hs. cbv zeta in Hs. fold n X T in Hs.
  pose proof (prepare_rows d rows Hwf HN) as Hp. cbv zeta in Hp. fold n X T in Hp.
  assert (HX : Forall (fun r => length r = d) X)
    by (apply Forall_length_features, Forall_take, Hwf).
  assert (HT : Forall (fun r => length r = d) T)
    by (apply Forall_length_features, Forall_drop, Hwf).
  eexists. eexists. eexists. eexists.
  split; [exact Hs|]. cbn [train_x test_x].
  split; [reflexivity|]. split; [reflexivity|].
  split; [now apply feature_stats_rows|]. cbn [shape data].
  split; [reflexivity|]. split; [apply length_col_divisors|].
  split; [intros j Hj; now apply nth_col_divisors|].
  split.
  { unfold RowForm.col_divisors. apply Forall_map, Forall_forall. intros j _.
    apply divisor_never_zero. }
  split; [exact Hp|]. cbn [train_x test_x].
  split; apply standardize_rows; (apply length_col_means || assumption).
Qed.

Lemma feature_divisor_positive_witness :
  exists s mean std ds,
    split (of_rows 3 (RealStats.inject sample_table)) = Ok s /\
    feature_stats (train_x s) = Ok (mean, std) /\
    shape std = [1%nat; 2%nat] /\
    Forall (fun e => match e with Some v => (0 < v)%R | None => True end) (data std) /\
    prepare (of_rows 3 (RealStats.inject sample_table)) = Ok ds /\
    standardize (train_x s) mean std = Ok (train_x ds) /\
    standardize (test_x s) mean std = Ok (test_x ds).
Proof.
  destruct (feature_divisor_positive 2 (RealStats.inject sample_table))
    as (s & mean & std & ds & H1 & _ & _ & H2 & H3 & _ & _ & H4 & H5 & H6 & H7).
  - repeat constructor.
  - reflexivity.
  - exists s, mean, std, ds. repeat split; assumption.
Defined.

(** C10 as stated fails on a table with two rows: one row is left for
    training, its sample standard deviation is nan, and so is the divisor. *)
Lemma feature_divisor_nan_on_two_rows :
  exists s mean,
    split (of_rows 2 (RealStats.inject [[1; 2]; [3; 4]]%R)) = Ok s /\
    shape (train_x s) = [1%nat; 1%nat] /\
    feature_stats (train_x s) = Ok (mean, Tensor [1%nat; 1%nat] [None]).
Proof.
  eexists. eexists.
  rewrite split_rows by (repeat constructor || reflexivity).
  split; [reflexivity|]. split; [reflexivity|].
  cbn [train_x].
  change (Z.to_nat (4 * Z.of_nat (length (RealStats.inject [[1; 2]; [3; 4]]%R)) / 5))
    with 1%nat.
  cbn [RealStats.inject map firstn].
  rewrite feature_stats_rows by (repeat constructor).
  do 2 f_equal.
  unfold RowForm.col_divisors. cbn [seq map column nth features removelast length].
  unfold std_list. cbn [length Nat.sub of_nat INR].
  rewrite fdiv_by_zero. reflexivity.
Qed.

(** The squared differences, point by point. *)
Lemma zip_with_nth {A B C} (f : A -> B -> C) (da : A) (db : B) l k :
  length l = length k ->
  zip_with f l k = map (fun i => f (nth i l da) (nth i k db)) (seq 0 (length k)).
Proof.
  revert k. induction l as [|x l IH]; intros [|y k] Hlen; try discriminate; [reflexivity|].
  cbn [zip_with length seq map nth]. f_equal.
  rewrite <- seq_shift, map_map. apply IH. now injection Hlen.
Qed.

Lemma rmse_vectors pred target :
  length pred = length target ->
  rmse (vector pred) (vector target) = Ok (scalar (rmse_spec pred target)).
Proof.
  intros Hlen. unfold rmse.
  rewrite binop_same_shape by (cbn [vector shape]; now rewrite Hlen).
  rewrite bind_Ok. unfold reduce_all, map_tensor, scalar; cbn [shape data map].
  do 3 f_equal. unfold rmse_spec, mean_list. cbv zeta.
  rewrite (zip_with_nth fsub None None) by assumption.
  rewrite !map_map, length_map, length_seq. reflexivity.
Qed.

End NormalisationClaims.

(** ** Runs of programs *)

Section RunFacts.
Context {W : Type} (o : oracle W).

Lemma run_call {A X} (c : call X) (k : X -> prog A) w :
  run o (Call c k) w
  = match o _ c w with
    | (Ok x, w') =>
        (outcome (run o (k x) w'), Ev c (Ok x) :: trace (run o (k x) w'),
         world (run o (k x) w'))
    | (Err e, w') => (Err e, [Ev c (Err e)], w')
    end.
Proof.
  cbn [run]. destruct (o X c w) as [[x|e] w']; [|reflexivity].
  now destruct (run o (k x) w') as [[r tr] w''].
Qed.

Lemma run_with {A X} cm (body : prog X) (k : X -> prog A) w :
  run o (With cm body k) w
  = match outcome (run o body w) with
    | Ok x =>
        let w' := world (run o body w) in
        (outcome (run o (k x) w'),
         Enter cm :: trace (run o body w) ++ Exit cm :: trace (run o (k x) w'),
         world (run o (k x) w'))
    | Err e => (Err e, Enter cm :: trace (run o body w) ++ [Exit cm], world (run o body w))
    end.
Proof.
  cbn [run]. destruct (run o body w) as [[[x|e] tr] w']; [|reflexivity].
  unfold outcome, trace, world; cbn [fst snd].
  now destruct (run o (k x) w') as [[r tr'] w''].
Qed.

Lemma run_bind {A B} (p : prog A) (f : A -> prog B) w :
  run o (bind p f) w
  = match outcome (run o p w) with
    | Ok a =>
        let w' := world (run o p w) in
        (outcome (run o (f a) w'), trace (run o p w) ++ trace (run o (f a) w'),
         world (run o (f a) w'))
    | Err e => (Err e, trace (run o p w), world (run o p w))
    end.
Proof.
  revert B f w. induction p as [A a|A e|A X c k IH|A X body _ handler _ k IH|A X cm body _ k IH];
    intros B f w.
  - cbn [bind run]. unfold outcome, trace, world; cbn [fst snd app].
    now destruct (run o (f a) w) as [[r tr] w'].
  - reflexivity.
  - cbn [bind]. rewrite !run_call. destruct (o X c w) as [[x|e] w']; [|reflexivity].
    rewrite IH. unfold outcome, trace, world; cbn [fst snd].
    now destruct (run o (k x) w') as [[[a|e] tr] w''].
  - cbn [bind run].
    destruct (run o body w) as [[[x|e] tr] w'].
    + rewrite IH. unfold outcome, trace, world; cbn [fst snd].
      destruct (run o (k x) w') as [[[a|e] tr'] w'']; cbn [fst snd].
      * destruct (run o (f a) w'') as [[r tr''] w3]; cbn [fst snd]. now rewrite app_assoc.
      * reflexivity.
    + destruct (run o (handler e) w') as [[[x|e'] tr1] w1]; [|reflexivity].
      rewrite IH. unfold outcome, trace, world; cbn [fst snd].
      destruct (run o (k x) w1) as [[[a|e2] tr'] w'']; cbn [fst snd].
      * destruct (run o (f a) w'') as [[r tr''] w3]; cbn [fst snd].
        now rewrite <- !app_assoc.
      * reflexivity.
  - cbn [bind]. rewrite !run_with.
    destruct (outcome (run o body w)) as [x|e]; [|reflexivity].
    cbv zeta. rewrite IH. unfold outcome, trace, world; cbn [fst snd].
    destruct (run o (k x) (run o body w).2) as [[[a|e] tr'] w'']; cbn [fst snd].
    + destruct (run o (f a) w'') as [[r tr''] w3]; cbn [fst snd].
      rewrite <- app_comm_cons, <- app_assoc, <- app_comm_cons. reflexivity.
    + reflexivity.
Qed.

Lemma run_mbind {A B} (p : prog A) (f : A -> prog B) w :
  run o (p ≫= f) w
  = match outcome (run o p w) with
    | Ok a =>
        let w' := world (run o p w) in
        (outcome (run o (f a) w'), trace (run o p w) ++ trace (run o (f a) w'),
         world (run o (f a) w'))
    | Err e => (Err e, trace (run o p w), world (run o p w))
    end.
Proof. apply run_bind. Qed.

Lemma run_lift {A} (r : res A) w : run o (lift r) w = (r, [], w).
Proof. now destruct r. Qed.

End RunFacts.

(** ** Programs without handlers *)

Section HandlerFree.

Lemma hf_bind {A B} (p : prog A) (f : A -> prog B) :
  handler_free p -> (forall a, handler_free (f a)) -> handler_free (p ≫= f).
Proof.
  intros Hp Hf. change (handler_free (bind p f)).
  induction Hp; cbn [bind]; try constructor; auto.
Qed.

Lemma hf_call_ {X} (c : call X) : handler_free (call_ c).
Proof. constructor. intros x. constructor. Qed.

Lemma hf_with_ {X} cm (body : prog X) : handler_free body -> handler_free (with_ cm body).
Proof. intros H. constructor; [exact H|]. intros x. constructor. Qed.

Lemma hf_lift {A} (r : res A) : handler_free (lift r).
Proof. destruct r; constructor. Qed.

Lemma hf_getattr self name : handler_free (getattr self name).
Proof. unfold getattr. destruct (attrs self !! name); constructor. Qed.

Lemma hf_for_from i n body :
  (forall j, handler_free (body j)) -> handler_free (for_from i n body).
Proof.
  intros Hb. revert i. induction n as [|n IH]; intros i; cbn [for_from].
  - constructor.
  - apply hf_bind; [apply Hb|]. intros _. apply IH.
Qed.

Lemma hf_for_range n body :
  (forall j, handler_free (body j)) -> handler_free (for_range n body).
Proof. apply hf_for_from. Qed.

End HandlerFree.

Ltac handler_free_step :=
  match goal with
  | |- forall _, _ => intros ?
  | x : (_ * _)%type |- _ => destruct x
  | |- handler_free (if ?b then _ else _) => destruct b
  | |- handler_free (_ ≫= _) => apply hf_bind
  | |- handler_free (call_ _) => apply hf_call_
  | |- handler_free (with_ _ _) => apply hf_with_
  | |- handler_free (lift _) => apply hf_lift
  | |- handler_free (getattr _ _) => apply hf_getattr
  | |- handler_free (for_range _ _) => apply hf_for_range
  | |- handler_free (Ret _) => constructor
  | |- handler_free (mret _) => constructor
  end.

Section Propagation.

Lemma notebook_cells_handler_free {A} (cell : prog A) :
  notebook_cell cell -> handler_free cell.
Proof.
  destruct 1;
    unfold KeOps.imports_cell, KeOps.download_cell, KeOps.prepare_cell, KeOps.model_cell,
      KeOps.ExactGPModel, KeOps.training_cell, KeOps.training_step, KeOps.eval_cell,
      KeOps.predict, KeOps.rmse_cell, KeOps.forward,
      Deriv.imports_cell, Deriv.data_cell, Deriv.model_cell, Deriv.GPModelWithDerivatives,
      Deriv.training_cell, Deriv.training_step, Deriv.eval_cell, Deriv.predict,
      Deriv.plot_panel, Deriv.forward;
    repeat handler_free_step.
Qed.

Lemma notebooks_handler_free :
  handler_free KeOps.notebook /\ handler_free Deriv.notebook.
Proof.
  split.
  - unfold KeOps.notebook.
    apply hf_bind; [apply notebook_cells_handler_free, keops_imports|intros _].
    apply hf_bind; [apply notebook_cells_handler_free, keops_download|intros data].
    apply hf_bind; [apply notebook_cells_handler_free, keops_prepare|intros ds].
    apply hf_bind; [apply notebook_cells_handler_free, keops_model|intros [likelihood model]].
    apply hf_bind; [apply notebook_cells_handler_free, keops_training|intros _].
    apply hf_bind; [apply notebook_cells_handler_free, keops_eval|intros observed_pred].
    apply notebook_cells_handler_free, keops_rmse.
  - unfold Deriv.notebook.
    apply hf_bind; [apply notebook_cells_handler_free, deriv_imports|intros _].
    apply hf_bind; [apply notebook_cells_handler_free, deriv_data|intros [train_x train_y]].
    apply hf_bind; [apply notebook_cells_handler_free, deriv_model|intros [likelihood model]].
    apply hf_bind; [apply notebook_cells_handler_free, deriv_training|intros _].
    apply notebook_cells_handler_free, deriv_eval.
Qed.

(** Without handler, the exception of a failed call is the outcome. *)
Lemma handler_free_propagates {A} (p : prog A) :
  handler_free p ->
  forall W (o : oracle W) (w : W),
    Forall (fun ev => forall e, failed ev = Some e -> outcome (run o p w) = Err e)
           (trace (run o p w)).
Proof.
  induction 1 as [A a|A e|A X c k Hk IH|A X cm body k Hb IHb Hk IHk]; intros W o w.
  - constructor.
  - constructor.
  - rewrite run_call. destruct (o X c w) as [[x|e] w'].
    + unfold outcome, trace; cbn [fst snd]. constructor; [discriminate|]. apply IH.
    + unfold outcome, trace; cbn [fst snd]. constructor; [|constructor].
      intros e' He'. cbn in He'. congruence.
  - rewrite run_with. specialize (IHb W o w).
    destruct (outcome (run o body w)) as [x|e] eqn:Hout.
    + unfold outcome at 1, trace at 1; cbn [fst snd].
      constructor; [discriminate|]. apply Forall_app. split.
      * eapply Forall_impl; [exact IHb|]. intros ev Hev e He. cbn beta in *.
        specialize (Hev e He). congruence.
      * constructor; [discriminate|]. apply IHk.
    + unfold outcome at 1, trace at 1; cbn [fst snd].
      constructor; [discriminate|]. apply Forall_app. split.
      * eapply Forall_impl; [exact IHb|]. intros ev Hev e' He'. cbn beta in *.
        specialize (Hev e' He'). congruence.
      * constructor; [discriminate|constructor].
Qed.

(** C9: no cell of the two notebooks (and neither [forward] method) contains
    an exception handler, and so whatever exception a library call raises in
    a cell is the outcome of that cell: it leaves the cell uncaught.  The
    notebooks as wholes have no handler either, so the exception also ends
    the run of the notebook. *)
Theorem library_errors_propagate {A} (cell : prog A) :
  notebook_cell cell ->
  handler_free cell /\
  (forall W (o : oracle W) (w : W),
     Forall (fun ev => forall e, failed ev = Some e -> outcome (run o cell w) = Err e)
            (trace (run o cell w))) /\
  handler_free KeOps.notebook /\ handler_free Deriv.notebook /\
  (forall W (o : oracle W) (w : W),
     Forall (fun ev => forall e, failed ev = Some e -> outcome (run o KeOps.notebook w) = Err e)
            (trace (run o KeOps.notebook w)) /\
     Forall (fun ev => forall e, failed ev = Some e -> outcome (run o Deriv.notebook w) = Err e)
            (trace (run o Deriv.notebook w))).
Proof.
  intros Hcell. pose proof (notebook_cells_handler_free cell Hcell) as Hf.
  destruct notebooks_handler_free as [Hk Hd].
  split; [exact Hf|]. split; [now apply handler_free_propagates|].
  split; [exact Hk|]. split; [exact Hd|].
  intros W o w. split; now apply handler_free_propagates.
Qed.

End Propagation.

(** ** Properties of every event of every run *)

Section Always.

Lemma at_every_app P pre t1 t2 :
  at_every P pre (t1 ++ t2) <-> at_every P pre t1 /\ at_every P (pre ++ t1) t2.
Proof.
  revert pre. induction t1 as [|ev t1 IH]; intros pre; cbn [at_every app].
  - rewrite app_nil_r. tauto.
  - rewrite IH, <- app_assoc. cbn [app]. tauto.
Qed.

Lemma at_every_shift (P1 P2 : list event -> event -> Prop) pre0 pre tr :
  (forall pre ev, P1 pre ev -> P2 (pre0 ++ pre) ev) ->
  at_every P1 pre tr -> at_every P2 (pre0 ++ pre) tr.
Proof.
  intros HP. revert pre. induction tr as [|ev tr IH]; intros pre; cbn [at_every]; [tauto|].
  intros [H1 H2]. split; [now apply HP|]. rewrite <- app_assoc. now apply IH.
Qed.

Lemma at_every_trivial (P : list event -> event -> Prop) pre tr :
  Forall (fun ev => forall pre, P pre ev) tr -> at_every P pre tr.
Proof.
  intros H. revert pre. induction H as [|ev tr Hev _ IH]; intros pre; cbn [at_every]; auto.
Qed.

Lemma aa_ret {A} pre P (a : A) : always_after pre P (Ret a).
Proof. intros W o w. exact I. Qed.

Lemma aa_throw {A} pre P e : always_after pre P (@Throw A e).
Proof. intros W o w. exact I. Qed.

Lemma aa_call {A X} pre P (c : call X) (k : X -> prog A) :
  (forall r, P pre (Ev c r)) ->
  (forall x, always_after (pre ++ [Ev c (Ok x)]) P (k x)) ->
  always_after pre P (Call c k).
Proof.
  intros Hc Hk W o w. rewrite run_call. destruct (o X c w) as [[x|e] w'].
  - unfold trace; cbn [fst snd at_every]. split; [apply Hc|apply Hk].
  - unfold trace; cbn [fst snd at_every]. split; [apply Hc|exact I].
Qed.

Lemma aa_call_bind {A X} pre P (c : call X) (f : X -> prog A) :
  (forall r, P pre (Ev c r)) ->
  (forall x, always_after (pre ++ [Ev c (Ok x)]) P (f x)) ->
  always_after pre P (call_ c ≫= f).
Proof. intros Hc Hf. now apply (aa_call pre P c (fun x => f x)). Qed.

Lemma aa_call_ {X} pre P (c : call X) :
  (forall r, P pre (Ev c r)) -> always_after pre P (call_ c).
Proof. intros Hc. apply aa_call; [exact Hc|]. intros x. apply aa_ret. Qed.

Lemma aa_lift_bind {A B} pre P (r : res A) (f : A -> prog B) :
  (forall a, always_after pre P (f a)) -> always_after pre P (lift r ≫= f).
Proof. intros Hf. destruct r as [a|e]; [apply Hf|apply aa_throw]. Qed.

Lemma aa_getattr_bind {B} pre P self name (f : val -> prog B) :
  (forall v, always_after pre P (f v)) -> always_after pre P (getattr self name ≫= f).
Proof.
  intros Hf. unfold getattr. destruct (attrs self !! name) as [v|]; [apply Hf|apply aa_throw].
Qed.

Lemma aa_shift {A} (P1 P2 : list event -> event -> Prop) pre0 (p : prog A) :
  (forall pre ev, P1 pre ev -> P2 (pre0 ++ pre) ev) ->
  always P1 p -> always_after pre0 P2 p.
Proof.
  intros HP Hp W o w. rewrite <- (app_nil_r pre0).
  apply (at_every_shift P1 P2); [exact HP|apply Hp].
Qed.

Lemma aa_stable {A} P pre (p : prog A) :
  stable P -> always P p -> always_after pre P p.
Proof. intros Hs. apply aa_shift. intros pre' ev. apply Hs. Qed.

Lemma aa_bind {A B} pre P (p : prog A) (f : A -> prog B) :
  stable P ->
  always_after pre P p -> (forall a, always P (f a)) ->
  always_after pre P (p ≫= f).
Proof.
  intros Hs Hp Hf W o w. rewrite run_mbind. specialize (Hp W o w).
  destruct (outcome (run o p w)) as [a|e]; [|exact Hp].
  cbv zeta. unfold trace at 1; cbn [fst snd]. apply at_every_app. split; [exact Hp|].
  rewrite <- (app_nil_r (pre ++ trace (run o p w))).
  apply (at_every_shift P P); [apply Hs|apply Hf].
Qed.

Lemma aa_with_ {X} pre P cm (body : prog X) :
  P pre (Enter cm) ->
  always_after (pre ++ [Enter cm]) P body ->
  (forall past, P past (Exit cm)) ->
  always_after pre P (with_ cm body).
Proof.
  intros Hin Hb Hout W o w. unfold with_. rewrite run_with. specialize (Hb W o w).
  destruct (outcome (run o body w)) as [x|e].
  - cbv zeta. unfold trace at 1; cbn [fst snd run at_every]. split; [exact Hin|].
    apply at_every_app. split; [exact Hb|].
    unfold trace; cbn [fst snd at_every]. split; [apply Hout|exact I].
  - unfold trace at 1; cbn [fst snd at_every]. split; [exact Hin|].
    apply at_every_app. split; [exact Hb|]. cbn [at_every]. split; [apply Hout|exact I].
Qed.

Lemma aa_with_bind {X B} pre P cm (body : prog X) (f : X -> prog B) :
  stable P ->
  P pre (Enter cm) ->
  always_after (pre ++ [Enter cm]) P body ->
  (forall past, P past (Exit cm)) ->
  (forall x, always P (f x)) ->
  always_after pre P (with_ cm body ≫= f).
Proof.
  intros Hs Hin Hb Hout Hf. apply aa_bind; [exact Hs| |exact Hf].
  now apply aa_with_.
Qed.

Lemma aa_for_from P i n body :
  stable P -> (forall j, always P (body j)) -> always P (for_from i n body).
Proof.
  intros Hs Hb. revert i. induction n as [|n IH]; intros i; cbn [for_from].
  - apply aa_ret.
  - apply aa_bind; [exact Hs|apply Hb|]. intros _. apply IH.
Qed.

(** Events of a program whose calls all satisfy [S]. *)
Lemma calls_only_trace S {A} (p : prog A) :
  calls_only S p ->
  forall W (o : oracle W) w, Forall (ev_satisfies S) (trace (run o p w)).
Proof.
  induction 1 as [A a|A e|A X c k Hc Hk IH|A X body handler k Hb IHb Hh IHh Hk IHk
                  |A X cm body k Hb IHb Hk IHk]; intros W o w.
  - constructor.
  - constructor.
  - rewrite run_call. destruct (o X c w) as [[x|e] w']; unfold trace; cbn [fst snd].
    + constructor; [exact Hc|apply IH].
    + constructor; [exact Hc|constructor].
  - cbn [run]. specialize (IHb W o w).
    destruct (run o body w) as [[[x|e] tr] w']; unfold trace in *; cbn [fst snd] in *.
    + specialize (IHk x W o w').
      destruct (run o (k x) w') as [[r tr'] w'']; cbn [fst snd] in *.
      apply Forall_app; split; assumption.
    + specialize (IHh e W o w').
      destruct (run o (handler e) w') as [[[x|e'] tr1] w1]; cbn [fst snd] in *.
      * specialize (IHk x W o w1).
        destruct (run o (k x) w1) as [[r tr'] w'']; cbn [fst snd] in *.
        repeat (apply Forall_app; split); assumption.
      * apply Forall_app; split; assumption.
  - rewrite run_with. specialize (IHb W o w).
    destruct (outcome (run o body w)) as [x|e]; unfold trace at 1; cbn [fst snd].
    + constructor; [exact I|]. apply Forall_app. split; [exact IHb|].
      constructor; [exact I|apply IHk].
    + constructor; [exact I|]. apply Forall_app. split; [exact IHb|].
      constructor; [exact I|constructor].
Qed.

Lemma aa_calls_only S P pre {A} (p : prog A) :
  calls_only S p ->
  (forall past ev, ev_satisfies S ev -> P past ev) ->
  always_after pre P p.
Proof.
  intros Hp HP W o w. apply at_every_trivial.
  eapply Forall_impl; [apply (calls_only_trace S p Hp)|].
  intros ev Hev past. now apply HP.
Qed.

Lemma co_bind S {A B} (p : prog A) (f : A -> prog B) :
  calls_only S p -> (forall a, calls_only S (f a)) -> calls_only S (p ≫= f).
Proof.
  intros Hp Hf. change (calls_only S (bind p f)).
  induction Hp; cbn [bind]; try constructor; auto.
Qed.

Lemma co_call_ S {X} (c : call X) : S X c -> calls_only S (call_ c).
Proof. intros Hc. constructor; [exact Hc|]. intros x. constructor. Qed.

Lemma co_with_ S {X} cm (body : prog X) : calls_only S body -> calls_only S (with_ cm body).
Proof. intros H. constructor; [exact H|]. intros x. constructor. Qed.

Lemma co_lift S {A} (r : res A) : calls_only S (lift r).
Proof. destruct r; constructor. Qed.

Lemma co_getattr S self name : calls_only S (getattr self name).
Proof. unfold getattr. destruct (attrs self !! name); constructor. Qed.

Lemma co_for_from S i n body :
  (forall j, calls_only S (body j)) -> calls_only S (for_from i n body).
Proof.
  intros Hb. revert i. induction n as [|n IH]; intros i; cbn [for_from].
  - constructor.
  - apply co_bind; [apply Hb|]. intros _. apply IH.
Qed.

Lemma co_for_range S n body :
  (forall j, calls_only S (body j)) -> calls_only S (for_range n body).
Proof. apply co_for_from. Qed.

End Always.

Ltac calls_only_step :=
  match goal with
  | |- forall _, _ => intros ?
  | x : (_ * _)%type |- _ => destruct x
  | |- calls_only _ (if ?b then _ else _) => destruct b
  | |- calls_only _ (_ ≫= _) => apply co_bind
  | |- calls_only _ (call_ _) =>
      apply co_call_; first [exact I | let H := fresh in hnf; intros H; exact H]
  | |- calls_only _ (with_ _ _) => apply co_with_
  | |- calls_only _ (lift _) => apply co_lift
  | |- calls_only _ (getattr _ _) => apply co_getattr
  | |- calls_only _ (for_range _ _) => apply co_for_range
  | |- calls_only _ (Ret _) => constructor
  | |- calls_only _ (mret _) => constructor
  end.

Ltac unfold_cells :=
  unfold KeOps.imports_cell, KeOps.download_cell, KeOps.prepare_cell, KeOps.model_cell,
    KeOps.ExactGPModel, KeOps.training_cell, KeOps.training_step, KeOps.eval_cell,
    KeOps.predict, KeOps.rmse_cell, KeOps.forward,
    Deriv.imports_cell, Deriv.data_cell, Deriv.model_cell, Deriv.GPModelWithDerivatives,
    Deriv.training_cell, Deriv.training_step, Deriv.eval_cell, Deriv.predict,
    Deriv.plot_panel, Deriv.forward.

(** ** The loss of the training loops *)

Section Loss.
Import Torch.

Lemma rev_lookup_shift (pre0 pre : list event) (i : nat) ev :
  rev pre !! i = Some ev -> rev (pre0 ++ pre) !! i = Some ev.
Proof. intros H. rewrite rev_app_distr. now apply lookup_app_l_Some. Qed.

Lemma stable_loss_is_neg_mll model mll tx ty : stable (loss_is_neg_mll model mll tx ty).
Proof.
  intros pre0 pre ev H loss Hl. destruct (H loss Hl) as (output & m & H1 & H0 & ->).
  exists output, m. repeat split; now apply rev_lookup_shift.
Qed.

End Loss.

(** One call that is not [backward()]. *)
Ltac skip_call :=
  apply aa_call_bind;
  [ let r := fresh "r" in let l := fresh "l" in let H := fresh "H" in
    intros r l H; cbn in H; discriminate H
  | intros ?; cbn [app] ].

Section LossOfTheLoops.
Import Torch.

Lemma keops_step_loss ds model optimizer mll i :
  always (loss_is_neg_mll (self_id model) mll (KeOpsData.train_x ds) (KeOpsData.train_y ds))
         (KeOps.training_step ds model optimizer mll i).
Proof.
  unfold always, KeOps.training_step.
  do 4 skip_call.
  apply aa_call_bind; [|intros ?; cbn [app]].
  { intros r loss Hl. cbn in Hl. injection Hl as <-.
    eexists _, _. repeat split; reflexivity. }
  skip_call. apply aa_getattr_bind. intros covar_module.
  do 5 skip_call.
  apply aa_call_. intros r l Hl. cbn in Hl. discriminate Hl.
Qed.

Lemma deriv_step_loss train_x train_y model optimizer mll i :
  always (loss_is_neg_mll (self_id model) mll train_x train_y)
         (Deriv.training_step train_x train_y model optimizer mll i).
Proof.
  unfold always, Deriv.training_step.
  do 3 skip_call.
  apply aa_call_bind; [|intros ?; cbn [app]].
  { intros r loss Hl. cbn in Hl. injection Hl as <-.
    eexists _, _. repeat split; reflexivity. }
  skip_call. apply aa_getattr_bind. intros covar_module.
  do 3 skip_call.
  apply aa_call_. intros r l Hl. cbn in Hl. discriminate Hl.
Qed.

Lemma exact_mll_of_loop pre0 likelihood model mll tx ty :
  In (Ev (New (ExactMarginalLogLikelihood likelihood model)) (Ok mll)) pre0 ->
  forall pre ev,
    loss_is_neg_mll model mll tx ty pre ev ->
    loss_is_neg_exact_mll likelihood model tx ty (pre0 ++ pre) ev.
Proof.
  intros Hin pre ev H loss Hl. destruct (H loss Hl) as (output & m & H1 & H0 & ->).
  exists mll, output, m. split; [apply in_or_app; now left|].
  repeat split; now apply rev_lookup_shift.
Qed.


End LossOfTheLoops.

(** ** Predictions are made in evaluation mode, without gradients *)

Section EvalMode.
Import Torch.

Lemma last_mode_rev_app o h1 h2 m :
  last_mode_rev o h1 = Some m -> last_mode_rev o (h1 ++ h2) = Some m.
Proof.
  induction h1 as [|ev h1 IH]; [discriminate|]. cbn [last_mode_rev app].
  destruct (ev_mode ev) as [[o' m']|]; [|exact IH].
  destruct (decide (o' = o)); [trivial|exact IH].
Qed.

Lemma last_mode_shift o pre0 pre m :
  last_mode o pre = Some m -> last_mode o (pre0 ++ pre) = Some m.
Proof. unfold last_mode. rewrite rev_app_distr. apply last_mode_rev_app. Qed.

Lemma no_grad_rev_app h1 h2 :
  no_grad_rev h1 = true -> no_grad_rev (h1 ++ h2) = true.
Proof.
  induction h1 as [|ev h1 IH]; [discriminate|]. cbn [no_grad_rev app].
  destruct ev as [X c r|[]|[]]; trivial.
Qed.

Lemma in_no_grad_shift pre0 pre :
  in_no_grad pre = true -> in_no_grad (pre0 ++ pre) = true.
Proof. unfold in_no_grad. rewrite rev_app_distr. apply no_grad_rev_app. Qed.

Lemma stable_predicted_in_eval_mode : stable predicted_in_eval_mode.
Proof.
  intros pre0 pre ev H likelihood f Hev.
  destruct (H likelihood f Hev) as (Hl & Hg & model & x & Hlast & Hm).
  split; [now apply last_mode_shift|]. split; [now apply in_no_grad_shift|].
  exists model, x. split; [now apply rev_lookup_shift|now apply last_mode_shift].
Qed.

Lemma predicted_by_in_eval_mode model likelihood test_x pre ev :
  predicted_by model likelihood test_x pre ev -> predicted_in_eval_mode pre ev.
Proof.
  intros H o f Hev. destruct (H o f Hev) as (-> & Hlast & Hm & Hl & Hg).
  split; [exact Hl|]. split; [exact Hg|]. now exists model, test_x.
Qed.

End EvalMode.

(** One call that is not the application of a likelihood. *)
Ltac skip_other :=
  apply aa_call_bind;
  [ let r := fresh "r" in let l := fresh "l" in let f := fresh "f" in let H := fresh "H" in
    intros r l f H; cbn in H; discriminate H
  | intros ?; cbn [app] ].

Ltac no_apply := let l := fresh "l" in let f := fresh "f" in let H := fresh "H" in
  intros l f H; cbn in H; discriminate H.

Ltac modes_and_grad :=
  unfold last_mode, in_no_grad; cbn [rev app last_mode_rev ev_mode no_grad_rev];
  repeat case_decide; try reflexivity; try congruence.

Section EvalCells.
Import Torch.

Lemma keops_eval_cell_modes ds likelihood model :
  always (predicted_by (self_id model) likelihood (KeOpsData.test_x ds))
         (KeOps.eval_cell ds likelihood model).
Proof.
  unfold always, KeOps.eval_cell, KeOps.predict.
  do 2 skip_other.
  apply aa_with_; [no_apply| |intros past; no_apply]. cbn [app].
  apply aa_with_; [no_apply| |intros past; no_apply]. cbn [app].
  skip_other.
  apply aa_call_. intros r o f Hev. cbn in Hev. injection Hev as <- <-.
  split; [reflexivity|]. split; [reflexivity|].
  repeat split; modes_and_grad.
Qed.

Lemma deriv_predict_modes pre likelihood model :
  last_mode (self_id model) pre = Some Evaluation ->
  last_mode likelihood pre = Some Evaluation ->
  in_no_grad pre = true ->
  always_after pre (predicted_by (self_id model) likelihood Deriv.test_x)
    (Deriv.predict likelihood model).
Proof.
  intros Hm Hl Hg. unfold Deriv.predict.
  skip_other.
  apply aa_call_bind.
  { intros r o f Hev. cbn in Hev. injection Hev as <- <-.
    split; [reflexivity|]. split; [now rewrite rev_unit|].
    assert (Hs : forall (q : val) b, last_mode q pre = Some b ->
                   last_mode q (pre ++ [Ev (Invoke (self_id model) Deriv.test_x) (Ok x)])
                   = Some b).
    { intros q b Hq. unfold last_mode in *. now rewrite rev_unit. }
    split; [now apply Hs|]. split; [now apply Hs|].
    unfold in_no_grad in *. now rewrite rev_unit. }
  intros predictions. skip_other.
  apply aa_call_bind; [intros r; no_apply|]. intros [lower upper]. apply aa_ret.
Qed.

End EvalCells.

Section EvalModeClaim.
Import Torch.

Lemma stable_predicted_by model likelihood test_x :
  stable (predicted_by model likelihood test_x).
Proof.
  intros pre0 pre ev H o f Hev. destruct (H o f Hev) as (-> & Hlast & Hm & Hl & Hg).
  split; [reflexivity|]. split; [now apply rev_lookup_shift|].
  split; [now apply last_mode_shift|]. split; [now apply last_mode_shift|].
  now apply in_no_grad_shift.
Qed.

Lemma not_apply_predicted_by model likelihood test_x past ev :
  ev_satisfies not_apply ev -> predicted_by model likelihood test_x past ev.
Proof.
  intros Hev o f Ha. destruct ev as [X c r| |]; [|discriminate..].
  destruct c; try discriminate. cbn in Hev. unfold not_apply in Hev. cbn in Hev. tauto.
Qed.

Lemma not_apply_predicted past ev :
  ev_satisfies not_apply ev -> predicted_in_eval_mode past ev.
Proof.
  intros Hev o f Ha. destruct ev as [X c r| |]; [|discriminate..].
  destruct c; try discriminate. cbn in Hev. unfold not_apply in Hev. cbn in Hev. tauto.
Qed.

Lemma deriv_eval_cell_modes train_x train_y likelihood model :
  always (predicted_by (self_id model) likelihood Deriv.test_x)
         (Deriv.eval_cell train_x train_y likelihood model).
Proof.
  unfold always, Deriv.eval_cell.
  do 3 skip_other.
  apply aa_call_bind; [intros r; no_apply|]. intros [f [y1_ax y2_ax]]. cbn [app].
  apply aa_with_bind.
  - apply stable_predicted_by.
  - no_apply.
  - cbn [app]. apply aa_with_; [no_apply| |intros past; no_apply]. cbn [app].
    apply deriv_predict_modes; modes_and_grad.
  - intros past. no_apply.
  - intros [[mean lower] upper].
    apply (aa_calls_only not_apply); [|apply not_apply_predicted_by].
    unfold Deriv.plot_panel. repeat calls_only_step.
Qed.

Lemma always_impl {A} (P1 P2 : list event -> event -> Prop) (p : prog A) :
  (forall pre ev, P1 pre ev -> P2 pre ev) -> always P1 p -> always P2 p.
Proof. intros H. apply (aa_shift P1 P2 []). exact H. Qed.

Lemma other_cells_do_not_predict :
  calls_only not_apply KeOps.imports_cell /\
  calls_only not_apply KeOps.download_cell /\
  (forall data, calls_only not_apply (KeOps.prepare_cell data)) /\
  (forall ds, calls_only not_apply (KeOps.model_cell ds)) /\
  (forall ds likelihood model, calls_only not_apply (KeOps.training_cell ds likelihood model)) /\
  (forall ds observed_pred, calls_only not_apply (KeOps.rmse_cell ds observed_pred)) /\
  calls_only not_apply Deriv.imports_cell /\
  calls_only not_apply Deriv.data_cell /\
  (forall train_x train_y, calls_only not_apply (Deriv.model_cell train_x train_y)) /\
  (forall train_x train_y likelihood model,
     calls_only not_apply (Deriv.training_cell train_x train_y likelihood model)).
Proof.
  repeat split; unfold_cells; repeat calls_only_step.
Qed.


End EvalModeClaim.

(** ** Completed runs *)

Section Completed.
Context {W : Type} (o : oracle W).

Lemma run_call_ok {A X} (c : call X) (k : X -> prog A) w a tr w' :
  run o (Call c k) w = (Ok a, tr, w') ->
  exists x w1 tr1,
    o _ c w = (Ok x, w1) /\ run o (k x) w1 = (Ok a, tr1, w') /\ tr = Ev c (Ok x) :: tr1.
Proof.
  rewrite run_call. destruct (o X c w) as [[x|e] w1]; [|discriminate].
  unfold outcome, trace, world. destruct (run o (k x) w1) as [[r tr1] w2] eqn:Hr.
  cbn [fst snd]. intros [= -> <- ->]. exists x, w1, tr1. repeat split; [exact Hr].
Qed.

Lemma run_call_bind_ok {A X} (c : call X) (f : X -> prog A) w a tr w' :
  run o (call_ c ≫= f) w = (Ok a, tr, w') ->
  exists x w1 tr1,
    o _ c w = (Ok x, w1) /\ run o (f x) w1 = (Ok a, tr1, w') /\ tr = Ev c (Ok x) :: tr1.
Proof. apply (run_call_ok c (fun x => f x)). Qed.

Lemma run_call__ok {X} (c : call X) w a tr w' :
  run o (call_ c) w = (Ok a, tr, w') ->
  o _ c w = (Ok a, w') /\ tr = [Ev c (Ok a)].
Proof.
  intros H. apply run_call_ok in H as (x & w1 & tr1 & Ho & Hr & ->).
  cbn in Hr. injection Hr as -> <- ->. now split.
Qed.

Lemma run_bind_ok {A B} (p : prog A) (f : A -> prog B) w b tr w' :
  run o (p ≫= f) w = (Ok b, tr, w') ->
  exists a tr1 w1 tr2,
    run o p w = (Ok a, tr1, w1) /\ run o (f a) w1 = (Ok b, tr2, w') /\ tr = tr1 ++ tr2.
Proof.
  rewrite run_mbind. unfold outcome, trace, world.
  destruct (run o p w) as [[[a|e] tr1] w1]; cbn [fst snd]; [|discriminate].
  destruct (run o (f a) w1) as [[r tr2] w2] eqn:Hr; cbn [fst snd].
  intros [= -> <- ->]. exists a, tr1, w1, tr2. repeat split; [exact Hr].
Qed.

Lemma run_getattr_bind_ok {A} self name (f : val -> prog A) w a tr w' :
  run o (getattr self name ≫= f) w = (Ok a, tr, w') ->
  exists v, attrs self !! name = Some v /\ run o (f v) w = (Ok a, tr, w').
Proof.
  unfold getattr. destruct (attrs self !! name) as [v|]; [|discriminate].
  intros H. now exists v.
Qed.

Lemma run_for_from_ok (step : Z -> step_answers -> list event) (body : Z -> prog unit) :
  (forall j w tr w', run o (body j) w = (Ok tt, tr, w') -> exists a, tr = step j a) ->
  forall n i w tr w',
    run o (for_from i n body) w = (Ok tt, tr, w') ->
    exists answers, length answers = n /\ tr = steps_from step i answers.
Proof.
  intros Hbody. induction n as [|n IH]; intros i w tr w'; cbn [for_from].
  - intros [= <- <-]. now exists [].
  - intros H. apply run_bind_ok in H as ([] & tr1 & w1 & tr2 & H1 & H2 & ->).
    apply Hbody in H1 as (a & ->). apply IH in H2 as (answers & Hlen & ->).
    exists (a :: answers). cbn [length steps_from]. now rewrite Hlen.
Qed.

End Completed.

Ltac next_call H :=
  apply run_call_bind_ok in H;
  let x := fresh "x" in let w := fresh "w" in let tr := fresh "tr" in
  let Ho := fresh "Ho" in
  destruct H as (x & w & tr & Ho & H & ->).

Section TrainingShape.
Import Torch.

Lemma keops_step_ok {W} (o : oracle W) ds model optimizer mll i w tr w' :
  run o (KeOps.training_step ds model optimizer mll i) w = (Ok tt, tr, w') ->
  exists covar_module a,
    attrs model !! "covar_module" = Some covar_module /\
    tr = KeOpsTrace.step_trace ds (self_id model) covar_module optimizer mll i a.
Proof.
  intros H. unfold KeOps.training_step in H.
  do 6 next_call H.
  apply run_getattr_bind_ok in H as (covar_module & Hattr & H).
  do 5 next_call H.
  apply run_call__ok in H as [_ ->].
  exists covar_module, (StepAnswers x x1 x2 x4 x5 x6 x9).
  split; [exact Hattr|]. unfold KeOpsTrace.step_trace. cbn [a_start a_output a_mll a_loss a_hyper a_noise a_now].
  repeat match goal with u : unit |- _ => destruct u end. reflexivity.
Qed.

End TrainingShape.

Section TrainingLoops.
Import Torch.

Lemma deriv_step_ok {W} (o : oracle W) train_x train_y model optimizer mll i w tr w' :
  run o (Deriv.training_step train_x train_y model optimizer mll i) w = (Ok tt, tr, w') ->
  exists covar_module a,
    attrs model !! "covar_module" = Some covar_module /\
    tr = DerivTrace.step_trace train_x train_y (self_id model) covar_module optimizer mll i a.
Proof.
  intros H. unfold Deriv.training_step in H.
  do 5 next_call H.
  apply run_getattr_bind_ok in H as (covar_module & Hattr & H).
  do 3 next_call H.
  apply run_call__ok in H as [_ ->].
  exists covar_module, (StepAnswers x4 x0 x1 x3 x4 x5 x4).
  split; [exact Hattr|]. unfold DerivTrace.step_trace.
  cbn [a_start a_output a_mll a_loss a_hyper a_noise a_now].
  repeat match goal with u : unit |- _ => destruct u end. reflexivity.
Qed.

Lemma diagnostics_of_steps step diagnostic :
  (forall i a, omap ev_diagnostic (step i a) = [diagnostic i a]) ->
  forall answers i,
    omap ev_diagnostic (steps_from step i answers) = diagnostics_from diagnostic i answers.
Proof.
  intros Hstep. induction answers as [|a answers IH]; intros i; [reflexivity|].
  cbn [steps_from diagnostics_from]. now rewrite omap_app, Hstep, IH.
Qed.

Lemma diagnostics_from_lookup diagnostic answers : forall i (k : nat) a,
  answers !! k = Some a ->
  diagnostics_from diagnostic i answers !! k = Some (diagnostic (i + Z.of_nat k) a).
Proof.
  induction answers as [|a0 answers IH]; intros i k a; [discriminate|].
  destruct k as [|k]; cbn [diagnostics_from]; simpl.
  - intros [= ->]. now rewrite Z.add_0_r.
  - intros H. rewrite (IH (i + 1) k a H). do 2 f_equal. lia.
Qed.

Lemma length_diagnostics_from diagnostic answers i :
  length (diagnostics_from diagnostic i answers) = length answers.
Proof. revert i. induction answers as [|a answers IH]; intros i; cbn; [|rewrite IH]; reflexivity. Qed.

(** C1: both training loops make 50 iterations, a number fixed before the
    loop.  A completed run of a training cell consists of the set-up calls,
    which print nothing, and then of 50 steps; step number [k] (from 0) prints
    exactly one formatted line, with [k + 1], [50], the value of
    [loss.item()] of that step and the two hyperparameter values read in that
    step.  In the derivative notebook nothing else is printed; in the KeOps
    notebook each step also prints the time it took. *)
Theorem training_loops_print_fifty_diagnostics :
  KeOps.training_iter = 50 /\ Deriv.n_iter = 50 /\
  (forall W (o : oracle W) w ds likelihood model tr w',
     run o (KeOps.training_cell ds likelihood model) w = (Ok tt, tr, w') ->
     exists setup covar_module optimizer mll answers,
       let step := KeOpsTrace.step_trace ds (self_id model) covar_module optimizer mll in
       tr = setup ++ steps_from step 0 answers /\
       length answers = 50%nat /\
       omap ev_print setup = [] /\
       (forall i a, omap ev_diagnostic (step i a) = [KeOpsTrace.diagnostic i a]) /\
       (forall i a, omap ev_print (step i a)
                    = [KeOpsTrace.diagnostic i a;
                       Repr (PyFloat.sub (a_now a) (a_start a))]) /\
       omap ev_diagnostic tr = diagnostics_from KeOpsTrace.diagnostic 0 answers /\
       length (omap ev_diagnostic tr) = 50%nat /\
       (forall (k : nat) a, answers !! k = Some a ->
          omap ev_diagnostic tr !! k
          = Some (Format KeOps.iter_fmt
                    [ArgInt (Z.of_nat k + 1); ArgInt 50; ArgFloat (a_loss a);
                     ArgFloat (a_hyper a); ArgFloat (a_noise a)]))) /\
  (forall W (o : oracle W) w train_x train_y likelihood model tr w',
     run o (Deriv.training_cell train_x train_y likelihood model) w = (Ok tt, tr, w') ->
     exists setup covar_module optimizer mll answers,
       let step := DerivTrace.step_trace train_x train_y (self_id model) covar_module
                     optimizer mll in
       tr = setup ++ steps_from step 0 answers /\
       length answers = 50%nat /\
       omap ev_print setup = [] /\
       (forall i a, omap ev_print (step i a) = [DerivTrace.diagnostic i a]) /\
       omap ev_print tr = diagnostics_from DerivTrace.diagnostic 0 answers /\
       length (omap ev_print tr) = 50%nat /\
       (forall (k : nat) a, answers !! k = Some a ->
          omap ev_print tr !! k
          = Some (Format Deriv.iter_fmt
                    [ArgInt (Z.of_nat k + 1); ArgInt 50; ArgFloat (a_loss a);
                     ArgFloat (a_hyper a); ArgFloat (a_noise a)]))).
Proof.
  split; [reflexivity|]. split; [reflexivity|]. split.
  - intros W o w ds likelihood model tr w' H. unfold KeOps.training_cell in H.
    do 6 next_call H.
    unfold for_range in H. change (Z.to_nat KeOps.training_iter) with 50%nat in H.
    destruct (attrs model !! "covar_module") as [covar_module|] eqn:Hattr.
    2:{ cbn [for_from] in H. apply run_bind_ok in H as ([] & tra & wa & trb & H1 & _).
        apply keops_step_ok in H1 as (c & a & Hc & _). congruence. }
    apply (run_for_from_ok o
             (KeOpsTrace.step_trace ds (self_id model) covar_module x2 x3)) in H.
    2:{ intros j wj trj wj' Hj. apply keops_step_ok in Hj as (c & a & Hc & ->).
        exists a. congruence. }
    destruct H as (answers & Hlen & ->).
    exists [Ev (Train (self_id model)) (Ok x); Ev (Train likelihood) (Ok x0);
            Ev (Parameters (self_id model)) (Ok x1);
            Ev (New (Adam x1 lit_0_1)) (Ok x2);
            Ev (New (ExactMarginalLogLikelihood likelihood (self_id model))) (Ok x3);
            Ev (Import "import time") (Ok x4)], covar_module, x2, x3, answers.
    cbv zeta.
    assert (Hd : forall i a,
               omap ev_diagnostic
                 (KeOpsTrace.step_trace ds (self_id model) covar_module x2 x3 i a)
               = [KeOpsTrace.diagnostic i a]) by reflexivity.
    assert (Hall : omap ev_diagnostic
                     ([Ev (Train (self_id model)) (Ok x); Ev (Train likelihood) (Ok x0);
                       Ev (Parameters (self_id model)) (Ok x1);
                       Ev (New (Adam x1 lit_0_1)) (Ok x2);
                       Ev (New (ExactMarginalLogLikelihood likelihood (self_id model))) (Ok x3);
                       Ev (Import "import time") (Ok x4)]
                      ++ steps_from
                           (KeOpsTrace.step_trace ds (self_id model) covar_module x2 x3)
                           0 answers)
                   = diagnostics_from KeOpsTrace.diagnostic 0 answers).
    { rewrite omap_app. cbn [omap list_omap ev_diagnostic app].
      now apply diagnostics_of_steps. }
    cbn [app] in Hall.
    split; [reflexivity|]. split; [exact Hlen|]. split; [reflexivity|].
    split; [exact Hd|]. split; [reflexivity|].
    split; [exact Hall|].
    split; [rewrite Hall, length_diagnostics_from; exact Hlen|].
    intros k a Hk. rewrite Hall.
    now rewrite (diagnostics_from_lookup KeOpsTrace.diagnostic answers 0 k a Hk).
  - intros W o w train_x train_y likelihood model tr w' H.
    unfold Deriv.training_cell in H.
    do 5 next_call H.
    unfold for_range in H. change (Z.to_nat Deriv.n_iter) with 50%nat in H.
    destruct (attrs model !! "covar_module") as [covar_module|] eqn:Hattr.
    2:{ cbn [for_from] in H. apply run_bind_ok in H as ([] & tra & wa & trb & H1 & _).
        apply deriv_step_ok in H1 as (c & a & Hc & _). congruence. }
    apply (run_for_from_ok o
             (DerivTrace.step_trace train_x train_y (self_id model) covar_module x2 x3)) in H.
    2:{ intros j wj trj wj' Hj. apply deriv_step_ok in Hj as (c & a & Hc & ->).
        exists a. congruence. }
    destruct H as (answers & Hlen & ->).
    exists [Ev (Train (self_id model)) (Ok x); Ev (Train likelihood) (Ok x0);
            Ev (Parameters (self_id model)) (Ok x1);
            Ev (New (Adam x1 lit_0_1)) (Ok x2);
            Ev (New (ExactMarginalLogLikelihood likelihood (self_id model))) (Ok x3)],
      covar_module, x2, x3, answers.
    cbv zeta.
    assert (Hd : forall i a,
               omap ev_print
                 (DerivTrace.step_trace train_x train_y (self_id model) covar_module x2 x3 i a)
               = [DerivTrace.diagnostic i a]) by reflexivity.
    assert (Hsteps : forall answers i,
               omap ev_print
                 (steps_from
                    (DerivTrace.step_trace train_x train_y (self_id model) covar_module x2 x3)
                    i answers)
               = diagnostics_from DerivTrace.diagnostic i answers).
    { induction answers0 as [|a rest IH]; intros i; [reflexivity|].
      cbn [steps_from diagnostics_from]. now rewrite omap_app, Hd, IH. }
    assert (Hall : omap ev_print
                     ([Ev (Train (self_id model)) (Ok x); Ev (Train likelihood) (Ok x0);
                       Ev (Parameters (self_id model)) (Ok x1);
                       Ev (New (Adam x1 lit_0_1)) (Ok x2);
                       Ev (New (ExactMarginalLogLikelihood likelihood (self_id model))) (Ok x3)]
                      ++ steps_from
                           (DerivTrace.step_trace train_x train_y (self_id model)
                              covar_module x2 x3)
                           0 answers)
                   = diagnostics_from DerivTrace.diagnostic 0 answers).
    { rewrite omap_app. cbn [omap list_omap ev_print app]. apply Hsteps. }
    cbn [app] in Hall.
    split; [reflexivity|]. split; [exact Hlen|]. split; [reflexivity|].
    split; [exact Hd|]. split; [exact Hall|].
    split; [rewrite Hall, length_diagnostics_from; exact Hlen|].
    intros k a Hk. rewrite Hall.
    now rewrite (diagnostics_from_lookup DerivTrace.diagnostic answers 0 k a Hk).
Qed.

End TrainingLoops.

Lemma training_loops_print_fifty_diagnostics_witness :
  (exists tr w',
     run calm (KeOps.training_cell toy_dataset toy_likelihood toy_model) 10%positive
     = (Ok tt, tr, w') /\
     length (omap ev_diagnostic tr) = 50%nat) /\
  (exists tr w',
     run calm (Deriv.training_cell (Torch.Tensor [0%nat; 1%nat] []) (Torch.Tensor [0%nat; 2%nat] [])
                 toy_likelihood toy_model) 10%positive
     = (Ok tt, tr, w') /\
     length (omap ev_print tr) = 50%nat).
Proof.
  destruct training_loops_print_fifty_diagnostics as (_ & _ & Hk & Hd). split.
  - set (res := run calm (KeOps.training_cell toy_dataset toy_likelihood toy_model) 10%positive).
    assert (Hres : res = (Ok tt, trace res, world res)) by (vm_compute; reflexivity).
    destruct (Hk _ calm _ _ _ _ _ _ Hres) as (setup & cm & opt & mll & answers & H).
    cbv zeta in H. exists (trace res), (world res). split; [exact Hres|]. apply H.
  - set (res := run calm (Deriv.training_cell (Torch.Tensor [0%nat; 1%nat] [])
                            (Torch.Tensor [0%nat; 2%nat] []) toy_likelihood toy_model)
                  10%positive).
    assert (Hres : res = (Ok tt, trace res, world res)) by (vm_compute; reflexivity).
    destruct (Hd _ calm _ _ _ _ _ _ _ Hres) as (setup & cm & opt & mll & answers & H).
    cbv zeta in H. exists (trace res), (world res). split; [exact Hres|]. apply H.
Defined.

(** ** The model of the derivative notebook *)

Section DerivativeModel.
Import Torch.

Lemma forward_of_attrs (self : instance) mean_module covar_module x :
  attrs self !! "mean_module" = Some mean_module ->
  attrs self !! "covar_module" = Some covar_module ->
  Deriv.forward self x
  = (mean_x ← call_ (Invoke mean_module x);
     covar_x ← call_ (Invoke covar_module x);
     call_ (New (MultitaskMultivariateNormal mean_x covar_x))).
Proof.
  intros Hmean Hcovar. unfold Deriv.forward, getattr. now rewrite Hmean, Hcovar.
Qed.

(** C7: a completed run of the model cell of the derivative notebook makes
    exactly these library calls, in this order: it creates a
    [MultitaskGaussianLikelihood] with 2 tasks, creates the model instance and
    initialises it as an [ExactGP] on the training data and that likelihood,
    creates a [ConstantMeanGrad], a [PolynomialKernelGrad] of power 2 and a
    [ScaleKernel] around that kernel.  The model's [mean_module],
    [base_kernel] and [covar_module] are these three objects, and [forward]
    on an input [x] calls the mean module and the covariance module on [x]
    and returns the [MultitaskMultivariateNormal] of the two results. *)
Theorem derivative_model_structure :
  forall W (o : oracle W) w train_x train_y likelihood model tr w',
    run o (Deriv.model_cell train_x train_y) w = (Ok (likelihood, model), tr, w') ->
    exists mean_module base_kernel covar_module,
      tr = [Ev (New (MultitaskGaussianLikelihood 2)) (Ok likelihood);
            Ev (New (Instance "GPModelWithDerivatives")) (Ok (self_id model));
            Ev (ExactGPInit (self_id model) train_x train_y likelihood) (Ok tt);
            Ev (New ConstantMeanGrad) (Ok mean_module);
            Ev (New (PolynomialKernelGrad 2)) (Ok base_kernel);
            Ev (New (ScaleKernel base_kernel)) (Ok covar_module)] /\
      attrs model !! "mean_module" = Some mean_module /\
      attrs model !! "base_kernel" = Some base_kernel /\
      attrs model !! "covar_module" = Some covar_module /\
      forall x,
        Deriv.forward model x
        = (mean_x ← call_ (Invoke mean_module x);
           covar_x ← call_ (Invoke covar_module x);
           call_ (New (MultitaskMultivariateNormal mean_x covar_x))).
Proof.
  intros W o w train_x train_y likelihood model tr w' H.
  unfold Deriv.model_cell in H. next_call H.
  apply run_bind_ok in H as (m & tra & wa & trb & Hm & Hret & ->).
  cbn in Hret. injection Hret as -> -> <- <-.
  unfold Deriv.GPModelWithDerivatives in Hm.
  do 4 next_call Hm.
  apply run_getattr_bind_ok in Hm as (bk & Hbk & Hm).
  cbn [setattr attrs] in Hbk. rewrite lookup_insert_eq in Hbk. injection Hbk as <-.
  next_call Hm. cbn in Hm. injection Hm as <- <- <-.
  exists x1, x2, x3. destruct x0.
  cbn [setattr attrs self_id app].
  set (m := <["covar_module" := x3]> (<["base_kernel" := x2]> (<["mean_module" := x1]> ∅))).
  assert (Hmean : m !! "mean_module" = Some x1)
    by (subst m; now rewrite lookup_insert_ne, lookup_insert_ne, lookup_insert_eq).
  assert (Hbase : m !! "base_kernel" = Some x2)
    by (subst m; now rewrite lookup_insert_ne, lookup_insert_eq).
  assert (Hcovar : m !! "covar_module" = Some x3)
    by (subst m; now rewrite lookup_insert_eq).
  split; [reflexivity|]. split; [exact Hmean|]. split; [exact Hbase|].
  split; [exact Hcovar|].
  intros t. now apply forward_of_attrs.
Qed.

Lemma derivative_model_structure_witness :
  exists mean_module base_kernel covar_module,
    attrs toy_derivative_model !! "mean_module" = Some mean_module /\
    attrs toy_derivative_model !! "base_kernel" = Some base_kernel /\
    attrs toy_derivative_model !! "covar_module" = Some covar_module /\
    forall x,
      Deriv.forward toy_derivative_model x
      = (mean_x ← call_ (Invoke mean_module x);
         covar_x ← call_ (Invoke covar_module x);
         call_ (New (MultitaskMultivariateNormal mean_x covar_x))).
Proof.
  destruct (derivative_model_structure positive calm 1%positive
              (scalar (Some 0%R)) (scalar (Some 1%R)) (Handle 1) toy_derivative_model
              [Ev (New (MultitaskGaussianLikelihood 2)) (Ok (Handle 1));
               Ev (New (Instance "GPModelWithDerivatives")) (Ok (Handle 2));
               Ev (ExactGPInit (Handle 2) (scalar (Some 0%R)) (scalar (Some 1%R)) (Handle 1))
                  (Ok tt);
               Ev (New ConstantMeanGrad) (Ok (Handle 3));
               Ev (New (PolynomialKernelGrad 2)) (Ok (Handle 4));
               Ev (New (ScaleKernel (Handle 4))) (Ok (Handle 5))]
              6%positive)
    as (mean_module & base_kernel & covar_module & _ & H1 & H2 & H3 & H4).
  - vm_compute. reflexivity.
  - exists mean_module, base_kernel, covar_module. repeat split; assumption.
Defined.

End DerivativeModel.

(** ** Files *)

Section Files.
Context {L : Type} (net : string -> res matfile) (lib : oracle L).

Lemma run_call_bind {W A X} (o : oracle W) (c : call X) (f : X -> prog A) w :
  run o (call_ c ≫= f) w
  = match o _ c w with
    | (Ok x, w') =>
        (outcome (run o (f x) w'), Ev c (Ok x) :: trace (run o (f x) w'),
         world (run o (f x) w'))
    | (Err e, w') => (Err e, [Ev c (Err e)], w')
    end.
Proof. apply (run_call o c (fun x => f x)). Qed.

Lemma os_oracle_not_write X (c : call X) w :
  not_write X c -> (os_oracle net lib X c w).2.1 = w.1.
Proof.
  intros Hc. destruct c; cbn;
    try (destruct (lib _ _ w.2); reflexivity); try reflexivity.
  - exfalso. apply Hc. exact I.
  - destruct (w.1 !! path); reflexivity.
Qed.

(** What every call keeps, every run keeps. *)
Lemma run_invariant (S : forall X, call X -> Prop) (I : gmap string matfile -> Prop) :
  (forall X (c : call X) w, S X c -> I w.1 -> I (os_oracle net lib X c w).2.1) ->
  forall A (p : prog A), calls_only S p ->
  forall w, I w.1 -> I (world (run (os_oracle net lib) p w)).1.
Proof.
  intros Hstep A p Hp.
  induction Hp as [A a|A e|A X c k Hc Hk IH|A X body handler k Hb IHb Hh IHh Hk IHk
                  |A X cm body k Hb IHb Hk IHk]; intros w Hw.
  - exact Hw.
  - exact Hw.
  - rewrite run_call. pose proof (Hstep X c w Hc Hw) as Hw1.
    destruct (os_oracle net lib X c w) as [[x|e] w1]; unfold world; cbn [fst snd] in *.
    + now apply IH.
    + exact Hw1.
  - cbn [run]. specialize (IHb w Hw).
    destruct (run (os_oracle net lib) body w) as [[[x|e] tr] w1];
      unfold world in *; cbn [fst snd] in *.
    + specialize (IHk x w1 IHb).
      now destruct (run (os_oracle net lib) (k x) w1) as [[r tr'] w2].
    + specialize (IHh e w1 IHb).
      destruct (run (os_oracle net lib) (handler e) w1) as [[[x|e'] tr1] w2];
        cbn [fst snd] in *; [|exact IHh].
      specialize (IHk x w2 IHh).
      now destruct (run (os_oracle net lib) (k x) w2) as [[r tr'] w3].
  - rewrite run_with. specialize (IHb w Hw).
    destruct (outcome (run (os_oracle net lib) body w)) as [x|e];
      unfold world at 1; cbn [fst snd]; [|exact IHb].
    now apply IHk.
Qed.

Lemma run_not_write {A} (p : prog A) :
  calls_only not_write p ->
  forall w, (world (run (os_oracle net lib) p w)).1 = w.1.
Proof.
  intros Hp w.
  apply (run_invariant not_write (fun fs => fs = w.1)); [|exact Hp|reflexivity].
  intros X c w0 Hc Hw0. now rewrite os_oracle_not_write.
Qed.

Lemma no_write_event ev : ev_satisfies not_write ev -> ev_write ev = None.
Proof.
  destruct ev as [X c r| |]; [|reflexivity..].
  intros Hc. destruct c; try reflexivity. exfalso. apply Hc. exact I.
Qed.

Lemma no_write_trace {W A} (o : oracle W) (p : prog A) w :
  calls_only not_write p -> omap ev_write (trace (run o p w)) = [].
Proof.
  intros Hp. pose proof (calls_only_trace not_write p Hp W o w) as H.
  induction H as [|ev tr Hev _ IH]; [reflexivity|].
  cbn [omap list_omap]. now rewrite (no_write_event ev Hev).
Qed.

Lemma lf_not_write fs {A} (p : prog A) :
  calls_only not_write p -> leaves_files net lib fs p.
Proof.
  intros Hp l. split; [now rewrite run_not_write|now apply no_write_trace].
Qed.

Lemma lf_bind fs {A B} (p : prog A) (f : A -> prog B) :
  leaves_files net lib fs p -> (forall a, leaves_files net lib fs (f a)) ->
  leaves_files net lib fs (p ≫= f).
Proof.
  intros Hp Hf l. rewrite run_mbind. destruct (Hp l) as [Hw Ht].
  destruct (outcome (run (os_oracle net lib) p (fs, l))) as [a|e];
    unfold world at 1 3, trace at 1 3; cbn [fst snd]; [|now split].
  destruct (world (run (os_oracle net lib) p (fs, l))) as [fs1 l1].
  cbn [fst] in Hw. subst fs1. destruct (Hf a l1) as [Hw' Ht'].
  split; [exact Hw'|]. now rewrite omap_app, Ht, Ht'.
Qed.

End Files.

Section Persistence.
Import Torch.

(** With the dataset file in place, the download cell downloads nothing. *)
Lemma download_cell_leaves_files {L} net (lib : oracle L) fs :
  is_Some (fs !! KeOps.dataset_file) ->
  leaves_files net lib fs KeOps.download_cell.
Proof.
  intros Hfile. unfold KeOps.download_cell.
  do 4 (apply lf_bind; [apply lf_not_write; repeat calls_only_step|intros _]).
  intros l. rewrite run_call_bind. cbn [os_oracle fst snd].
  rewrite bool_decide_eq_true_2 by exact Hfile. cbn [negb].
  unfold outcome at 1, world at 1, trace at 1; cbn [fst snd omap list_omap ev_write].
  apply lf_not_write. repeat calls_only_step.
Qed.

Lemma trace_call_bind {W A X} (o : oracle W) (c : call X) (f : X -> prog A) w :
  trace (run o (call_ c ≫= f) w)
  = match o _ c w with
    | (Ok x, w') => Ev c (Ok x) :: trace (run o (f x) w')
    | (Err e, _) => [Ev c (Err e)]
    end.
Proof. rewrite run_call_bind. now destruct (o X c w) as [[x|e] w']. Qed.

Lemma trace_call_bind_bind {W A B X} (o : oracle W) (c : call X) (f : X -> prog A)
    (g : A -> prog B) w :
  trace (run o ((call_ c ≫= f) ≫= g) w)
  = match o _ c w with
    | (Ok x, w') => Ev c (Ok x) :: trace (run o (f x ≫= g) w')
    | (Err e, _) => [Ev c (Err e)]
    end.
Proof. exact (trace_call_bind o c (fun x => f x ≫= g) w). Qed.









End Persistence.

(** ** The score *)

Section Score.
Import Torch KeOpsData.

(** C6: the score of the KeOps notebook is the root-mean-square error of
    the predictive mean against the normalised test targets.  For a table of
    [N] rows the test targets are the last entries of the rows from
    [floor(0.8 N)] on, each minus the mean and divided by the standard
    deviation of the training targets; for a predictive mean [pred] with one
    entry per test row, the notebook's expression equals the square root of
    the mean, over the test rows, of the squared difference between [pred]
    and the normalised target, and this is what the score cell returns when
    the library answers [observed_pred.mean] with [pred]. *)
Theorem rmse_cell_reports_rmse d (rows : list (list fnum)) (pred : list fnum) :
  Forall (fun r => length r = S d) rows ->
  Z.of_nat (length rows) < 2 ^ 49 ->
  let n := Z.to_nat (4 * Z.of_nat (length rows) / 5) in
  let y := map target (firstn n rows) in
  let normalized :=
    map (RowForm.standardize_label (mean_list y) (std_list y))
        (map target (skipn n rows)) in
  length pred = length (skipn n rows) ->
  exists ds,
    prepare (of_rows (S d) rows) = Ok ds /\
    test_y ds = vector normalized /\
    rmse (vector pred) (test_y ds) = Ok (scalar (rmse_spec pred normalized)) /\
    (forall W (o : oracle W) w observed_pred w1,
       o _ (DistMean observed_pred) w = (Ok (vector pred), w1) ->
       run o (KeOps.rmse_cell ds observed_pred) w
       = (Ok (scalar (rmse_spec pred normalized)),
          [Ev (DistMean observed_pred) (Ok (vector pred))], w1)).
Proof.
  intros Hwf HN n y normalized Hlen.
  assert (Hlen' : length pred = length normalized).
  { subst normalized. now rewrite !length_map. }
  eexists. split; [apply (prepare_rows d rows Hwf HN)|].
  cbn [test_y]. fold n. fold y. fold normalized.
  split; [reflexivity|]. split; [now apply rmse_vectors|].
  intros W o w observed_pred w1 Ho. unfold KeOps.rmse_cell.
  rewrite run_call_bind, Ho, run_lift. cbn [test_y]. fold n. fold y. fold normalized.
  rewrite rmse_vectors by exact Hlen'. reflexivity.
Qed.

Lemma rmse_cell_reports_rmse_witness :
  exists ds score,
    prepare (of_rows 3 (RealStats.inject sample_table)) = Ok ds /\
    rmse (vector [Some 0%R; Some 0%R]) (test_y ds) = Ok (scalar score) /\
    run sample_lib (KeOps.rmse_cell ds (Handle 1)) 1%positive
    = (Ok (scalar score), [Ev (DistMean (Handle 1)) (Ok (vector [Some 0%R; Some 0%R]))],
       1%positive).
Proof.
  destruct (rmse_cell_reports_rmse 2 (RealStats.inject sample_table) [Some 0%R; Some 0%R])
    as (ds & Hprep & _ & Hrmse & Hrun).
  - repeat constructor.
  - reflexivity.
  - reflexivity.
  - exists ds. eexists. split; [exact Hprep|]. split; [exact Hrmse|].
    apply Hrun. reflexivity.
Defined.

End Score.

(** ** A failing download *)

Lemma library_errors_propagate_witness :
  notebook_cell KeOps.download_cell /\
  outcome (run (os_oracle failing_net calm) KeOps.download_cell (∅, 1%positive))
  = Err URLError.
Proof.
  split; [constructor|].
  destruct (library_errors_propagate KeOps.download_cell keops_download)
    as (_ & H & _).
  specialize (H _ (os_oracle failing_net calm) (∅, 1%positive)).
  apply (Forall_lookup_1 _ _ 6%nat (Ev (UrlRetrieve KeOps.dataset_url KeOps.dataset_file)
                                   (Err URLError))) in H.
  - apply H. reflexivity.
  - vm_compute. reflexivity.
Defined.

(** ** The shape of completed runs of the other cells *)

Section CompletedCells.
Import Torch.
Context {W : Type} (o : oracle W).

Lemma run_with_ok {A X} cm (body : prog X) (k : X -> prog A) w a tr w' :
  run o (With cm body k) w = (Ok a, tr, w') ->
  exists x tr1 w1 tr2,
    run o body w = (Ok x, tr1, w1) /\ run o (k x) w1 = (Ok a, tr2, w') /\
    tr = Enter cm :: tr1 ++ Exit cm :: tr2.
Proof.
  cbn [run]. destruct (run o body w) as [[[x|e] tr1] w1]; [|discriminate].
  destruct (run o (k x) w1) as [[r tr2] w2] eqn:Hk.
  intros [= -> <- ->]. exists x, tr1, w1, tr2. repeat split. exact Hk.
Qed.

Lemma run_with__ok {X} cm (body : prog X) w x tr w' :
  run o (with_ cm body) w = (Ok x, tr, w') ->
  exists tr1, run o body w = (Ok x, tr1, w') /\ tr = Enter cm :: tr1 ++ [Exit cm].
Proof.
  intros H. apply run_with_ok in H as (x' & tr1 & w1 & tr2 & Hb & Hk & ->).
  cbn in Hk. injection Hk as -> <- ->. now exists tr1.
Qed.

Lemma run_with_bind_ok {A X} cm (body : prog X) (f : X -> prog A) w a tr w' :
  run o (with_ cm body ≫= f) w = (Ok a, tr, w') ->
  exists x tr1 w1 tr2,
    run o body w = (Ok x, tr1, w1) /\ run o (f x) w1 = (Ok a, tr2, w') /\
    tr = Enter cm :: tr1 ++ Exit cm :: tr2.
Proof. apply (run_with_ok cm body (fun x => f x)). Qed.

Lemma run_lift_bind_ok {A B} (r : res A) (f : A -> prog B) w b tr w' :
  run o (lift r ≫= f) w = (Ok b, tr, w') ->
  exists a, r = Ok a /\ run o (f a) w = (Ok b, tr, w').
Proof. destruct r as [a|e]; [|discriminate]. intros H. now exists a. Qed.

Lemma run_ret_ok {A} (a b : A) w tr w' :
  run o (Ret a) w = (Ok b, tr, w') -> b = a /\ tr = [] /\ w' = w.
Proof. cbn. now intros [= -> <- <-]. Qed.

End CompletedCells.

Ltac next_lift H :=
  apply run_lift_bind_ok in H;
  let x := fresh "x" in let E := fresh "E" in
  destruct H as (x & E & H).

Section OtherCells.
Import Torch.

Lemma keops_forward_of_attrs (self : instance) mean_module covar_module x :
  attrs self !! "mean_module" = Some mean_module ->
  attrs self !! "covar_module" = Some covar_module ->
  KeOps.forward self x
  = (mean_x ← call_ (Invoke mean_module x);
     covar_x ← call_ (Invoke covar_module x);
     call_ (New (MultivariateNormal mean_x covar_x))).
Proof.
  intros Hmean Hcovar. unfold KeOps.forward, getattr. now rewrite Hmean, Hcovar.
Qed.

(** X1: a completed run of the model cell of the KeOps notebook creates a
    [GaussianLikelihood] and moves it to the GPU, creates the model instance
    and initialises it as an [ExactGP] on the training data and that
    likelihood, creates a [ConstantMean], a KeOps [MaternKernel] with
    [nu = 2.5] and a [ScaleKernel] around it, and moves the model to the GPU,
    in this order.  The model has exactly the attributes [mean_module] and
    [covar_module], and [forward] on [x] returns the [MultivariateNormal] of
    what the two modules return on [x]. *)
Theorem keops_model_structure :
  forall W (o : oracle W) w ds likelihood model tr w',
    run o (KeOps.model_cell ds) w = (Ok (likelihood, model), tr, w') ->
    exists mean_module base_kernel covar_module,
      tr = [Ev (New GaussianLikelihood) (Ok likelihood);
            Ev (Cuda likelihood) (Ok tt);
            Ev (New (Instance "ExactGPModel")) (Ok (self_id model));
            Ev (ExactGPInit (self_id model) (KeOpsData.train_x ds) (KeOpsData.train_y ds)
                  likelihood) (Ok tt);
            Ev (New ConstantMean) (Ok mean_module);
            Ev (New (KeopsMaternKernel (PyFloat.div (PyFloat.of_int 5) (PyFloat.of_int 2))))
               (Ok base_kernel);
            Ev (New (ScaleKernel base_kernel)) (Ok covar_module);
            Ev (Cuda (self_id model)) (Ok tt)] /\
      attrs model = <["covar_module" := covar_module]> (<["mean_module" := mean_module]> ∅) /\
      forall x,
        KeOps.forward model x
        = (mean_x ← call_ (Invoke mean_module x);
           covar_x ← call_ (Invoke covar_module x);
           call_ (New (MultivariateNormal mean_x covar_x))).
Proof.
  intros W o w ds likelihood model tr w' H.
  unfold KeOps.model_cell in H. do 2 next_call H.
  apply run_bind_ok in H as (m & tra & wa & trb & Hm & H & ->).
  next_call H. cbn in H. injection H as -> -> <- <-.
  unfold KeOps.ExactGPModel in Hm. do 5 next_call Hm.
  cbn in Hm. injection Hm as <- <- <-.
  exists x3, x4, x5. destruct x0, x1, x2.
  cbn [setattr attrs self_id app].
  split; [reflexivity|]. split; [reflexivity|].
  intros t. apply keops_forward_of_attrs; unfold setattr; cbn [attrs].
  - now rewrite lookup_insert_ne, lookup_insert_eq.
  - now rewrite lookup_insert_eq.
Qed.

Lemma keops_model_structure_witness :
  let model :=
    MkInstance (Handle 5) (<["covar_module" := Handle 8]> (<["mean_module" := Handle 6]> ∅)) in
  exists mean_module covar_module,
    attrs model = <["covar_module" := covar_module]> (<["mean_module" := mean_module]> ∅) /\
    forall x,
      KeOps.forward model x
      = (mean_x ← call_ (Invoke mean_module x);
         covar_x ← call_ (Invoke covar_module x);
         call_ (New (MultivariateNormal mean_x covar_x))).
Proof.
  intros model.
  destruct (keops_model_structure positive calm 4%positive toy_dataset (Handle 4) model
              (trace (run calm (KeOps.model_cell toy_dataset) 4%positive))
              9%positive)
    as (mean_module & base_kernel & covar_module & _ & H1 & H2).
  - vm_compute. reflexivity.
  - exists mean_module, covar_module. split; [exact H1|exact H2].
Defined.

End OtherCells.

Section EvaluationCells.
Import Torch.

Lemma run_eq_intro {W A} (r : res A * list event * W) a w' :
  outcome r = Ok a -> world r = w' -> r = (Ok a, trace r, w').
Proof. destruct r as [[x tr] w]. unfold outcome, world, trace. cbn. now intros -> ->. Qed.

(** X2: a completed run of the evaluation cell of the KeOps notebook puts the
    model and the likelihood in evaluation mode, enters [torch.no_grad()] and
    then [fast_pred_var()], makes one prediction [likelihood(model(test_x))]
    on the test inputs, and leaves the two contexts, the inner one first;
    the cell's [observed_pred] is what the likelihood returned. *)
Theorem keops_eval_cell_trace :
  forall W (o : oracle W) w ds likelihood model observed_pred tr w',
    run o (KeOps.eval_cell ds likelihood model) w = (Ok observed_pred, tr, w') ->
    exists f,
      tr = [Ev (Eval (self_id model)) (Ok tt);
            Ev (Eval likelihood) (Ok tt);
            Enter NoGrad; Enter FastPredVar;
            Ev (Invoke (self_id model) (KeOpsData.test_x ds)) (Ok f);
            Ev (Apply likelihood f) (Ok observed_pred);
            Exit FastPredVar; Exit NoGrad].
Proof.
  intros W o w ds likelihood model observed_pred tr w' H.
  unfold KeOps.eval_cell in H. do 2 next_call H.
  apply run_with__ok in H as (tr1 & H & ->).
  apply run_with__ok in H as (tr2 & H & ->).
  unfold KeOps.predict in H. next_call H.
  apply run_call__ok in H as [_ ->].
  exists x1. destruct x, x0. reflexivity.
Qed.

Lemma keops_eval_cell_trace_witness :
  exists f,
    trace (run calm (KeOps.eval_cell toy_dataset toy_likelihood toy_model) 5%positive)
    = [Ev (Eval (Handle 1)) (Ok tt);
       Ev (Eval (Handle 4)) (Ok tt);
       Enter NoGrad; Enter FastPredVar;
       Ev (Invoke (Handle 1) (KeOpsData.test_x toy_dataset)) (Ok f);
       Ev (Apply (Handle 4) f) (Ok (Handle 6));
       Exit FastPredVar; Exit NoGrad].
Proof.
  apply (keops_eval_cell_trace positive calm 5%positive toy_dataset toy_likelihood toy_model
           (Handle 6) _ 7%positive).
  vm_compute. reflexivity.
Defined.

Lemma plot_panel_ok {W} (o : oracle W) ax train_x train_y mean lower upper task observed
    title w tr w' :
  run o (Deriv.plot_panel ax train_x train_y mean lower upper task observed title) w
  = (Ok tt, tr, w') ->
  exists y m lo up,
    getitem2 train_y None None (Index task) = Ok y /\
    getitem2 mean None None (Index task) = Ok m /\
    getitem2 lower None None (Index task) = Ok lo /\
    getitem2 upper None None (Index task) = Ok up /\
    tr = panel_trace ax train_x y m lo up observed title.
Proof.
  intros H. unfold Deriv.plot_panel in H.
  next_lift H. next_call H. next_lift H. next_call H. do 2 next_lift H. do 2 next_call H.
  apply run_call__ok in H as [_ ->].
  exists x, x1, x3, x4. repeat (split; [assumption|]).
  unfold panel_trace. repeat match goal with u : unit |- _ => destruct u end. reflexivity.
Qed.

(** X3: a completed run of the evaluation cell of the derivative notebook calls
    [model.train()] and then [model.eval()] and [likelihood.eval()], creates
    a figure of 1 by 2 axes, makes one prediction on [test_x] inside
    [torch.no_grad()] and [max_cg_iterations(50)], reads its mean and its
    confidence region, and then draws the two panels: on the first axis
    column 0 of the training targets, of the mean and of the confidence
    bounds, titled as function values, and on the second axis column 1 of
    each, titled as derivatives. *)
Theorem deriv_eval_cell_trace :
  forall W (o : oracle W) w train_x train_y likelihood model tr w',
    run o (Deriv.eval_cell train_x train_y likelihood model) w = (Ok tt, tr, w') ->
    exists fig y1_ax y2_ax f predictions mean lower upper y0 m0 lo0 up0 y1 m1 lo1 up1,
      getitem2 train_y None None (Index 0) = Ok y0 /\
      getitem2 mean None None (Index 0) = Ok m0 /\
      getitem2 lower None None (Index 0) = Ok lo0 /\
      getitem2 upper None None (Index 0) = Ok up0 /\
      getitem2 train_y None None (Index 1) = Ok y1 /\
      getitem2 mean None None (Index 1) = Ok m1 /\
      getitem2 lower None None (Index 1) = Ok lo1 /\
      getitem2 upper None None (Index 1) = Ok up1 /\
      tr = [Ev (Train (self_id model)) (Ok tt);
            Ev (Eval (self_id model)) (Ok tt);
            Ev (Eval likelihood) (Ok tt);
            Ev (Subplots 1 2 (12, 6)) (Ok (fig, (y1_ax, y2_ax)));
            Enter NoGrad; Enter (MaxCgIterations 50);
            Ev (Invoke (self_id model) Deriv.test_x) (Ok f);
            Ev (Apply likelihood f) (Ok predictions);
            Ev (DistMean predictions) (Ok mean);
            Ev (ConfidenceRegion predictions) (Ok (lower, upper));
            Exit (MaxCgIterations 50); Exit NoGrad]
           ++ panel_trace y1_ax train_x y0 m0 lo0 up0 "Observed Values" "Function values"
           ++ panel_trace y2_ax train_x y1 m1 lo1 up1 "Observed Derivatives" "Derivatives".
Proof.
  intros W o w train_x train_y likelihood model tr w' H.
  unfold Deriv.eval_cell in H. do 4 next_call H.
  destruct x2 as [fig [y1_ax y2_ax]].
  apply run_with_bind_ok in H as ([[mean lower] upper] & tr1 & w4 & tr2 & Hp & H & ->).
  apply run_with__ok in Hp as (tr3 & Hp & ->).
  unfold Deriv.predict in Hp. do 4 next_call Hp. destruct x5 as [lo up].
  cbn in Hp. injection Hp as <- <- <- <- <-.
  apply run_bind_ok in H as ([] & tra & wa & trb & H1 & H2 & ->).
  apply plot_panel_ok in H1 as (y0 & m0 & lo0 & up0 & E1 & E2 & E3 & E4 & ->).
  apply plot_panel_ok in H2 as (y1 & m1 & lo1 & up1 & E5 & E6 & E7 & E8 & ->).
  exists fig, y1_ax, y2_ax, x2, x3, x4, lo, up, y0, m0, lo0, up0, y1, m1, lo1, up1.
  repeat (split; [assumption|]).
  destruct x, x0, x1. reflexivity.
Qed.

Lemma deriv_eval_cell_trace_witness :
  let train_y := Tensor [0%nat; 2%nat] [] in
  let tr := trace (run calm (Deriv.eval_cell DerivData.train_x train_y (Handle 1)
                               toy_derivative_model) 1%positive) in
  exists fig y1_ax y2_ax f predictions mean lower upper y0 m0 lo0 up0 y1 m1 lo1 up1,
    getitem2 train_y None None (Index 0) = Ok y0 /\
    getitem2 mean None None (Index 0) = Ok m0 /\
    getitem2 lower None None (Index 0) = Ok lo0 /\
    getitem2 upper None None (Index 0) = Ok up0 /\
    getitem2 train_y None None (Index 1) = Ok y1 /\
    getitem2 mean None None (Index 1) = Ok m1 /\
    getitem2 lower None None (Index 1) = Ok lo1 /\
    getitem2 upper None None (Index 1) = Ok up1 /\
    tr = [Ev (Train (Handle 2)) (Ok tt);
          Ev (Eval (Handle 2)) (Ok tt);
          Ev (Eval (Handle 1)) (Ok tt);
          Ev (Subplots 1 2 (12, 6)) (Ok (fig, (y1_ax, y2_ax)));
          Enter NoGrad; Enter (MaxCgIterations 50);
          Ev (Invoke (Handle 2) Deriv.test_x) (Ok f);
          Ev (Apply (Handle 1) f) (Ok predictions);
          Ev (DistMean predictions) (Ok mean);
          Ev (ConfidenceRegion predictions) (Ok (lower, upper));
          Exit (MaxCgIterations 50); Exit NoGrad]
         ++ panel_trace y1_ax DerivData.train_x y0 m0 lo0 up0
              "Observed Values" "Function values"
         ++ panel_trace y2_ax DerivData.train_x y1 m1 lo1 up1
              "Observed Derivatives" "Derivatives".
Proof.
  intros train_y tr.
  apply (deriv_eval_cell_trace positive calm 1%positive DerivData.train_x train_y
           (Handle 1) toy_derivative_model tr 6%positive).
  apply run_eq_intro; vm_compute; reflexivity.
Defined.

End EvaluationCells.

(** ** The download cell *)

Section Download.
Import Torch.
Context {L : Type} (net : string -> res matfile) (lib : oracle L).

Lemma os_oracle_ok_frame X (c : call X) w r w' :
  not_write X c -> os_oracle net lib X c w = (r, w') -> w'.1 = w.1.
Proof.
  intros Hc Ho. rewrite <- (os_oracle_not_write net lib X c w Hc). now rewrite Ho.
Qed.

(** X4: whenever the download cell returns data, the file [3droad.mat] exists
    afterwards and the data is its variable ['data'].  If the file was there
    at the start, nothing is downloaded and the files are unchanged;
    otherwise the file is what the network served for the dataset's
    address, that download is the only one, and no other file has changed. *)
Theorem download_returns_cached_data fs l data tr w' :
  run (os_oracle net lib) KeOps.download_cell (fs, l) = (Ok data, tr, w') ->
  exists f,
    w'.1 !! KeOps.dataset_file = Some f /\ f !! "data" = Some data /\
    match fs !! KeOps.dataset_file with
    | Some _ => w'.1 = fs /\ omap ev_write tr = []
    | None =>
        net KeOps.dataset_url = Ok f /\ w'.1 = <[KeOps.dataset_file := f]> fs /\
        omap ev_write tr = [(KeOps.dataset_url, KeOps.dataset_file)]
    end.
Proof.
  intros H. unfold KeOps.download_cell in H.
  do 4 next_call H.
  apply os_oracle_ok_frame in Ho, Ho0, Ho1, Ho2; try (intros []).
  cbn [fst] in Ho. rewrite Ho0, Ho in Ho1. rewrite Ho1 in Ho2. clear Ho Ho0 Ho1.
  next_call H. cbn in Ho. injection Ho as <- <-. rewrite Ho2 in H.
  apply run_bind_ok in H as ([] & tra & wa & trb & Hdl & H & ->).
  next_call H. next_lift H. next_call H.
  apply run_ret_ok in H as (-> & -> & ->).
  apply os_oracle_ok_frame in Ho0; [|intros []].
  destruct (x3 !! "data") as [d|] eqn:Hdata; [|discriminate]. cbn in E. injection E as ->.
  cbn in Ho. destruct (wa.1 !! KeOps.dataset_file) as [f|] eqn:Hf; [|discriminate].
  injection Ho as -> <-.
  exists x3. rewrite Ho0. split; [exact Hf|]. split; [exact Hdata|].
  destruct (fs !! KeOps.dataset_file) as [f0|] eqn:Hfs.
  - rewrite bool_decide_eq_true_2 in Hdl by eauto.
    cbn in Hdl. injection Hdl as <- <-. rewrite Ho2. split; [reflexivity|].
    cbn. reflexivity.
  - rewrite bool_decide_eq_false_2 in Hdl by (intros [? [=]]).
    cbn [negb] in Hdl. next_call Hdl.
    apply os_oracle_ok_frame in Ho; [|intros []].
    apply run_call__ok in Hdl as [Hnet ->].
    unfold os_oracle in Hnet.
    destruct (net KeOps.dataset_url) as [f'|e] eqn:Hurl; [|discriminate].
    injection Hnet as <-. cbn [fst snd] in *. rewrite Ho, Ho2 in Hf.
    rewrite lookup_insert_eq in Hf. injection Hf as ->.
    rewrite Ho, Ho2. repeat split.
Qed.

Lemma outcome_call_bind_ok {W A X} (o : oracle W) (c : call X) (f : X -> prog A) w x w1 :
  o _ c w = (Ok x, w1) ->
  outcome (run o (call_ c ≫= f) w) = outcome (run o (f x) w1).
Proof. intros Ho. now rewrite run_call_bind, Ho. Qed.

Hypothesis imports_succeed : forall s l0, exists l1, lib _ (Import s) l0 = (Ok tt, l1).

Lemma outcome_import {A} s (f : unit -> prog A) fs l :
  exists l1,
    outcome (run (os_oracle net lib) (call_ (Import s) ≫= f) (fs, l))
    = outcome (run (os_oracle net lib) (f tt) (fs, l1)).
Proof.
  destruct (imports_succeed s l) as [l1 Hl]. exists l1.
  apply outcome_call_bind_ok. cbn. now rewrite Hl.
Qed.


(** X5: a cache file without a variable ['data'] is never repaired: when the
    imports succeed, the download cell finds the file, downloads nothing,
    leaves the files as they are and raises [KeyError]. *)
Theorem stale_cache_raises_key_error fs f l :
  fs !! KeOps.dataset_file = Some f -> f !! "data" = None ->
  let r := run (os_oracle net lib) KeOps.download_cell (fs, l) in
  outcome r = Err KeyError /\ (world r).1 = fs /\ omap ev_write (trace r) = [].
Proof.
  intros Hfile Hdata r.
  split; [|apply download_cell_leaves_files; rewrite Hfile; eauto].
  subst r. unfold KeOps.download_cell.
  do 4 match goal with
       | |- outcome (run _ (call_ (Import ?s) ≫= ?k) (_, ?l0)) = _ =>
           let l1 := fresh "l" in destruct (outcome_import s k fs l0) as [l1 ->]
       end.
  rewrite (outcome_call_bind_ok _ _ _ _ true (fs, l3))
    by (cbn; rewrite bool_decide_eq_true_2 by (rewrite Hfile; eauto); reflexivity).
  cbn [negb].
  change (outcome (run (os_oracle net lib)
            (call_ (LoadMat KeOps.dataset_file) ≫= fun mat =>
               data ← lift (from_option Ok (Err KeyError) (mat !! "data"));
               call_ (TorchTensor data);; Ret data) (fs, l3)) = Err KeyError).
  rewrite (outcome_call_bind_ok _ _ _ _ f (fs, l3)) by (cbn; now rewrite Hfile).
  rewrite Hdata. reflexivity.
Qed.

End Download.

Section DownloadWitnesses.
Import Torch.

Lemma calm_imports s l0 : exists l1, calm _ (Import s) l0 = (Ok tt, l1).
Proof. now exists l0. Qed.

Lemma download_returns_cached_data_witness :
  let r := run (os_oracle sample_net calm) KeOps.download_cell (∅, 1%positive) in
  exists f,
    (world r).1 !! KeOps.dataset_file = Some f /\
    f !! "data" = Some (of_rows 3 (RealStats.inject sample_table)) /\
    sample_net KeOps.dataset_url = Ok f /\
    (world r).1 = <[KeOps.dataset_file := f]> ∅.
Proof.
  intros r.
  destruct (download_returns_cached_data sample_net calm ∅ 1%positive
              (of_rows 3 (RealStats.inject sample_table)) (trace r) (world r))
    as (f & H1 & H2 & H3).
  - apply run_eq_intro; vm_compute; reflexivity.
  - exists f. rewrite lookup_empty in H3. destruct H3 as (H3 & H4 & _). now repeat split.
Defined.

Lemma stale_cache_raises_key_error_witness :
  let fs : gmap string matfile := {[KeOps.dataset_file := ∅]} in
  let r := run (os_oracle sample_net calm) KeOps.download_cell (fs, 1%positive) in
  outcome r = Err KeyError /\ (world r).1 = fs /\ omap ev_write (trace r) = [].
Proof.
  apply (stale_cache_raises_key_error sample_net calm calm_imports
           {[KeOps.dataset_file := ∅]} ∅ 1%positive); reflexivity.
Defined.

End DownloadWitnesses.

Section FailedDownload.
Import Torch.

Lemma outcome_call_bind {W A X} (o : oracle W) (c : call X) (f : X -> prog A) w :
  outcome (run o (call_ c ≫= f) w)
  = match o _ c w with
    | (Ok x, w') => outcome (run o (f x) w')
    | (Err e, _) => Err e
    end.
Proof. rewrite run_call_bind. now destruct (o X c w) as [[x|e] w']. Qed.

Lemma outcome_call_bind_bind {W A B X} (o : oracle W) (c : call X) (f : X -> prog A)
    (g : A -> prog B) w :
  outcome (run o ((call_ c ≫= f) ≫= g) w)
  = match o _ c w with
    | (Ok x, w') => outcome (run o (f x ≫= g) w')
    | (Err e, _) => Err e
    end.
Proof. exact (outcome_call_bind o c (fun x => f x ≫= g) w). Qed.

Ltac next_answer x w :=
  first [rewrite trace_call_bind_bind, outcome_call_bind_bind
        | rewrite trace_call_bind, outcome_call_bind];
  match goal with
  | |- context [match ?o ?X ?c ?w0 with _ => _ end] =>
      destruct (o X c w0) as [[x|?] w]
  end;
  cbn [omap list_omap ev_disk].

(** X6: in every run of the download cell in which the download raises an
    error, the cell ends with that error: the message has been printed
    before, [loadmat] is never called, and the download was asked to write
    to [3droad.mat], the file whose existence the next execution tests. *)
Theorem failed_download_propagates {W} (o : oracle W) w e url path :
  In (Downloaded url path (Err e)) (omap ev_disk (trace (run o KeOps.download_cell w))) ->
  outcome (run o KeOps.download_cell w) = Err e /\
  omap ev_disk (trace (run o KeOps.download_cell w))
  = [Checked KeOps.dataset_file (Ok false); Announced downloading (Ok tt);
     Downloaded KeOps.dataset_url KeOps.dataset_file (Err e)].
Proof.
  unfold KeOps.download_cell.
  next_answer x1 w1; [|intros []].
  next_answer x2 w2; [|intros []].
  next_answer x3 w3; [|intros []].
  next_answer x4 w4; [|intros []].
  next_answer present w5; [|intros [[=]|[]]].
  assert (Hload : forall w6,
            forall d, In d (omap ev_disk
                        (trace (run o (mat ← call_ (LoadMat KeOps.dataset_file);
                                       data ← lift (from_option Ok (Err KeyError)
                                                      (mat !! "data"));
                                       call_ (TorchTensor data);; Ret data) w6)))
                     -> exists r, d = Loaded KeOps.dataset_file r).
  { intros w6 d. rewrite trace_call_bind.
    destruct (o _ (LoadMat KeOps.dataset_file) w6) as [[mat|e'] w7];
      cbn [omap list_omap ev_disk]; [|intros [<-|[]]; eauto].
    intros [<-|Hd]; [eauto|]. exfalso. revert Hd.
    destruct (mat !! "data") as [data|]; cbn [from_option lift]; [|intros []].
    change (In d (omap ev_disk
                    (trace (run o (call_ (TorchTensor data) ≫= fun _ => Ret data) w7)))
            -> False).
    rewrite trace_call_bind.
    destruct (o _ (TorchTensor data) w7) as [[x8|e8] w8]; intros []. }
  destruct present; cbn [negb].
  - intros [[=]|Hd]. apply Hload in Hd as [r [=]].
  - next_answer x6 w6; [|intros [[=]|[[=]|[]]]].
    destruct x6.
    rewrite trace_call_bind, outcome_call_bind.
    destruct (o _ (UrlRetrieve KeOps.dataset_url KeOps.dataset_file) w6) as [[x7|e7] w7];
      cbn [omap list_omap ev_disk].
    + intros [[=]|[[=]|[[=]|Hd]]]. apply Hload in Hd as [r [=]].
    + intros [[=]|[[=]|[[= -> -> ->]|[]]]]. split; reflexivity.
Qed.

Lemma failed_download_propagates_witness :
  outcome (run (os_oracle failing_net calm) KeOps.download_cell (∅, 1%positive))
  = Err URLError /\
  omap ev_disk (trace (run (os_oracle failing_net calm) KeOps.download_cell (∅, 1%positive)))
  = [Checked KeOps.dataset_file (Ok false); Announced downloading (Ok tt);
     Downloaded KeOps.dataset_url KeOps.dataset_file (Err URLError)].
Proof.
  apply (failed_download_propagates (os_oracle failing_net calm) (∅, 1%positive) URLError
           KeOps.dataset_url KeOps.dataset_file).
  vm_compute. right. right. left. reflexivity.
Defined.

End FailedDownload.

(** ** The order of the optimisation *)

Section TrainingOrder.
Import Torch.

Lemma omap_steps_from {B} (obs : event -> option B) (step : Z -> step_answers -> list event)
    (per_step : step_answers -> list B) :
  (forall i a, omap obs (step i a) = per_step a) ->
  forall answers i,
    omap obs (steps_from step i answers) = concat (map per_step answers).
Proof.
  intros Hstep. induction answers as [|a answers IH]; intros i; [reflexivity|].
  cbn [steps_from map concat]. now rewrite omap_app, Hstep, IH.
Qed.

Lemma keops_training_cell_ok {W} (o : oracle W) w ds likelihood model tr w' :
  run o (KeOps.training_cell ds likelihood model) w = (Ok tt, tr, w') ->
  exists covar_module params optimizer mll answers,
    length answers = 50%nat /\
    tr = [Ev (Train (self_id model)) (Ok tt); Ev (Train likelihood) (Ok tt);
          Ev (Parameters (self_id model)) (Ok params);
          Ev (New (Adam params lit_0_1)) (Ok optimizer);
          Ev (New (ExactMarginalLogLikelihood likelihood (self_id model))) (Ok mll);
          Ev (Import "import time") (Ok tt)]
         ++ steps_from (KeOpsTrace.step_trace ds (self_id model) covar_module optimizer mll)
              0 answers.
Proof.
  intros H. unfold KeOps.training_cell in H. do 6 next_call H.
  unfold for_range in H. change (Z.to_nat KeOps.training_iter) with 50%nat in H.
  destruct (attrs model !! "covar_module") as [covar_module|] eqn:Hattr.
  2:{ cbn [for_from] in H. apply run_bind_ok in H as ([] & tra & wa & trb & H1 & _).
      apply keops_step_ok in H1 as (c & a & Hc & _). congruence. }
  apply (run_for_from_ok o
           (KeOpsTrace.step_trace ds (self_id model) covar_module x2 x3)) in H.
  2:{ intros j wj trj wj' Hj. apply keops_step_ok in Hj as (c & a & Hc & ->).
      exists a. congruence. }
  destruct H as (answers & Hlen & ->).
  exists covar_module, x1, x2, x3, answers. split; [exact Hlen|].
  destruct x, x0, x4. reflexivity.
Qed.

Lemma deriv_training_cell_ok {W} (o : oracle W) w train_x train_y likelihood model tr w' :
  run o (Deriv.training_cell train_x train_y likelihood model) w = (Ok tt, tr, w') ->
  exists covar_module params optimizer mll answers,
    length answers = 50%nat /\
    tr = [Ev (Train (self_id model)) (Ok tt); Ev (Train likelihood) (Ok tt);
          Ev (Parameters (self_id model)) (Ok params);
          Ev (New (Adam params lit_0_1)) (Ok optimizer);
          Ev (New (ExactMarginalLogLikelihood likelihood (self_id model))) (Ok mll)]
         ++ steps_from (DerivTrace.step_trace train_x train_y (self_id model) covar_module
                          optimizer mll)
              0 answers.
Proof.
  intros H. unfold Deriv.training_cell in H. do 5 next_call H.
  unfold for_range in H. change (Z.to_nat Deriv.n_iter) with 50%nat in H.
  destruct (attrs model !! "covar_module") as [covar_module|] eqn:Hattr.
  2:{ cbn [for_from] in H. apply run_bind_ok in H as ([] & tra & wa & trb & H1 & _).
      apply deriv_step_ok in H1 as (c & a & Hc & _). congruence. }
  apply (run_for_from_ok o
           (DerivTrace.step_trace train_x train_y (self_id model) covar_module x2 x3)) in H.
  2:{ intros j wj trj wj' Hj. apply deriv_step_ok in Hj as (c & a & Hc & ->).
      exists a. congruence. }
  destruct H as (answers & Hlen & ->).
  exists covar_module, x1, x2, x3, answers. split; [exact Hlen|].
  destruct x, x0. reflexivity.
Qed.

(** X7: in a completed run of either training cell, the calls are: [train()]
    on the model and on the likelihood, [model.parameters()], the creation
    of one [Adam] optimizer on these parameters with learning rate 0.1, the
    creation of the criterion, and then 50 steps.  Each step calls
    [optimizer.zero_grad()], [output = model(train_x)],
    [m = mll(output, train_y)], [backward()] on [-m] and
    [optimizer.step()], in this order and on that one optimizer. *)
Theorem optimizer_calls_in_order :
  (forall W (o : oracle W) w ds likelihood model tr w',
     run o (KeOps.training_cell ds likelihood model) w = (Ok tt, tr, w') ->
     exists covar_module params optimizer mll answers,
       length answers = 50%nat /\
       tr = [Ev (Train (self_id model)) (Ok tt); Ev (Train likelihood) (Ok tt);
             Ev (Parameters (self_id model)) (Ok params);
             Ev (New (Adam params (PyFloat.div (PyFloat.of_int 1) (PyFloat.of_int 10))))
                (Ok optimizer);
             Ev (New (ExactMarginalLogLikelihood likelihood (self_id model))) (Ok mll);
             Ev (Import "import time") (Ok tt)]
            ++ steps_from (KeOpsTrace.step_trace ds (self_id model) covar_module
                             optimizer mll) 0 answers /\
       omap ev_step tr
       = concat (map (step_calls (self_id model) (KeOpsData.train_x ds)
                        (KeOpsData.train_y ds) optimizer mll) answers) /\
       omap ev_optim tr
       = GetParameters (self_id model) params
         :: MakeAdam params (PyFloat.div (PyFloat.of_int 1) (PyFloat.of_int 10)) optimizer
         :: concat (map (step_optim optimizer) answers)) /\
  (forall W (o : oracle W) w train_x train_y likelihood model tr w',
     run o (Deriv.training_cell train_x train_y likelihood model) w = (Ok tt, tr, w') ->
     exists covar_module params optimizer mll answers,
       length answers = 50%nat /\
       tr = [Ev (Train (self_id model)) (Ok tt); Ev (Train likelihood) (Ok tt);
             Ev (Parameters (self_id model)) (Ok params);
             Ev (New (Adam params (PyFloat.div (PyFloat.of_int 1) (PyFloat.of_int 10))))
                (Ok optimizer);
             Ev (New (ExactMarginalLogLikelihood likelihood (self_id model))) (Ok mll)]
            ++ steps_from (DerivTrace.step_trace train_x train_y (self_id model)
                             covar_module optimizer mll) 0 answers /\
       omap ev_step tr
       = concat (map (step_calls (self_id model) train_x train_y optimizer mll) answers) /\
       omap ev_optim tr
       = GetParameters (self_id model) params
         :: MakeAdam params (PyFloat.div (PyFloat.of_int 1) (PyFloat.of_int 10)) optimizer
         :: concat (map (step_optim optimizer) answers)).
Proof.
  split.
  - intros W o w ds likelihood model tr w' H.
    apply keops_training_cell_ok in H
      as (covar_module & params & optimizer & mll & answers & Hlen & ->).
    exists covar_module, params, optimizer, mll, answers.
    split; [exact Hlen|]. split; [reflexivity|].
    rewrite !omap_app. split.
    + now rewrite (omap_steps_from ev_step _
                     (step_calls (self_id model) (KeOpsData.train_x ds)
                        (KeOpsData.train_y ds) optimizer mll)).
    + rewrite (omap_steps_from ev_optim _ (step_optim optimizer)) by reflexivity.
      reflexivity.
  - intros W o w train_x train_y likelihood model tr w' H.
    apply deriv_training_cell_ok in H
      as (covar_module & params & optimizer & mll & answers & Hlen & ->).
    exists covar_module, params, optimizer, mll, answers.
    split; [exact Hlen|]. split; [reflexivity|].
    rewrite !omap_app. split.
    + now rewrite (omap_steps_from ev_step _
                     (step_calls (self_id model) train_x train_y optimizer mll)).
    + rewrite (omap_steps_from ev_optim _ (step_optim optimizer)) by reflexivity.
      reflexivity.
Qed.

Lemma optimizer_calls_in_order_witness :
  let tr := trace (run calm (KeOps.training_cell toy_dataset toy_likelihood toy_model)
                     5%positive) in
  exists params optimizer mll answers,
    length answers = 50%nat /\
    omap ev_step tr
    = concat (map (step_calls (Handle 1) (KeOpsData.train_x toy_dataset)
                     (KeOpsData.train_y toy_dataset) optimizer mll) answers) /\
    omap ev_optim tr
    = GetParameters (Handle 1) params
      :: MakeAdam params (PyFloat.div (PyFloat.of_int 1) (PyFloat.of_int 10)) optimizer
      :: concat (map (step_optim optimizer) answers).
Proof.
  intros tr. destruct optimizer_calls_in_order as [H _].
  destruct (H positive calm 5%positive toy_dataset toy_likelihood toy_model tr
              (world (run calm (KeOps.training_cell toy_dataset toy_likelihood toy_model)
                        5%positive)))
    as (covar_module & params & optimizer & mll & answers & H1 & _ & H2 & H3).
  - apply run_eq_intro; vm_compute; reflexivity.
  - exists params, optimizer, mll, answers. repeat split; assumption.
Defined.

End TrainingOrder.

(** ** Modes during the optimisation *)

Section TrainingModes.
Import Torch.

Lemma at_every_impl (P Q : list event -> event -> Prop) pre tr :
  (forall past ev, P past ev -> Q past ev) -> at_every P pre tr -> at_every Q pre tr.
Proof.
  intros HPQ. revert pre. induction tr as [|ev tr IH]; intros pre; cbn [at_every]; [trivial|].
  intros [H1 H2]. split; [now apply HPQ|now apply IH].
Qed.

Lemma no_mode_event ev : ev_satisfies not_mode_call ev -> ev_mode ev = None.
Proof.
  destruct ev as [X c r| |]; [|reflexivity..].
  intros Hc. destruct c; try reflexivity; destruct Hc.
Qed.

Lemma last_mode_snoc o pre ev : ev_mode ev = None -> last_mode o (pre ++ [ev]) = last_mode o pre.
Proof.
  intros Hev. unfold last_mode. rewrite rev_app_distr. cbn [rev app last_mode_rev].
  now rewrite Hev.
Qed.

(** What holds of the past and is kept by every event that is not a mode
    call, holds at every event of a program without mode calls. *)
Lemma aa_mode_invariant (Inv : list event -> Prop) {A} (p : prog A) pre :
  (forall past ev, ev_mode ev = None -> Inv past -> Inv (past ++ [ev])) ->
  calls_only not_mode_call p -> Inv pre ->
  always_after pre (fun past _ => Inv past) p.
Proof.
  intros Hkeep Hp Hpre W o w.
  pose proof (calls_only_trace not_mode_call p Hp W o w) as Htr.
  revert pre Hpre. induction Htr as [|ev tr Hev _ IH]; intros pre Hpre; cbn [at_every].
  - exact I.
  - split; [exact Hpre|]. apply IH. apply Hkeep; [now apply no_mode_event|exact Hpre].
Qed.

Lemma train_mode_kept model likelihood {A} (p : prog A) pre :
  calls_only not_mode_call p ->
  last_mode model pre = Some Training -> last_mode likelihood pre = Some Training ->
  always_after pre (optimised_in_train_mode model likelihood) p.
Proof.
  intros Hp Hm Hl W o w.
  eapply at_every_impl;
    [|apply (aa_mode_invariant
               (fun past => last_mode model past = Some Training /\
                            last_mode likelihood past = Some Training) p pre)].
  - intros past ev H oc _. exact H.
  - intros past ev Hev [H1 H2]. now rewrite !last_mode_snoc.
  - exact Hp.
  - now split.
Qed.

Ltac not_optim := let oc := fresh "oc" in let H := fresh "H" in
  intros oc H; cbn in H; discriminate H.

(** X8: in every run of either training cell, also one that a library call
    ends early, the model and the likelihood are in training mode at every
    call that takes part in the optimisation: the latest [train()]/[eval()]
    call on each of them is [train()]. *)
Theorem optimisation_in_train_mode :
  (forall ds likelihood model,
     always (optimised_in_train_mode (self_id model) likelihood)
            (KeOps.training_cell ds likelihood model)) /\
  (forall train_x train_y likelihood model,
     always (optimised_in_train_mode (self_id model) likelihood)
            (Deriv.training_cell train_x train_y likelihood model)).
Proof.
  split.
  - intros ds likelihood model. unfold always, KeOps.training_cell.
    apply aa_call_bind; [intros r; not_optim|intros []; cbn [app]].
    apply aa_call_bind; [intros r; not_optim|intros []; cbn [app]].
    apply train_mode_kept.
    + unfold_cells. repeat calls_only_step.
    + modes_and_grad.
    + modes_and_grad.
  - intros train_x train_y likelihood model. unfold always, Deriv.training_cell.
    apply aa_call_bind; [intros r; not_optim|intros []; cbn [app]].
    apply aa_call_bind; [intros r; not_optim|intros []; cbn [app]].
    apply train_mode_kept.
    + unfold_cells. repeat calls_only_step.
    + modes_and_grad.
    + modes_and_grad.
Qed.

End TrainingModes.

(** ** No optimisation after evaluation has begun *)

Section NoUpdateAfterEval.
Import Torch.

Lemma tp_bind S1 S2 {A B} (p : prog A) (f : A -> prog B) :
  calls_only S1 p -> (forall a, two_phase S1 S2 (f a)) -> two_phase S1 S2 (p ≫= f).
Proof.
  intros Hp Hf. change (two_phase S1 S2 (bind p f)).
  induction Hp as [A a|A e|A X c k Hc Hk IH|A X body handler k Hb IHb Hh IHh Hk IHk
                  |A X cm body k Hb IHb Hk IHk]; cbn [bind].
  - apply Hf.
  - apply tp_second. constructor.
  - apply tp_call; [exact Hc|]. intros x. now apply IH.
  - apply tp_try; [exact Hb|exact Hh|]. intros x. now apply IHk.
  - apply tp_with; [exact Hb|]. intros x. now apply IHk.
Qed.

(** The trace of a program in two phases is in two phases. *)
Lemma two_phase_trace S1 S2 {A} (p : prog A) :
  two_phase S1 S2 p ->
  forall W (o : oracle W) w,
    exists tr1 tr2,
      trace (run o p w) = tr1 ++ tr2 /\
      Forall (ev_satisfies S1) tr1 /\ Forall (ev_satisfies S2) tr2.
Proof.
  induction 1 as [A p Hp|A X c k Hc Hk IH|A X body handler k Hb Hh Hk IH
                 |A X cm body k Hb Hk IH]; intros W o w.
  - exists [], (trace (run o p w)). split; [reflexivity|]. split; [constructor|].
    now apply calls_only_trace.
  - rewrite run_call. destruct (o X c w) as [[x|e] w1]; unfold trace at 1; cbn [fst snd].
    + destruct (IH x W o w1) as (tr1 & tr2 & -> & H1 & H2).
      exists (Ev c (Ok x) :: tr1), tr2. split; [reflexivity|]. split; [|exact H2].
      constructor; [exact Hc|exact H1].
    + exists [Ev c (Err e)], []. split; [reflexivity|]. split; [|constructor].
      constructor; [exact Hc|constructor].
  - cbn [run]. pose proof (calls_only_trace S1 body Hb W o w) as Hbt.
    destruct (run o body w) as [[[x|e] tr] w1]; unfold trace in *; cbn [fst snd] in *.
    + destruct (IH x W o w1) as (tr1 & tr2 & Ek & H1 & H2).
      destruct (run o (k x) w1) as [[r tr'] w2]; cbn [fst snd] in *. subst tr'.
      exists (tr ++ tr1), tr2. rewrite app_assoc. split; [reflexivity|].
      split; [now apply Forall_app|exact H2].
    + pose proof (calls_only_trace S1 (handler e) (Hh e) W o w1) as Hht.
      destruct (run o (handler e) w1) as [[[x|e'] trh] w2]; cbn [fst snd] in *.
      * destruct (IH x W o w2) as (tr1 & tr2 & Ek & H1 & H2).
        destruct (run o (k x) w2) as [[r tr'] w3]; cbn [fst snd] in *. subst tr'.
        exists (tr ++ trh ++ tr1), tr2. rewrite <- !app_assoc. split; [reflexivity|].
        split; [|exact H2]. repeat (apply Forall_app; split); assumption.
      * exists (tr ++ trh), []. rewrite app_nil_r. split; [reflexivity|].
        split; [now apply Forall_app|constructor].
  - rewrite run_with. pose proof (calls_only_trace S1 body Hb W o w) as Hbt.
    destruct (outcome (run o body w)) as [x|e]; unfold trace at 1; cbn [fst snd].
    + destruct (IH x W o (world (run o body w))) as (tr1 & tr2 & -> & H1 & H2).
      exists (Enter cm :: trace (run o body w) ++ Exit cm :: tr1), tr2.
      split; [cbn [app]; now rewrite <- app_assoc|]. split; [|exact H2].
      constructor; [exact I|]. apply Forall_app. split; [exact Hbt|].
      constructor; [exact I|exact H1].
    + exists (Enter cm :: trace (run o body w) ++ [Exit cm]), [].
      rewrite app_nil_r. split; [reflexivity|]. split; [|constructor].
      constructor; [exact I|]. apply Forall_app. split; [exact Hbt|].
      constructor; [exact I|constructor].
Qed.

Lemma not_eval_event ev o :
  ev_satisfies not_eval_call ev -> ev_mode ev <> Some (o, Evaluation).
Proof.
  destruct ev as [X c r| |]; [|discriminate..].
  intros Hc. destruct c; try discriminate. destruct Hc.
Qed.

Lemma not_optim_event ev : ev_satisfies not_optim_call ev -> ev_optim ev = None.
Proof.
  destruct ev as [X c r| |]; [|reflexivity..].
  intros Hc. destruct c; try reflexivity; try (destruct Hc).
  destruct c; try reflexivity. destruct Hc.
Qed.

Lemma no_eval_so_far pre tr :
  Forall (ev_satisfies not_eval_call) pre -> Forall (ev_satisfies not_eval_call) tr ->
  at_every no_eval_before_optim pre tr.
Proof.
  intros Hpre Htr. revert pre Hpre.
  induction Htr as [|ev tr Hev _ IH]; intros pre Hpre; cbn [at_every]; [exact I|].
  split.
  - intros oc _ e o He. apply not_eval_event.
    rewrite Forall_forall in Hpre. apply Hpre. now apply list_elem_of_In.
  - apply IH. apply Forall_app. split; [exact Hpre|]. constructor; [exact Hev|constructor].
Qed.

Lemma two_phase_no_eval_before_optim {A} (p : prog A) :
  two_phase not_eval_call not_optim_call p -> always no_eval_before_optim p.
Proof.
  intros Hp W o w.
  destruct (two_phase_trace _ _ p Hp W o w) as (tr1 & tr2 & -> & H1 & H2).
  apply at_every_app. split.
  - apply no_eval_so_far; [constructor|exact H1].
  - apply at_every_trivial. eapply Forall_impl; [exact H2|].
    intros ev Hev pre oc Hoc. rewrite (not_optim_event ev Hev) in Hoc. discriminate.
Qed.

(** X9: in every run of either notebook, every call that takes part in the
    optimisation (reading the parameters, creating the optimizer,
    [zero_grad()], [backward()], [step()]) is made before the first
    [eval()]: once the model has been put in evaluation mode, it is not
    trained any further. *)
Theorem no_optimisation_after_eval :
  always no_eval_before_optim KeOps.notebook /\
  always no_eval_before_optim Deriv.notebook.
Proof.
  split; apply two_phase_no_eval_before_optim.
  - unfold KeOps.notebook.
    apply tp_bind; [unfold_cells; repeat calls_only_step|intros _].
    apply tp_bind; [unfold_cells; repeat calls_only_step|intros data].
    apply tp_bind; [unfold_cells; repeat calls_only_step|intros ds].
    apply tp_bind; [unfold_cells; repeat calls_only_step|intros [likelihood model]].
    apply tp_bind; [unfold_cells; repeat calls_only_step|intros _].
    apply tp_second. unfold_cells. repeat calls_only_step.
  - unfold Deriv.notebook.
    apply tp_bind; [unfold_cells; repeat calls_only_step|intros _].
    apply tp_bind; [unfold_cells; repeat calls_only_step|intros [train_x train_y]].
    apply tp_bind; [unfold_cells; repeat calls_only_step|intros [likelihood model]].
    apply tp_bind; [unfold_cells; repeat calls_only_step|intros _].
    apply tp_second. unfold_cells. repeat calls_only_step.
Qed.

End NoUpdateAfterEval.

(** ** Constant data *)

Section Centring.
Import Torch.
Open Scope R_scope.

Lemma sum_nonneg_zero l :
  Forall (fun x => 0 <= x) l -> RealStats.sum l = 0 -> Forall (fun x => x = 0) l.
Proof.
  unfold RealStats.sum. induction 1 as [|x l Hx Hl IH]; cbn [fold_right]; [constructor|].
  intros Hs.
  assert (Hrest : 0 <= fold_right Rplus 0 l).
  { clear -Hl. induction Hl as [|y l Hy _ IH]; cbn [fold_right]; lra. }
  constructor; [lra|]. apply IH. lra.
Qed.

Lemma sum_zero l : Forall (fun x => x = 0) l -> RealStats.sum l = 0.
Proof.
  unfold RealStats.sum. induction 1 as [|x l Hx _ IH]; cbn [fold_right]; lra.
Qed.

Lemma mean_constant c l :
  l <> [] -> Forall (fun x => x = c) l -> RealStats.mean l = c.
Proof.
  intros Hl Hc. unfold RealStats.mean.
  assert (Hs : RealStats.sum l = INR (length l) * c).
  { clear Hl. unfold RealStats.sum.
    induction Hc as [|x l Hx _ IH]; cbn [fold_right length]; [cbn; ring|].
    rewrite IH, S_INR, Hx. ring. }
  rewrite Hs. field. apply not_0_INR. destruct l; [congruence|discriminate].
Qed.

(** The sample standard deviation is 0 exactly on constant data. *)
Lemma std_zero_iff_constant l :
  (2 <= length l)%nat ->
  RealStats.std l = 0 <-> Forall (fun x => x = RealStats.mean l) l.
Proof.
  intros Hn. unfold RealStats.std.
  assert (Hpos : 0 < INR (length l - 1)) by (apply lt_0_INR; lia).
  set (mu := RealStats.mean l).
  pose proof (sum_squares_nonneg (fun x => x - mu) l) as Hs.
  split.
  - intros H0. apply sqrt_eq_0 in H0.
    2:{ apply Rmult_le_pos; [exact Hs|]. left. now apply Rinv_0_lt_compat. }
    assert (Hsum : RealStats.sum (map (fun x => (x - mu) * (x - mu)) l) = 0).
    { unfold Rdiv in H0. apply Rmult_integral in H0 as [H0|H0]; [exact H0|].
      pose proof (Rinv_0_lt_compat _ Hpos). lra. }
    apply sum_nonneg_zero in Hsum.
    + rewrite Forall_map in Hsum. eapply Forall_impl; [exact Hsum|].
      intros x Hx. cbn beta in Hx. apply Rmult_integral in Hx. lra.
    + apply Forall_map, Forall_forall. intros x _. cbn beta.
      pose proof (Rle_0_sqr (x - mu)) as Hq. unfold Rsqr in Hq. exact Hq.
  - intros Hc. rewrite sum_zero.
    + unfold Rdiv. rewrite Rmult_0_l. apply sqrt_0.
    + apply Forall_map. eapply Forall_impl; [exact Hc|].
      intros x Hx. cbn beta in *. rewrite Hx. ring.
Qed.

End Centring.

(** ** The label normalisation *)

Section NormalisedLabels.
Import Torch KeOpsData.

Lemma labels_nan mu (l : list fnum) :
  map (RowForm.standardize_label mu (Some 0%R)) l = repeat None (length l).
Proof.
  induction l as [|y l IH]; [reflexivity|]. cbn [map length repeat].
  unfold RowForm.standardize_label at 1. now rewrite fdiv_by_zero, IH.
Qed.

(** X12: the label normalisation divides by [train_y.std()] without the guard
    that the feature normalisation has: whenever the standard deviation of
    the training targets is exactly 0, every normalised target, of the
    training set and of the test set, is a non-finite value. *)
Theorem zero_label_deviation_gives_nan_labels d (rows : list (list fnum)) :
  Forall (fun r => length r = S d) rows ->
  Z.of_nat (length rows) < 2 ^ 49 ->
  let n := Z.to_nat (4 * Z.of_nat (length rows) / 5) in
  exists s,
    split (of_rows (S d) rows) = Ok s /\
    ((label_stats (train_y s)).2 = scalar (Some 0%R) ->
     exists ds,
       prepare (of_rows (S d) rows) = Ok ds /\
       train_y ds = vector (repeat None n) /\
       test_y ds = vector (repeat None (length rows - n))).
Proof.
  intros Hwf HN n.
  pose proof (split_rows d rows Hwf HN) as Hs. cbv zeta in Hs. fold n in Hs.
  pose proof (prepare_rows d rows Hwf HN) as Hp. cbv zeta in Hp. fold n in Hp.
  eexists. split; [exact Hs|]. cbn [train_y].
  unfold label_stats, reduce_all, vector, scalar; cbn [data snd].
  intros Hstd. injection Hstd as Hstd.
  assert (Hle : (n <= length rows)%nat).
  { subst n. pose proof (Z.mul_div_le (4 * Z.of_nat (length rows)) 5 ltac:(lia)). lia. }
  rewrite Hstd, !labels_nan, !length_map, length_firstn, length_skipn in Hp.
  replace (Nat.min n (length rows)) with n in Hp by lia.
  eexists. split; [exact Hp|]. split; reflexivity.
Qed.

Lemma zero_label_deviation_gives_nan_labels_witness :
  exists ds,
    prepare (of_rows 2 (RealStats.inject [[1; 7]; [2; 7]; [3; 7]; [4; 5]]%R)) = Ok ds /\
    train_y ds = vector [None; None; None] /\ test_y ds = vector [None].
Proof.
  destruct (zero_label_deviation_gives_nan_labels 1
              (RealStats.inject [[1; 7]; [2; 7]; [3; 7]; [4; 5]]%R))
    as (s & Hs & H).
  - repeat constructor.
  - reflexivity.
  - rewrite split_rows in Hs by (repeat constructor || reflexivity).
    injection Hs as <-. apply H. cbn [train_y].
    change (Z.to_nat (4 * Z.of_nat
              (length (RealStats.inject [[1; 7]; [2; 7]; [3; 7]; [4; 5]]%R)) / 5))
      with 3%nat.
    unfold label_stats, reduce_all, vector; cbn [data snd].
    change (std_list _) with (std_list (map Some [7; 7; 7]%R)).
    rewrite std_list_finite by (cbn; lia).
    do 2 f_equal. apply std_zero_iff_constant; [cbn; lia|].
    rewrite (mean_constant 7%R) by first [discriminate | repeat constructor].
    repeat constructor.
Defined.

End NormalisedLabels.

(** ** Sizes and edge cases of the data cell *)

Section DataEdges.
Import Torch KeOpsData.

(** X13: the test set of the KeOps notebook: for a table of [N] rows and [d + 1]
    columns the normalised test features are [N - n] by [d] and the test
    targets are [N - n], with [n = floor(0.8 N)]; the test set holds at least
    a fifth of the rows, and no more than a fifth and one row; it is never
    empty when the table has a row, and the training set is never empty
    when the table has two rows. *)
Theorem test_set_size d (rows : list (list fnum)) :
  Forall (fun r => length r = S d) rows ->
  Z.of_nat (length rows) < 2 ^ 49 ->
  let N := length rows in
  let n := Z.to_nat (4 * Z.of_nat N / 5) in
  exists ds,
    prepare (of_rows (S d) rows) = Ok ds /\
    shape (train_x ds) = [n; d] /\ shape (train_y ds) = [n] /\
    shape (test_x ds) = [(N - n)%nat; d] /\ shape (test_y ds) = [(N - n)%nat] /\
    (N <= 5 * (N - n) <= N + 4)%nat /\
    ((1 <= N)%nat -> (1 <= N - n)%nat) /\
    ((2 <= N)%nat -> (1 <= n)%nat).
Proof.
  intros Hwf HN N n.
  assert (Hq : 0 <= 4 * Z.of_nat N / 5) by (apply Z.div_pos; lia).
  pose proof (Z.mul_div_le (4 * Z.of_nat N) 5 ltac:(lia)) as Hlo.
  pose proof (Z.mul_succ_div_gt (4 * Z.of_nat N) 5 ltac:(lia)) as Hhi.
  assert (Hn : Z.of_nat n = 4 * Z.of_nat N / 5) by (subst n; now rewrite Z2Nat.id).
  rewrite <- Hn in Hlo, Hhi.
  pose proof (prepare_rows d rows Hwf HN) as Hp. cbv zeta in Hp. fold N n in Hp.
  eexists. split; [exact Hp|].
  cbn [train_x train_y test_x test_y of_rows vector shape].
  rewrite !length_map, length_firstn, length_skipn. fold N.
  repeat split; try lia; f_equal; lia.
Qed.

Lemma test_set_size_witness :
  exists ds,
    prepare (of_rows 3 (RealStats.inject sample_table)) = Ok ds /\
    shape (train_x ds) = [4%nat; 2%nat] /\ shape (train_y ds) = [4%nat] /\
    shape (test_x ds) = [2%nat; 2%nat] /\ shape (test_y ds) = [2%nat].
Proof.
  destruct (test_set_size 2 (RealStats.inject sample_table))
    as (ds & H1 & H2 & H3 & H4 & H5 & _).
  - repeat constructor.
  - reflexivity.
  - exists ds. repeat split; assumption.
Defined.

(** X14: a data matrix without columns has no target column: the split raises
    [IndexError] at [data[:n_train, -1]], and so does the whole cell. *)
Theorem split_without_columns (N : nat) (entries : list fnum) :
  Z.of_nat N < 2 ^ 49 ->
  split (Tensor [N; 0%nat] entries) = Err IndexError /\
  prepare (Tensor [N; 0%nat] entries) = Err IndexError.
Proof.
  intros HN.
  assert (Hs : split (Tensor [N; 0%nat] entries) = Err IndexError).
  { unfold split, shape0; cbn [shape]. rewrite bind_Ok.
    rewrite n_train_floor, bind_Ok by lia.
    unfold getitem2 at 1, to_rows; cbn [shape data]. rewrite !bind_Ok.
    unfold getitem2 at 1, to_rows; cbn [shape data]. rewrite !bind_Ok.
    now rewrite py_pos_empty. }
  split; [exact Hs|]. unfold prepare. now rewrite Hs.
Qed.

Lemma split_without_columns_witness :
  split (Tensor [3%nat; 0%nat] []) = Err IndexError /\
  prepare (Tensor [3%nat; 0%nat] []) = Err IndexError.
Proof. apply (split_without_columns 3 []). reflexivity. Defined.

End DataEdges.

(** ** The score *)

Section ScoreFacts.
Import Torch KeOpsData.
Open Scope R_scope.

Lemma rmse_spec_finite (p t : list R) :
  length p = length t -> t <> [] ->
  rmse_spec (map Some p) (map Some t)
  = Some (sqrt (RealStats.sum
                  (map (fun i => (nth i p 0 - nth i t 0) * (nth i p 0 - nth i t 0))%R
                     (seq 0 (length t)))
                / INR (length t))).
Proof.
  intros Hlen Hne. unfold rmse_spec. cbv zeta. rewrite length_map.
  match goal with
  | |- fsqrt (fdiv (fsum ?l) _) = _ =>
      assert (Hpt : l = map Some
                          (map (fun i => (nth i p 0 - nth i t 0) * (nth i p 0 - nth i t 0))%R
                             (seq 0 (length t))))
  end.
  { rewrite map_map. apply map_ext_in. intros i Hi%in_seq.
    rewrite (nth_indep (map Some p) None (Some 0%R)) by (rewrite length_map; lia).
    rewrite (nth_indep (map Some t) None (Some 0%R)) by (rewrite length_map; lia).
    rewrite !(map_nth Some). reflexivity. }
  rewrite Hpt, fsum_finite. unfold of_nat.
  assert (0 < INR (length t))%R by (apply lt_0_INR; destruct t; [congruence|cbn; lia]).
  rewrite fdiv_finite by lra.
  apply fsqrt_finite. apply Rmult_le_pos.
  - apply (sum_squares_nonneg (fun i => nth i p 0 - nth i t 0)%R).
  - left. now apply Rinv_0_lt_compat.
Qed.


Lemma rmse_of_nothing : rmse (vector []) (vector []) = Ok (scalar None).
Proof.
  rewrite rmse_vectors by reflexivity. unfold rmse_spec. cbn [length seq map fsum fold_right].
  unfold of_nat. cbn [INR]. now rewrite fdiv_by_zero.
Qed.

(** X15: the score of predictions that equal their targets (finite numbers, at
    least one test point) is 0; a score that is a number is never negative;
    without a test point the score is nan. *)
Theorem rmse_zero_on_exact_predictions :
  rmse (vector []) (vector []) = Ok (scalar None) /\
  (forall t : list R,
     t <> [] -> rmse (vector (map Some t)) (vector (map Some t)) = Ok (scalar (Some 0))) /\
  (forall pred target : list fnum,
     length pred = length target ->
     exists r,
       rmse (vector pred) (vector target) = Ok (scalar r) /\
       match r with Some v => 0 <= v | None => True end).
Proof.
  split; [exact rmse_of_nothing|]. split.
  - intros t Hne. rewrite rmse_vectors by reflexivity.
    rewrite rmse_spec_finite by (reflexivity || assumption).
    do 3 f_equal. rewrite sum_zero.
    + unfold Rdiv. rewrite Rmult_0_l. apply sqrt_0.
    + apply Forall_map, Forall_forall. intros i _. cbn beta. ring.
  - intros pred target Hlen. rewrite rmse_vectors by exact Hlen.
    eexists. split; [reflexivity|].
    unfold rmse_spec. cbv zeta.
    destruct (fdiv _ _) as [x|]; cbn [fsqrt]; [|exact I].
    destruct (Rlt_dec x 0); [exact I|apply sqrt_pos].
Qed.

Lemma rmse_zero_on_exact_predictions_witness :
  rmse (vector [Some 1; Some 2]) (vector [Some 1; Some 2]) = Ok (scalar (Some 0)).
Proof.
  destruct rmse_zero_on_exact_predictions as (_ & H & _).
  apply (H [1; 2]). discriminate.
Defined.

End ScoreFacts.

(** ** The training data of the derivative notebook *)

Section DerivativeData.
Import Torch TorchShape.
Open Scope R_scope.

Lemma observed_slope_is_derivative x :
  derivable_pt_lim observed_value x (observed_slope x).
Proof.
  unfold observed_slope.
  replace (- sin x + 2 * cos (2 * x)) with (cos (2 * x) * (2 * 1) + - sin x) by ring.
  change observed_value with (comp sin (mult_real_fct 2 id) + cos)%F.
  apply derivable_pt_lim_plus.
  - apply (derivable_pt_lim_comp (mult_real_fct 2 id) sin).
    + apply derivable_pt_lim_scal, derivable_pt_lim_id.
    + apply derivable_pt_lim_sin.
  - apply derivable_pt_lim_cos.
Qed.

Lemma lookup_pairs {A} (g h : nat -> A) n : forall s i,
  (i < n)%nat ->
  concat (map (fun j => [g j; h j]) (seq s n)) !! (2 * i)%nat = Some (g (s + i)%nat) /\
  concat (map (fun j => [g j; h j]) (seq s n)) !! (2 * i + 1)%nat = Some (h (s + i)%nat).
Proof.
  induction n as [|n IH]; intros s i Hi; [lia|].
  cbn [seq map concat app]. destruct i as [|i].
  - cbn. rewrite Nat.add_0_r. now split.
  - replace (2 * S i)%nat with (S (S (2 * i))) by lia.
    replace (S (S (2 * i)) + 1)%nat with (S (S (2 * i + 1))) by lia.
    cbn [lookup list_lookup].
    replace (s + S i)%nat with (S s + i)%nat by lia.
    apply IH. lia.
Qed.

Lemma train_y_data noise :
  shape noise = [50%nat; 2%nat] ->
  let X := data DerivData.train_x in
  let V := zip_with fadd (map fsin (map (fun x => fmul (Some 2) x) X)) (map fcos X) in
  let D := zip_with fadd (map fneg (map fsin X))
             (map (fun x => fmul (Some 2) x) (map fcos (map (fun x => fmul (Some 2) x) X))) in
  DerivData.train_y noise
  = Ok (Tensor [50%nat; 2%nat]
          (zip_with fadd
             (concat (map (fun i => [nth i V None; nth i D None]) (seq 0 50)))
             (map (fun x => fmul (Some 0.05) x) (data noise)))).
Proof.
  intros Hnoise X V D. unfold DerivData.train_y.
  rewrite !binop_same_shape by reflexivity.
  repeat (rewrite bind_Ok; cbv beta).
  unfold stack_last. cbn [forallb].
  rewrite bool_decide_eq_true_2 by reflexivity.
  rewrite bool_decide_eq_true_2 by reflexivity.
  cbn [andb]. rewrite bind_Ok.
  change (shape (Tensor _ _) ++ [length _]) with [50%nat; 1%nat; 2%nat].
  rewrite squeeze_middle, bind_Ok.
  unfold iadd.
  rewrite binop_same_shape by (cbn [shape scale map_tensor]; now rewrite Hnoise).
  rewrite bind_Ok. cbn [shape]. rewrite decide_True by reflexivity.
  reflexivity.
Qed.

(** X16: the training data of the derivative notebook: [train_x] has 50
    entries, and for any noise of shape 50 by 2, row [i] of [train_y] holds,
    for the [i]-th entry [x] of [train_x], [sin(2x) + cos(x)] in column 0 and
    [-sin(x) + 2 cos(2x)] in column 1, each plus 0.05 times the noise entry at
    its place.  Read as functions on the reals, the second expression is the
    derivative of the first, so that column 1 observes the derivative of
    the function that column 0 observes. *)
Theorem derivative_training_data :
  (forall x, derivable_pt_lim observed_value x (observed_slope x)) /\
  shape DerivData.train_x = [50%nat; 1%nat] /\
  length (data DerivData.train_x) = 50%nat /\
  (forall noise,
     shape noise = [50%nat; 2%nat] ->
     exists ty,
       DerivData.train_y noise = Ok ty /\ shape ty = [50%nat; 2%nat] /\
       forall (i : nat) x e0 e1,
         (i < 50)%nat ->
         data DerivData.train_x !! i = Some x ->
         data noise !! (2 * i)%nat = Some e0 ->
         data noise !! (2 * i + 1)%nat = Some e1 ->
         data ty !! (2 * i)%nat = Some (fadd (value_entry x) (fmul (Some 0.05) e0)) /\
         data ty !! (2 * i + 1)%nat = Some (fadd (slope_entry x) (fmul (Some 0.05) e1))).
Proof.
  split; [exact observed_slope_is_derivative|].
  split; [reflexivity|]. split; [reflexivity|].
  intros noise Hnoise. eexists. split; [now apply train_y_data|].
  split; [reflexivity|]. cbn [data].
  intros i x e0 e1 Hi Hx H0 H1.
  set (X := data DerivData.train_x) in *.
  set (V := zip_with fadd (map fsin (map (fun x => fmul (Some 2) x) X)) (map fcos X)).
  set (D := zip_with fadd (map fneg (map fsin X))
              (map (fun x => fmul (Some 2) x)
                 (map fcos (map (fun x => fmul (Some 2) x) X)))).
  assert (HV : nth i V None = value_entry x).
  { rewrite nth_lookup. subst V.
    rewrite lookup_zip_with, !list_lookup_fmap. unfold fnum in *. rewrite Hx. reflexivity. }
  assert (HD : nth i D None = slope_entry x).
  { rewrite nth_lookup. subst D.
    rewrite lookup_zip_with, !list_lookup_fmap. unfold fnum in *. rewrite Hx. reflexivity. }
  destruct (lookup_pairs (fun j => nth j V None) (fun j => nth j D None) 50 0 i Hi)
    as [Ha Hb].
  cbn [Nat.add] in Ha, Hb.
  rewrite !lookup_zip_with, !list_lookup_fmap, Ha, Hb, H0, H1, HV, HD.
  split; reflexivity.
Qed.

Lemma derivative_training_data_witness :
  exists ty x,
    DerivData.train_y (Tensor [50%nat; 2%nat] (repeat (Some 0) 100)) = Ok ty /\
    shape ty = [50%nat; 2%nat] /\
    data DerivData.train_x !! 1%nat = Some x /\
    data ty !! 2%nat = Some (fadd (value_entry x) (fmul (Some 0.05) (Some 0))) /\
    data ty !! 3%nat = Some (fadd (slope_entry x) (fmul (Some 0.05) (Some 0))).
Proof.
  destruct derivative_training_data as (_ & _ & _ & H).
  destruct (H (Tensor [50%nat; 2%nat] (repeat (Some 0) 100)) eq_refl)
    as (ty & H1 & H2 & H3).
  exists ty. eexists. split; [exact H1|]. split; [exact H2|].
  split; [reflexivity|].
  apply (H3 1%nat _ (Some 0) (Some 0)); [lia|reflexivity..].
Defined.

End DerivativeData.

(** ** The preparation cell as a whole *)

Section PrepareCell.
Import Torch KeOpsData.

(** X17: the preparation cell of the KeOps notebook computes the split and the
    normalisation before it touches the device.  A completed run returns
    what [prepare] computes from the data, creates the device [cuda:0] and
    moves the four tensors to it, in the order [train_x], [train_y],
    [test_x], [test_y].  When the split raises [IndexError] (a data matrix
    without columns), no run returns a dataset and no device is created. *)
Theorem prepare_cell_trace data :
  (forall W (o : oracle W) w ds tr w',
     run o (KeOps.prepare_cell data) w = (Ok ds, tr, w') ->
     prepare data = Ok ds /\
     exists device,
       tr = [Ev (Import "import numpy as np") (Ok tt);
             Ev (New (Device "cuda:0")) (Ok device);
             Ev (To (train_x ds) device) (Ok tt);
             Ev (To (train_y ds) device) (Ok tt);
             Ev (To (test_x ds) device) (Ok tt);
             Ev (To (test_y ds) device) (Ok tt)]) /\
  (forall W (o : oracle W) w,
     prepare data = Err IndexError ->
     (forall ds, outcome (run o (KeOps.prepare_cell data) w) <> Ok ds) /\
     Forall (fun ev => exists r, ev = Ev (Import "import numpy as np") r)
            (trace (run o (KeOps.prepare_cell data) w))).
Proof.
  split.
  - intros W o w ds tr w' H. unfold KeOps.prepare_cell in H.
    next_call H. next_lift H. do 5 next_call H.
    apply run_ret_ok in H as (-> & -> & ->).
    split; [exact E|]. exists x1. destruct x, x2, x3, x4, x5. reflexivity.
  - intros W o w He. unfold KeOps.prepare_cell.
    rewrite run_call_bind, He.
    destruct (o _ (Import "import numpy as np") w) as [[[]|e'] w1];
      unfold outcome, trace; cbn [fst snd lift run].
    + split; [discriminate|]. repeat constructor. eauto.
    + split; [discriminate|]. repeat constructor. eauto.
Qed.

Lemma prepare_cell_trace_witness :
  exists ds device,
    prepare (of_rows 3 (RealStats.inject sample_table)) = Ok ds /\
    trace (run calm (KeOps.prepare_cell (of_rows 3 (RealStats.inject sample_table)))
             1%positive)
    = [Ev (Import "import numpy as np") (Ok tt);
       Ev (New (Device "cuda:0")) (Ok device);
       Ev (To (train_x ds) device) (Ok tt);
       Ev (To (train_y ds) device) (Ok tt);
       Ev (To (test_x ds) device) (Ok tt);
       Ev (To (test_y ds) device) (Ok tt)].
Proof.
  set (r := run calm (KeOps.prepare_cell (of_rows 3 (RealStats.inject sample_table)))
              1%positive).
  destruct (outcome r) as [ds|e] eqn:Hout; [|vm_compute in Hout; discriminate].
  destruct (prepare_cell_trace (of_rows 3 (RealStats.inject sample_table))) as [H _].
  destruct (H positive calm 1%positive ds (trace r) (world r)
              (run_eq_intro r ds (world r) Hout eq_refl)) as (Hp & device & Htr).
  exists ds, device. split; [exact Hp|exact Htr].
Defined.

End PrepareCell.

(** ** What the training loops backpropagate, and where predictions are made *)

Section LoopsAndPredictions.
Import Torch.

Lemma concat_singletons {A B} (g : A -> B) (l : list A) :
  concat (map (fun a => [g a]) l) = map g l.
Proof. induction l as [|a l IH]; [reflexivity|]. cbn [map concat app]. now rewrite IH. Qed.

Lemma loss_always :
  (forall ds likelihood model,
     always (loss_is_neg_exact_mll likelihood (self_id model)
               (KeOpsData.train_x ds) (KeOpsData.train_y ds))
            (KeOps.training_cell ds likelihood model)) /\
  (forall train_x train_y likelihood model,
     always (loss_is_neg_exact_mll likelihood (self_id model) train_x train_y)
            (Deriv.training_cell train_x train_y likelihood model)).
Proof.
  split.
  - intros ds likelihood model. unfold always, KeOps.training_cell.
    do 5 skip_call. skip_call.
    eapply aa_shift.
    + apply exact_mll_of_loop. cbn. right. right. right. right. left. reflexivity.
    + apply aa_for_from; [apply stable_loss_is_neg_mll|]. intros j. apply keops_step_loss.
  - intros train_x train_y likelihood model. unfold always, Deriv.training_cell.
    do 5 skip_call.
    eapply aa_shift.
    + apply exact_mll_of_loop. cbn. right. right. right. right. left. reflexivity.
    + apply aa_for_from; [apply stable_loss_is_neg_mll|]. intros j. apply deriv_step_loss.
Qed.

(** C2: in every iteration of the two training loops, [backward()] is called
    on [-mll(output, train_y)] where [output = model(train_x)] and [mll] is
    the [ExactMarginalLogLikelihood(likelihood, model)] built before the
    loop.  A completed run of either training cell makes 50 iterations, and
    the calls of each iteration are, in this order: [zero_grad()],
    [output = model(train_x)], [m = mll(output, train_y)], [backward()] on
    [-m], and [step()]; so the values backpropagated on are the 50
    negated results of the criterion.  In every run, completed or not, each
    [backward()] is on the negation of what the criterion returned on the
    output of the model just before. *)
Theorem loss_is_negated_mll :
  (forall W (o : oracle W) w ds likelihood model tr w',
     run o (KeOps.training_cell ds likelihood model) w = (Ok tt, tr, w') ->
     exists optimizer mll answers,
       In (Ev (New (ExactMarginalLogLikelihood likelihood (self_id model))) (Ok mll)) tr /\
       length answers = 50%nat /\
       omap ev_step tr
       = concat (map (step_calls (self_id model) (KeOpsData.train_x ds)
                        (KeOpsData.train_y ds) optimizer mll) answers) /\
       omap ev_backward tr = map (fun a => Neg (a_mll a)) answers) /\
  (forall W (o : oracle W) w train_x train_y likelihood model tr w',
     run o (Deriv.training_cell train_x train_y likelihood model) w = (Ok tt, tr, w') ->
     exists optimizer mll answers,
       In (Ev (New (ExactMarginalLogLikelihood likelihood (self_id model))) (Ok mll)) tr /\
       length answers = 50%nat /\
       omap ev_step tr
       = concat (map (step_calls (self_id model) train_x train_y optimizer mll) answers) /\
       omap ev_backward tr = map (fun a => Neg (a_mll a)) answers) /\
  (forall ds likelihood model,
     always (loss_is_neg_exact_mll likelihood (self_id model)
               (KeOpsData.train_x ds) (KeOpsData.train_y ds))
            (KeOps.training_cell ds likelihood model)) /\
  (forall train_x train_y likelihood model,
     always (loss_is_neg_exact_mll likelihood (self_id model) train_x train_y)
            (Deriv.training_cell train_x train_y likelihood model)).
Proof.
  split; [|split; [|exact loss_always]].
  - intros W o w ds likelihood model tr w' H.
    apply keops_training_cell_ok in H
      as (covar_module & params & optimizer & mll & answers & Hlen & ->).
    exists optimizer, mll, answers.
    split; [apply in_or_app; left; cbn; tauto|]. split; [exact Hlen|].
    rewrite !omap_app. split.
    + now rewrite (omap_steps_from ev_step _
                     (step_calls (self_id model) (KeOpsData.train_x ds)
                        (KeOpsData.train_y ds) optimizer mll)).
    + rewrite (omap_steps_from ev_backward _ (fun a => [Neg (a_mll a)])) by reflexivity.
      apply concat_singletons.
  - intros W o w train_x train_y likelihood model tr w' H.
    apply deriv_training_cell_ok in H
      as (covar_module & params & optimizer & mll & answers & Hlen & ->).
    exists optimizer, mll, answers.
    split; [apply in_or_app; left; cbn; tauto|]. split; [exact Hlen|].
    rewrite !omap_app. split.
    + now rewrite (omap_steps_from ev_step _
                     (step_calls (self_id model) train_x train_y optimizer mll)).
    + rewrite (omap_steps_from ev_backward _ (fun a => [Neg (a_mll a)])) by reflexivity.
      apply concat_singletons.
Qed.

Lemma loss_is_negated_mll_witness :
  let tr := trace (run calm (KeOps.training_cell toy_dataset toy_likelihood toy_model)
                     5%positive) in
  exists optimizer mll answers,
    In (Ev (New (ExactMarginalLogLikelihood toy_likelihood (Handle 1))) (Ok mll)) tr /\
    length answers = 50%nat /\
    omap ev_step tr
    = concat (map (step_calls (Handle 1) (KeOpsData.train_x toy_dataset)
                     (KeOpsData.train_y toy_dataset) optimizer mll) answers) /\
    omap ev_backward tr = map (fun a => Neg (a_mll a)) answers.
Proof.
  intros tr. destruct loss_is_negated_mll as [H _].
  apply (H positive calm 5%positive toy_dataset toy_likelihood toy_model tr
           (world (run calm (KeOps.training_cell toy_dataset toy_likelihood toy_model)
                     5%positive))).
  apply run_eq_intro; vm_compute; reflexivity.
Defined.

Lemma predictions_always :
  always predicted_in_eval_mode KeOps.notebook /\
  always predicted_in_eval_mode Deriv.notebook /\
  (forall ds likelihood model,
     always (predicted_by (self_id model) likelihood (KeOpsData.test_x ds))
            (KeOps.eval_cell ds likelihood model)) /\
  (forall train_x train_y likelihood model,
     always (predicted_by (self_id model) likelihood Deriv.test_x)
            (Deriv.eval_cell train_x train_y likelihood model)).
Proof.
  destruct other_cells_do_not_predict
    as (Hk1 & Hk2 & Hk3 & Hk4 & Hk5 & Hk7 & Hd1 & Hd2 & Hd3 & Hd4).
  pose proof stable_predicted_in_eval_mode as Hs.
  assert (Hco : forall A (p : prog A), calls_only not_apply p ->
                  always predicted_in_eval_mode p).
  { intros A p Hp. apply (aa_calls_only not_apply); [exact Hp|apply not_apply_predicted]. }
  split; [|split; [|split]].
  - unfold KeOps.notebook.
    apply aa_bind; [exact Hs|now apply Hco|intros _].
    apply aa_bind; [exact Hs|now apply Hco|intros data].
    apply aa_bind; [exact Hs|now apply Hco|intros ds].
    apply aa_bind; [exact Hs|now apply Hco|intros [likelihood model]].
    apply aa_bind; [exact Hs|now apply Hco|intros _].
    apply aa_bind; [exact Hs| |intros observed_pred; now apply Hco].
    eapply always_impl; [|apply keops_eval_cell_modes].
    intros pre ev. apply predicted_by_in_eval_mode.
  - unfold Deriv.notebook.
    apply aa_bind; [exact Hs|now apply Hco|intros _].
    apply aa_bind; [exact Hs|now apply Hco|intros [train_x train_y]].
    apply aa_bind; [exact Hs|now apply Hco|intros [likelihood model]].
    apply aa_bind; [exact Hs|now apply Hco|intros _].
    eapply always_impl; [|apply deriv_eval_cell_modes].
    intros pre ev. apply predicted_by_in_eval_mode.
  - apply keops_eval_cell_modes.
  - apply deriv_eval_cell_modes.
Qed.

(** C5: both notebooks compute their predictions in evaluation mode and
    without gradients.  A completed run of either evaluation cell calls
    [eval()] on the model and on the likelihood (in the derivative notebook
    after a [model.train()]), enters [torch.no_grad()] and the setting of the
    notebook, calls the model on the test inputs and applies the likelihood
    to the result, once, before it leaves the two contexts; the calls after
    that make no prediction and change no mode.  In every run of either
    notebook, completed or not, whenever the likelihood is applied to the
    output of the model, the latest mode call on the model and the latest on
    the likelihood were [eval()], not [train()], and the call is made inside
    [torch.no_grad()]. *)
Theorem predictions_in_eval_mode :
  (forall W (o : oracle W) w ds likelihood model observed_pred tr w',
     run o (KeOps.eval_cell ds likelihood model) w = (Ok observed_pred, tr, w') ->
     exists f,
       tr = [Ev (Eval (self_id model)) (Ok tt);
             Ev (Eval likelihood) (Ok tt);
             Enter NoGrad; Enter FastPredVar;
             Ev (Invoke (self_id model) (KeOpsData.test_x ds)) (Ok f);
             Ev (Apply likelihood f) (Ok observed_pred);
             Exit FastPredVar; Exit NoGrad]) /\
  (forall W (o : oracle W) w train_x train_y likelihood model tr w',
     run o (Deriv.eval_cell train_x train_y likelihood model) w = (Ok tt, tr, w') ->
     exists figure f predictions mean region plots,
       tr = [Ev (Train (self_id model)) (Ok tt);
             Ev (Eval (self_id model)) (Ok tt);
             Ev (Eval likelihood) (Ok tt);
             Ev (Subplots 1 2 (12, 6)) (Ok figure);
             Enter NoGrad; Enter (MaxCgIterations 50);
             Ev (Invoke (self_id model) Deriv.test_x) (Ok f);
             Ev (Apply likelihood f) (Ok predictions);
             Ev (DistMean predictions) (Ok mean);
             Ev (ConfidenceRegion predictions) (Ok region);
             Exit (MaxCgIterations 50); Exit NoGrad] ++ plots /\
       omap ev_apply plots = [] /\ omap ev_mode plots = []) /\
  always predicted_in_eval_mode KeOps.notebook /\
  always predicted_in_eval_mode Deriv.notebook /\
  (forall ds likelihood model,
     always (predicted_by (self_id model) likelihood (KeOpsData.test_x ds))
            (KeOps.eval_cell ds likelihood model)) /\
  (forall train_x train_y likelihood model,
     always (predicted_by (self_id model) likelihood Deriv.test_x)
            (Deriv.eval_cell train_x train_y likelihood model)).
Proof.
  split; [|split; [|exact predictions_always]].
  - intros W o w ds likelihood model observed_pred tr w' H.
    unfold KeOps.eval_cell in H. do 2 next_call H.
    apply run_with__ok in H as (tr1 & H & ->).
    apply run_with__ok in H as (tr2 & H & ->).
    unfold KeOps.predict in H. next_call H.
    apply run_call__ok in H as [_ ->].
    exists x1. destruct x, x0. reflexivity.
  - intros W o w train_x train_y likelihood model tr w' H.
    unfold Deriv.eval_cell in H. do 4 next_call H.
    destruct x2 as [fig [y1_ax y2_ax]].
    apply run_with_bind_ok in H as ([[mean lower] upper] & tr1 & w4 & tr2 & Hp & H & ->).
    apply run_with__ok in Hp as (tr3 & Hp & ->).
    unfold Deriv.predict in Hp. do 4 next_call Hp. destruct x5 as [lo up].
    cbn in Hp. injection Hp as <- <- <- <- <-.
    apply run_bind_ok in H as ([] & tra & wa & trb & H1 & H2 & ->).
    apply plot_panel_ok in H1 as (y0 & m0 & lo0 & up0 & _ & _ & _ & _ & ->).
    apply plot_panel_ok in H2 as (y1 & m1 & lo1 & up1 & _ & _ & _ & _ & ->).
    eexists (fig, (y1_ax, y2_ax)), x2, x3, x4, (lo, up), _.
    destruct x, x0, x1. split; [reflexivity|]. split; reflexivity.
Qed.

Lemma predictions_in_eval_mode_witness :
  exists f,
    trace (run calm (KeOps.eval_cell toy_dataset toy_likelihood toy_model) 5%positive)
    = [Ev (Eval (Handle 1)) (Ok tt);
       Ev (Eval (Handle 4)) (Ok tt);
       Enter NoGrad; Enter FastPredVar;
       Ev (Invoke (Handle 1) (KeOpsData.test_x toy_dataset)) (Ok f);
       Ev (Apply (Handle 4) f) (Ok (Handle 6));
       Exit FastPredVar; Exit NoGrad].
Proof.
  destruct predictions_in_eval_mode as [H _].
  apply (H positive calm 5%positive toy_dataset toy_likelihood toy_model
           (Handle 6) _ 7%positive).
  vm_compute. reflexivity.
Defined.

End LoopsAndPredictions.
